(** * PolylineCollection: a shallow embedding of Source/Scene/PolylineCollection.js

    The collection is a mutable JavaScript object that holds references to
    mutable Polyline objects.  Both are modelled with explicit state passing:
    a [World] is the object store of the polylines (a growing list indexed by
    object identity) together with the fields of the collection under study.
    Methods are functions [World -> Outcome A]; an outcome is either a normal
    return or a thrown exception, each with the world as the call left it.

    JavaScript numbers that are array indices or lengths are [nat]; the
    [Uint32Array] of mutation counters is a list of [Z] with the wrap-around
    at 2^32 written out; colours, coordinates and widths are finite doubles,
    held as the rationals they are, and a product of two of them is the
    exact product rounded as IEEE 754 rounds it. *)

From Stdlib Require Import ZArith QArith Qround Lia String.
From stdpp Require Import base tactics option list.

Set Default Proof Using "Type".
Local Open Scope nat_scope.

(** ** Enumerations of the renderer used by the collection *)

Inductive BufferUsage := STATIC_DRAW | STREAM_DRAW | DYNAMIC_DRAW.
Inductive SceneMode := SCENE2D | COLUMBUS_VIEW | SCENE3D | MORPHING.
Inductive PrimitiveType := POINTS | LINES | LINE_STRIP | TRIANGLES.
Inductive StencilFunction :=
  NEVER | LESS | EQUAL | LESS_OR_EQUAL | GREATER | NOT_EQUAL | GREATER_OR_EQUAL | ALWAYS.
Inductive StencilOperation := ZERO | KEEP | REPLACE | INCREMENT | DECREMENT | INVERT.
Inductive BlendingState := BLENDING_DISABLED | ALPHA_BLEND.
Inductive ComponentDatatype := FLOAT | UNSIGNED_BYTE.

#[global] Instance BufferUsage_eq_dec : EqDecision BufferUsage.
Proof. solve_decision. Defined.
#[global] Instance SceneMode_eq_dec : EqDecision SceneMode.
Proof. solve_decision. Defined.

(** ** Numbers *)

(** A JavaScript number that may be NaN (what [Math.max] returns when an
    argument is [undefined]). *)
Inductive jsnum := Num (q : Q) | NaN.

Definition Qmax' (a b : Q) : Q := if Qle_bool a b then b else a.
Definition Qmin' (a b : Q) : Q := if Qle_bool a b then a else b.

(** [Math.max(value, min)] and [Math.min(value, max)] with a possibly
    undefined first argument. *)
Definition Math_max (v : jsnum) (m : Q) : jsnum :=
  match v with Num q => Num (Qmax' q m) | NaN => NaN end.
Definition Math_min (v : jsnum) (m : Q) : jsnum :=
  match v with Num q => Num (Qmin' q m) | NaN => NaN end.

(** ToNumber of a property that may never have been assigned. *)
Definition ToNumber (v : option Q) : jsnum :=
  match v with Some q => Num q | None => NaN end.

Definition UINT32_MODULUS : Z := 2 ^ 32.

(** What an arithmetic operation on finite doubles yields: a finite double
    or, on overflow, an infinity. *)
Inductive double := Finite (q : Q) | Infinity (negative : bool).

Module Double.

(** The exponent [e] with [2^e <= a < 2^(e+1)], for positive [a]. *)
Definition exponent (a : Q) : Z :=
  let e := (Z.log2 (Qnum a) - Z.log2 (Zpos (Qden a)))%Z in
  if Qle_bool (2 ^ e)%Q a then e else (e - 1)%Z.

(** The integer nearest to [t], the even one of two equally near. *)
Definition nearest_even (t : Q) : Z :=
  let f := Qfloor t in
  match (t - inject_Z f ?= 1 # 2)%Q with
  | Lt => f
  | Gt => (f + 1)%Z
  | Eq => if Z.even f then f else (f + 1)%Z
  end.

(** Rounding a real to binary64, to nearest, ties to even: 53 significant
    bits, exponents from -1022 (below it the spacing stays 2^-1074) to
    1023; a magnitude that rounds to 2^1024 or more is an infinity.  The
    sign of a zero is not kept. *)
Definition round (r : Q) : double :=
  if Qeq_bool r 0 then Finite 0
  else
    let negative := negb (Qle_bool 0 r) in
    let a := (if negative then - r else r)%Q in
    let e := Z.max (exponent a) (-1022) in
    let ulp := (2 ^ (e - 52))%Q in
    let v := (inject_Z (nearest_even (a / ulp)) * ulp)%Q in
    if Qle_bool (2 ^ 1024)%Q v then Infinity negative
    else Finite (Qred (if negative then - v else v)%Q).

(** [a * b] on doubles. *)
Definition mul (a b : Q) : double := round (a * b)%Q.

End Double.

(** ** Geometry and colour values *)

Record Cartesian3 := { x : Q; y : Q; z : Q }.
Record Color := { red : Q; green : Q; blue : Q; alpha : Q }.

(** A 4x4 matrix is its sixteen entries; [Matrix4_equals] compares them. *)
Definition Matrix4 := list Q.
Definition Matrix4_IDENTITY : Matrix4 :=
  [1;0;0;0; 0;1;0;0; 0;0;1;0; 0;0;0;1]%Q.
Fixpoint Matrix4_equals (a b : Matrix4) : bool :=
  match a, b with
  | [], [] => true
  | u :: a', v :: b' => Qeq_bool u v && Matrix4_equals a' b'
  | _, _ => false
  end.
Definition Matrix4_clone (a : Matrix4) : Matrix4 := a.

(** ** Object identities *)

Abbreviation pid := nat (only parsing).   (* identity of a Polyline object *)
Abbreviation cid := nat (only parsing).   (* identity of a PolylineCollection object *)

(** ** Polyline *)

(** Property codes, in the order the collection lists them for
    [_buffersUsage]. *)
Definition SHOW_INDEX : nat := 0.
Definition POSITION_INDEX : nat := 1.
Definition COLOR_INDEX : nat := 2.
Definition WIDTH_INDEX : nat := 3.
Definition OUTLINE_WIDTH_INDEX : nat := 4.
Definition OUTLINE_COLOR_INDEX : nat := 5.
Definition NUMBER_OF_PROPERTIES : nat := 6.

(** Modelled from the spec: Scene/Polyline.js is not among the sources.  A
    line primitive has a visibility flag, an ordered sequence of positions,
    fill and outline colours, two widths, its slot index, a back-reference to
    the owning collection (cleared when it is detached) and a dirty bitset. *)
Record Polyline := {
  _show : bool;
  _positions : list Cartesian3;
  _color : Color;
  _outlineColor : Color;
  _width : Q;
  _outlineWidth : Q;
  _index : nat;
  _collection : option cid;
  _dirty : N
}.

(** Modelled from the spec: the construction template consumed by [add];
    every key is optional. *)
Record Template := {
  t_show : option bool;
  t_positions : option (list Cartesian3);
  t_width : option Q;
  t_outlineWidth : option Q;
  t_color : option Color;
  t_outlineColor : option Color
}.

Definition emptyTemplate : Template :=
  {| t_show := None; t_positions := None; t_width := None;
     t_outlineWidth := None; t_color := None; t_outlineColor := None |}.

Definition WHITE : Color := {| red := 1; green := 1; blue := 1; alpha := 1 |}.

Module Polyline.

(** Modelled from the spec: [new Polyline(template, collection)] with the
    defaults visible, no positions, opaque white colours and unit widths. *)
Definition new (t : option Template) (c : cid) : Polyline :=
  let t := default emptyTemplate t in
  {| _show := default true (t_show t);
     _positions := default [] (t_positions t);
     _color := default WHITE (t_color t);
     _outlineColor := default WHITE (t_outlineColor t);
     _width := default 1%Q (t_width t);
     _outlineWidth := default 1%Q (t_outlineWidth t);
     _index := 0;
     _collection := Some c;
     _dirty := 0%N |}.

Definition set_index (i : nat) (p : Polyline) : Polyline :=
  {| _show := _show p; _positions := _positions p; _color := _color p;
     _outlineColor := _outlineColor p; _width := _width p;
     _outlineWidth := _outlineWidth p; _index := i;
     _collection := _collection p; _dirty := _dirty p |}.

Definition set_collection (c : option cid) (p : Polyline) : Polyline :=
  {| _show := _show p; _positions := _positions p; _color := _color p;
     _outlineColor := _outlineColor p; _width := _width p;
     _outlineWidth := _outlineWidth p; _index := _index p;
     _collection := c; _dirty := _dirty p |}.

Definition set_dirty (d : N) (p : Polyline) : Polyline :=
  {| _show := _show p; _positions := _positions p; _color := _color p;
     _outlineColor := _outlineColor p; _width := _width p;
     _outlineWidth := _outlineWidth p; _index := _index p;
     _collection := _collection p; _dirty := d |}.

Definition set_show (b : bool) (p : Polyline) : Polyline :=
  {| _show := b; _positions := _positions p; _color := _color p;
     _outlineColor := _outlineColor p; _width := _width p;
     _outlineWidth := _outlineWidth p; _index := _index p;
     _collection := _collection p; _dirty := _dirty p |}.

Definition getPositions (p : Polyline) : list Cartesian3 := _positions p.
Definition getColor (p : Polyline) : Color := _color p.
Definition getOutlineColor (p : Polyline) : Color := _outlineColor p.
Definition getShow (p : Polyline) : bool := _show p.
Definition _getCollection (p : Polyline) : option cid := _collection p.

(** Modelled from the spec: [isDirty] reports whether any bit is set,
    [clean] clears the bitset, detaching clears the back-reference. *)
Definition _isDirty (p : Polyline) : bool := negb (N.eqb (_dirty p) 0).
Definition _clean (p : Polyline) : Polyline := set_dirty 0%N p.
Definition _destroy (p : Polyline) : Polyline := set_collection None p.
Definition mark (k : nat) (p : Polyline) : Polyline :=
  set_dirty (N.lor (_dirty p) (N.shiftl 1 (N.of_nat k))) p.

End Polyline.

(** ** Renderer values the collection creates and hands to the context *)

Record ColorMask := { cm_red : bool; cm_green : bool; cm_blue : bool; cm_alpha : bool }.

Record StencilOperations := {
  fail : StencilOperation;
  zFail : StencilOperation;
  zPass : StencilOperation
}.

Record StencilTest := {
  enabled : bool;
  frontFunction : StencilFunction;
  backFunction : StencilFunction;
  reference : Z;
  mask : Z;
  frontOperation : StencilOperations;
  backOperation : StencilOperations
}.

Record RenderState := {
  colorMask : ColorMask;
  lineWidth : jsnum;
  depthMask : bool;
  depthTest_enabled : bool;
  blending : BlendingState;
  stencilTest : StencilTest
}.

Definition set_lineWidth (v : jsnum) (r : RenderState) : RenderState :=
  {| colorMask := colorMask r; lineWidth := v; depthMask := depthMask r;
     depthTest_enabled := depthTest_enabled r; blending := blending r;
     stencilTest := stencilTest r |}.
Definition set_depthMask (v : bool) (r : RenderState) : RenderState :=
  {| colorMask := colorMask r; lineWidth := lineWidth r; depthMask := v;
     depthTest_enabled := depthTest_enabled r; blending := blending r;
     stencilTest := stencilTest r |}.
Definition set_depthTest_enabled (v : bool) (r : RenderState) : RenderState :=
  {| colorMask := colorMask r; lineWidth := lineWidth r; depthMask := depthMask r;
     depthTest_enabled := v; blending := blending r;
     stencilTest := stencilTest r |}.

(** Modelled from the spec: the rendering context is an external collaborator.
    The collection reads its aliased line-width range, asks it for the shader
    program and for render states, and submits draw calls to it. *)
Record Context := {
  minimumAliasedLineWidth : Q;
  maximumAliasedLineWidth : Q
}.

(** [context.createRenderState(template)]: the requested fields, with colour
    and depth writes enabled and the depth test disabled where the template is
    silent. *)
Definition createRenderState (cm : option ColorMask) (dm : option bool)
    (st : StencilTest) : RenderState :=
  {| colorMask := default {| cm_red := true; cm_green := true;
                             cm_blue := true; cm_alpha := true |} cm;
     lineWidth := Num 1;
     depthMask := default true dm;
     depthTest_enabled := false;
     blending := ALPHA_BLEND;
     stencilTest := st |}.

(** The program compiled from PolylineVS and PolylineFS with the collection's
    attribute bindings. *)
Inductive ShaderProgram := PolylineProgram.

(** The three uniform maps built by the constructor.  Each is an object of
    two functions closed over the collection: [u_morphTime] returns
    [that.morphTime] and [u_model] returns
    [that._getModelMatrix(that._mode)], both read when the function is
    called, not when the map is built. *)
Inductive UniformMap := drawUniformsOne3D | drawUniformsTwo3D | drawUniformsThree3D.

(** What the two functions of a uniform map returned. *)
Record Uniforms := { u_morphTime : Q; u_model : Matrix4 }.

(** Attribute bindings ([attributeIndices]). *)
Definition position3D : nat := 0.
Definition color : nat := 1.
Definition outlineColor : nat := 2.

Record IndexBuffer := {
  ib_indices : list Z;
  ib_usage : BufferUsage
}.

(** Modelled from the spec: the Partitioned Vertex Store
    (Renderer/VertexArrayFacade) is not among the sources.  It is constructed
    from an attribute-descriptor list and a total element capacity, exposes
    one write function per attribute (element offset, component values) and a
    commit; after the commit it offers its realized segments.  The model
    keeps the constructor arguments, the write calls in the order they were
    made, and the argument of the commit. *)
Record Attribute := {
  a_index : nat;
  componentsPerAttribute : nat;
  normalize : bool;
  componentDatatype : ComponentDatatype;
  usage : option BufferUsage
}.

Record WriteCall := {
  w_attribute : nat;
  w_vertex : nat;
  w_components : list double
}.

Record VertexArrayFacade := {
  vaf_attributes : list Attribute;
  vaf_size : nat;
  vaf_writes : list WriteCall;
  vaf_commit : option (option IndexBuffer)
}.

Record VertexArray := {
  va_first : nat;
  va_count : nat;
  va_indexBuffer : option IndexBuffer
}.

Module VertexArrayFacade.

Definition new (attrs : list Attribute) (sizeInVertices : nat) : VertexArrayFacade :=
  {| vaf_attributes := attrs; vaf_size := sizeInVertices;
     vaf_writes := []; vaf_commit := None |}.

(** [vaf.writers[a](i, v...)] *)
Definition write (a i : nat) (vs : list double) (v : VertexArrayFacade) : VertexArrayFacade :=
  {| vaf_attributes := vaf_attributes v; vaf_size := vaf_size v;
     vaf_writes := vaf_writes v ++ [{| w_attribute := a; w_vertex := i; w_components := vs |}];
     vaf_commit := vaf_commit v |}.

Definition commit (ib : option IndexBuffer) (v : VertexArrayFacade) : VertexArrayFacade :=
  {| vaf_attributes := vaf_attributes v; vaf_size := vaf_size v;
     vaf_writes := vaf_writes v; vaf_commit := Some ib |}.

(** One segment addresses at most 64K vertices. *)
Definition sixtyFourK : nat := 64 * 1024.

Fixpoint segments (fuel first remaining : nat) (ib : option IndexBuffer) : list VertexArray :=
  match fuel with
  | 0 => []
  | S fuel' =>
      if remaining =? 0 then []
      else
        let n := Nat.min remaining sixtyFourK in
        {| va_first := first; va_count := n; va_indexBuffer := ib |}
          :: segments fuel' (first + n) (remaining - n) ib
  end.

(** [vaf.va]: undefined before the commit, afterwards the realized
    segments, each bound to the index buffer the commit was given. *)
Definition va (v : VertexArrayFacade) : option (list VertexArray) :=
  match vaf_commit v with
  | None => None
  | Some ib => Some (segments (vaf_size v) 0 (vaf_size v) ib)
  end.

(** The last value written for attribute [a] of vertex [i], if any. *)
Definition read (a i : nat) (v : VertexArrayFacade) : option (list double) :=
  w_components <$>
    last (filter (fun w => w_attribute w = a /\ w_vertex w = i) (vaf_writes v)).

End VertexArrayFacade.

(** A call of [context.draw] as the context executed it: the fields of the
    argument, and what the functions of its uniform map returned when the
    context called them. *)
Record DrawCall := {
  primitiveType : PrimitiveType;
  shaderProgram : option ShaderProgram;
  uniformMap : option UniformMap;
  uniforms : option Uniforms;
  vertexArray : VertexArray;
  renderState : option RenderState
}.

(** ** The collection *)

(** An element of the JavaScript array [_polylines]: a reference to a
    polyline, [null] (a removed polyline awaiting compaction), or a hole. *)
Inductive slot := SPolyline (p : pid) | SNull | SHole.

(** A JavaScript value that is a reference to a polyline, [null] or
    [undefined]: what reading a slot hands back, and what a client passes
    where a polyline is expected. *)
Inductive value := VPolyline (p : pid) | VNull | VUndefined.

(** What [a && b] evaluates to when [a] is such a value and [b] a boolean:
    [a] itself when it is falsy, otherwise [b]. *)
Inductive guarded := GNull | GUndefined | GBool (b : bool).

Definition ToBoolean (g : guarded) : bool :=
  match g with GBool b => b | GNull | GUndefined => false end.

Record Collection := {
  ident : cid;
  _polylines : list slot;
  _polylinesToUpdate : list pid;
  _polylinesRemoved : bool;
  _createVertexArray : bool;
  morphTime : Q;
  _propertiesChanged : list Z;
  modelMatrix : Matrix4;
  _modelMatrix : Matrix4;
  bufferUsage : BufferUsage;
  _bufferUsage : option BufferUsage;
  _buffersUsage : list BufferUsage;
  _mode : SceneMode;
  width : option Q;
  outlineWidth : option Q;
  scene2D : option (option Matrix4);
  _sp : option ShaderProgram;
  _rsOne : option RenderState;
  _rsTwo : option RenderState;
  _rsThree : option RenderState;
  _drawUniformsOne : option UniformMap;
  _drawUniformsTwo : option UniformMap;
  _drawUniformsThree : option UniformMap;
  _vaf : option VertexArrayFacade
}.

Definition set_polylines (v : list slot) (c : Collection) : Collection :=
    {| ident := ident c; _polylines := v;
       _polylinesToUpdate := _polylinesToUpdate c;
       _polylinesRemoved := _polylinesRemoved c;
       _createVertexArray := _createVertexArray c; morphTime := morphTime c;
       _propertiesChanged := _propertiesChanged c;
       modelMatrix := modelMatrix c; _modelMatrix := _modelMatrix c;
       bufferUsage := bufferUsage c; _bufferUsage := _bufferUsage c;
       _buffersUsage := _buffersUsage c; _mode := _mode c; width := width c;
       outlineWidth := outlineWidth c; scene2D := scene2D c; _sp := _sp c;
       _rsOne := _rsOne c; _rsTwo := _rsTwo c; _rsThree := _rsThree c;
       _drawUniformsOne := _drawUniformsOne c;
       _drawUniformsTwo := _drawUniformsTwo c;
       _drawUniformsThree := _drawUniformsThree c; _vaf := _vaf c |}.

Definition set_polylinesToUpdate (v : list pid) (c : Collection) : Collection :=
    {| ident := ident c; _polylines := _polylines c; _polylinesToUpdate := v;
       _polylinesRemoved := _polylinesRemoved c;
       _createVertexArray := _createVertexArray c; morphTime := morphTime c;
       _propertiesChanged := _propertiesChanged c;
       modelMatrix := modelMatrix c; _modelMatrix := _modelMatrix c;
       bufferUsage := bufferUsage c; _bufferUsage := _bufferUsage c;
       _buffersUsage := _buffersUsage c; _mode := _mode c; width := width c;
       outlineWidth := outlineWidth c; scene2D := scene2D c; _sp := _sp c;
       _rsOne := _rsOne c; _rsTwo := _rsTwo c; _rsThree := _rsThree c;
       _drawUniformsOne := _drawUniformsOne c;
       _drawUniformsTwo := _drawUniformsTwo c;
       _drawUniformsThree := _drawUniformsThree c; _vaf := _vaf c |}.

Definition set_polylinesRemoved (v : bool) (c : Collection) : Collection :=
    {| ident := ident c; _polylines := _polylines c;
       _polylinesToUpdate := _polylinesToUpdate c; _polylinesRemoved := v;
       _createVertexArray := _createVertexArray c; morphTime := morphTime c;
       _propertiesChanged := _propertiesChanged c;
       modelMatrix := modelMatrix c; _modelMatrix := _modelMatrix c;
       bufferUsage := bufferUsage c; _bufferUsage := _bufferUsage c;
       _buffersUsage := _buffersUsage c; _mode := _mode c; width := width c;
       outlineWidth := outlineWidth c; scene2D := scene2D c; _sp := _sp c;
       _rsOne := _rsOne c; _rsTwo := _rsTwo c; _rsThree := _rsThree c;
       _drawUniformsOne := _drawUniformsOne c;
       _drawUniformsTwo := _drawUniformsTwo c;
       _drawUniformsThree := _drawUniformsThree c; _vaf := _vaf c |}.

Definition set_createVertexArray (v : bool) (c : Collection) : Collection :=
    {| ident := ident c; _polylines := _polylines c;
       _polylinesToUpdate := _polylinesToUpdate c;
       _polylinesRemoved := _polylinesRemoved c; _createVertexArray := v;
       morphTime := morphTime c; _propertiesChanged := _propertiesChanged c;
       modelMatrix := modelMatrix c; _modelMatrix := _modelMatrix c;
       bufferUsage := bufferUsage c; _bufferUsage := _bufferUsage c;
       _buffersUsage := _buffersUsage c; _mode := _mode c; width := width c;
       outlineWidth := outlineWidth c; scene2D := scene2D c; _sp := _sp c;
       _rsOne := _rsOne c; _rsTwo := _rsTwo c; _rsThree := _rsThree c;
       _drawUniformsOne := _drawUniformsOne c;
       _drawUniformsTwo := _drawUniformsTwo c;
       _drawUniformsThree := _drawUniformsThree c; _vaf := _vaf c |}.

Definition assign_morphTime (v : Q) (c : Collection) : Collection :=
    {| ident := ident c; _polylines := _polylines c;
       _polylinesToUpdate := _polylinesToUpdate c;
       _polylinesRemoved := _polylinesRemoved c;
       _createVertexArray := _createVertexArray c; morphTime := v;
       _propertiesChanged := _propertiesChanged c;
       modelMatrix := modelMatrix c; _modelMatrix := _modelMatrix c;
       bufferUsage := bufferUsage c; _bufferUsage := _bufferUsage c;
       _buffersUsage := _buffersUsage c; _mode := _mode c; width := width c;
       outlineWidth := outlineWidth c; scene2D := scene2D c; _sp := _sp c;
       _rsOne := _rsOne c; _rsTwo := _rsTwo c; _rsThree := _rsThree c;
       _drawUniformsOne := _drawUniformsOne c;
       _drawUniformsTwo := _drawUniformsTwo c;
       _drawUniformsThree := _drawUniformsThree c; _vaf := _vaf c |}.

Definition set_propertiesChanged (v : list Z) (c : Collection) : Collection :=
    {| ident := ident c; _polylines := _polylines c;
       _polylinesToUpdate := _polylinesToUpdate c;
       _polylinesRemoved := _polylinesRemoved c;
       _createVertexArray := _createVertexArray c; morphTime := morphTime c;
       _propertiesChanged := v; modelMatrix := modelMatrix c;
       _modelMatrix := _modelMatrix c; bufferUsage := bufferUsage c;
       _bufferUsage := _bufferUsage c; _buffersUsage := _buffersUsage c;
       _mode := _mode c; width := width c; outlineWidth := outlineWidth c;
       scene2D := scene2D c; _sp := _sp c; _rsOne := _rsOne c;
       _rsTwo := _rsTwo c; _rsThree := _rsThree c;
       _drawUniformsOne := _drawUniformsOne c;
       _drawUniformsTwo := _drawUniformsTwo c;
       _drawUniformsThree := _drawUniformsThree c; _vaf := _vaf c |}.

Definition assign_modelMatrix (v : Matrix4) (c : Collection) : Collection :=
    {| ident := ident c; _polylines := _polylines c;
       _polylinesToUpdate := _polylinesToUpdate c;
       _polylinesRemoved := _polylinesRemoved c;
       _createVertexArray := _createVertexArray c; morphTime := morphTime c;
       _propertiesChanged := _propertiesChanged c; modelMatrix := v;
       _modelMatrix := _modelMatrix c; bufferUsage := bufferUsage c;
       _bufferUsage := _bufferUsage c; _buffersUsage := _buffersUsage c;
       _mode := _mode c; width := width c; outlineWidth := outlineWidth c;
       scene2D := scene2D c; _sp := _sp c; _rsOne := _rsOne c;
       _rsTwo := _rsTwo c; _rsThree := _rsThree c;
       _drawUniformsOne := _drawUniformsOne c;
       _drawUniformsTwo := _drawUniformsTwo c;
       _drawUniformsThree := _drawUniformsThree c; _vaf := _vaf c |}.

Definition set_modelMatrix (v : Matrix4) (c : Collection) : Collection :=
    {| ident := ident c; _polylines := _polylines c;
       _polylinesToUpdate := _polylinesToUpdate c;
       _polylinesRemoved := _polylinesRemoved c;
       _createVertexArray := _createVertexArray c; morphTime := morphTime c;
       _propertiesChanged := _propertiesChanged c;
       modelMatrix := modelMatrix c; _modelMatrix := v;
       bufferUsage := bufferUsage c; _bufferUsage := _bufferUsage c;
       _buffersUsage := _buffersUsage c; _mode := _mode c; width := width c;
       outlineWidth := outlineWidth c; scene2D := scene2D c; _sp := _sp c;
       _rsOne := _rsOne c; _rsTwo := _rsTwo c; _rsThree := _rsThree c;
       _drawUniformsOne := _drawUniformsOne c;
       _drawUniformsTwo := _drawUniformsTwo c;
       _drawUniformsThree := _drawUniformsThree c; _vaf := _vaf c |}.

Definition assign_bufferUsage (v : BufferUsage) (c : Collection) : Collection :=
    {| ident := ident c; _polylines := _polylines c;
       _polylinesToUpdate := _polylinesToUpdate c;
       _polylinesRemoved := _polylinesRemoved c;
       _createVertexArray := _createVertexArray c; morphTime := morphTime c;
       _propertiesChanged := _propertiesChanged c;
       modelMatrix := modelMatrix c; _modelMatrix := _modelMatrix c;
       bufferUsage := v; _bufferUsage := _bufferUsage c;
       _buffersUsage := _buffersUsage c; _mode := _mode c; width := width c;
       outlineWidth := outlineWidth c; scene2D := scene2D c; _sp := _sp c;
       _rsOne := _rsOne c; _rsTwo := _rsTwo c; _rsThree := _rsThree c;
       _drawUniformsOne := _drawUniformsOne c;
       _drawUniformsTwo := _drawUniformsTwo c;
       _drawUniformsThree := _drawUniformsThree c; _vaf := _vaf c |}.

Definition set_bufferUsage (v : option BufferUsage) (c : Collection) : Collection :=
    {| ident := ident c; _polylines := _polylines c;
       _polylinesToUpdate := _polylinesToUpdate c;
       _polylinesRemoved := _polylinesRemoved c;
       _createVertexArray := _createVertexArray c; morphTime := morphTime c;
       _propertiesChanged := _propertiesChanged c;
       modelMatrix := modelMatrix c; _modelMatrix := _modelMatrix c;
       bufferUsage := bufferUsage c; _bufferUsage := v;
       _buffersUsage := _buffersUsage c; _mode := _mode c; width := width c;
       outlineWidth := outlineWidth c; scene2D := scene2D c; _sp := _sp c;
       _rsOne := _rsOne c; _rsTwo := _rsTwo c; _rsThree := _rsThree c;
       _drawUniformsOne := _drawUniformsOne c;
       _drawUniformsTwo := _drawUniformsTwo c;
       _drawUniformsThree := _drawUniformsThree c; _vaf := _vaf c |}.

Definition set_buffersUsage (v : list BufferUsage) (c : Collection) : Collection :=
    {| ident := ident c; _polylines := _polylines c;
       _polylinesToUpdate := _polylinesToUpdate c;
       _polylinesRemoved := _polylinesRemoved c;
       _createVertexArray := _createVertexArray c; morphTime := morphTime c;
       _propertiesChanged := _propertiesChanged c;
       modelMatrix := modelMatrix c; _modelMatrix := _modelMatrix c;
       bufferUsage := bufferUsage c; _bufferUsage := _bufferUsage c;
       _buffersUsage := v; _mode := _mode c; width := width c;
       outlineWidth := outlineWidth c; scene2D := scene2D c; _sp := _sp c;
       _rsOne := _rsOne c; _rsTwo := _rsTwo c; _rsThree := _rsThree c;
       _drawUniformsOne := _drawUniformsOne c;
       _drawUniformsTwo := _drawUniformsTwo c;
       _drawUniformsThree := _drawUniformsThree c; _vaf := _vaf c |}.

Definition set_mode (v : SceneMode) (c : Collection) : Collection :=
    {| ident := ident c; _polylines := _polylines c;
       _polylinesToUpdate := _polylinesToUpdate c;
       _polylinesRemoved := _polylinesRemoved c;
       _createVertexArray := _createVertexArray c; morphTime := morphTime c;
       _propertiesChanged := _propertiesChanged c;
       modelMatrix := modelMatrix c; _modelMatrix := _modelMatrix c;
       bufferUsage := bufferUsage c; _bufferUsage := _bufferUsage c;
       _buffersUsage := _buffersUsage c; _mode := v; width := width c;
       outlineWidth := outlineWidth c; scene2D := scene2D c; _sp := _sp c;
       _rsOne := _rsOne c; _rsTwo := _rsTwo c; _rsThree := _rsThree c;
       _drawUniformsOne := _drawUniformsOne c;
       _drawUniformsTwo := _drawUniformsTwo c;
       _drawUniformsThree := _drawUniformsThree c; _vaf := _vaf c |}.

Definition assign_width (v : option Q) (c : Collection) : Collection :=
    {| ident := ident c; _polylines := _polylines c;
       _polylinesToUpdate := _polylinesToUpdate c;
       _polylinesRemoved := _polylinesRemoved c;
       _createVertexArray := _createVertexArray c; morphTime := morphTime c;
       _propertiesChanged := _propertiesChanged c;
       modelMatrix := modelMatrix c; _modelMatrix := _modelMatrix c;
       bufferUsage := bufferUsage c; _bufferUsage := _bufferUsage c;
       _buffersUsage := _buffersUsage c; _mode := _mode c; width := v;
       outlineWidth := outlineWidth c; scene2D := scene2D c; _sp := _sp c;
       _rsOne := _rsOne c; _rsTwo := _rsTwo c; _rsThree := _rsThree c;
       _drawUniformsOne := _drawUniformsOne c;
       _drawUniformsTwo := _drawUniformsTwo c;
       _drawUniformsThree := _drawUniformsThree c; _vaf := _vaf c |}.

Definition assign_outlineWidth (v : option Q) (c : Collection) : Collection :=
    {| ident := ident c; _polylines := _polylines c;
       _polylinesToUpdate := _polylinesToUpdate c;
       _polylinesRemoved := _polylinesRemoved c;
       _createVertexArray := _createVertexArray c; morphTime := morphTime c;
       _propertiesChanged := _propertiesChanged c;
       modelMatrix := modelMatrix c; _modelMatrix := _modelMatrix c;
       bufferUsage := bufferUsage c; _bufferUsage := _bufferUsage c;
       _buffersUsage := _buffersUsage c; _mode := _mode c; width := width c;
       outlineWidth := v; scene2D := scene2D c; _sp := _sp c;
       _rsOne := _rsOne c; _rsTwo := _rsTwo c; _rsThree := _rsThree c;
       _drawUniformsOne := _drawUniformsOne c;
       _drawUniformsTwo := _drawUniformsTwo c;
       _drawUniformsThree := _drawUniformsThree c; _vaf := _vaf c |}.

Definition assign_scene2D (v : option (option Matrix4)) (c : Collection) : Collection :=
    {| ident := ident c; _polylines := _polylines c;
       _polylinesToUpdate := _polylinesToUpdate c;
       _polylinesRemoved := _polylinesRemoved c;
       _createVertexArray := _createVertexArray c; morphTime := morphTime c;
       _propertiesChanged := _propertiesChanged c;
       modelMatrix := modelMatrix c; _modelMatrix := _modelMatrix c;
       bufferUsage := bufferUsage c; _bufferUsage := _bufferUsage c;
       _buffersUsage := _buffersUsage c; _mode := _mode c; width := width c;
       outlineWidth := outlineWidth c; scene2D := v; _sp := _sp c;
       _rsOne := _rsOne c; _rsTwo := _rsTwo c; _rsThree := _rsThree c;
       _drawUniformsOne := _drawUniformsOne c;
       _drawUniformsTwo := _drawUniformsTwo c;
       _drawUniformsThree := _drawUniformsThree c; _vaf := _vaf c |}.

Definition set_sp (v : option ShaderProgram) (c : Collection) : Collection :=
    {| ident := ident c; _polylines := _polylines c;
       _polylinesToUpdate := _polylinesToUpdate c;
       _polylinesRemoved := _polylinesRemoved c;
       _createVertexArray := _createVertexArray c; morphTime := morphTime c;
       _propertiesChanged := _propertiesChanged c;
       modelMatrix := modelMatrix c; _modelMatrix := _modelMatrix c;
       bufferUsage := bufferUsage c; _bufferUsage := _bufferUsage c;
       _buffersUsage := _buffersUsage c; _mode := _mode c; width := width c;
       outlineWidth := outlineWidth c; scene2D := scene2D c; _sp := v;
       _rsOne := _rsOne c; _rsTwo := _rsTwo c; _rsThree := _rsThree c;
       _drawUniformsOne := _drawUniformsOne c;
       _drawUniformsTwo := _drawUniformsTwo c;
       _drawUniformsThree := _drawUniformsThree c; _vaf := _vaf c |}.

Definition set_rsOne (v : option RenderState) (c : Collection) : Collection :=
    {| ident := ident c; _polylines := _polylines c;
       _polylinesToUpdate := _polylinesToUpdate c;
       _polylinesRemoved := _polylinesRemoved c;
       _createVertexArray := _createVertexArray c; morphTime := morphTime c;
       _propertiesChanged := _propertiesChanged c;
       modelMatrix := modelMatrix c; _modelMatrix := _modelMatrix c;
       bufferUsage := bufferUsage c; _bufferUsage := _bufferUsage c;
       _buffersUsage := _buffersUsage c; _mode := _mode c; width := width c;
       outlineWidth := outlineWidth c; scene2D := scene2D c; _sp := _sp c;
       _rsOne := v; _rsTwo := _rsTwo c; _rsThree := _rsThree c;
       _drawUniformsOne := _drawUniformsOne c;
       _drawUniformsTwo := _drawUniformsTwo c;
       _drawUniformsThree := _drawUniformsThree c; _vaf := _vaf c |}.

Definition set_rsTwo (v : option RenderState) (c : Collection) : Collection :=
    {| ident := ident c; _polylines := _polylines c;
       _polylinesToUpdate := _polylinesToUpdate c;
       _polylinesRemoved := _polylinesRemoved c;
       _createVertexArray := _createVertexArray c; morphTime := morphTime c;
       _propertiesChanged := _propertiesChanged c;
       modelMatrix := modelMatrix c; _modelMatrix := _modelMatrix c;
       bufferUsage := bufferUsage c; _bufferUsage := _bufferUsage c;
       _buffersUsage := _buffersUsage c; _mode := _mode c; width := width c;
       outlineWidth := outlineWidth c; scene2D := scene2D c; _sp := _sp c;
       _rsOne := _rsOne c; _rsTwo := v; _rsThree := _rsThree c;
       _drawUniformsOne := _drawUniformsOne c;
       _drawUniformsTwo := _drawUniformsTwo c;
       _drawUniformsThree := _drawUniformsThree c; _vaf := _vaf c |}.

Definition set_rsThree (v : option RenderState) (c : Collection) : Collection :=
    {| ident := ident c; _polylines := _polylines c;
       _polylinesToUpdate := _polylinesToUpdate c;
       _polylinesRemoved := _polylinesRemoved c;
       _createVertexArray := _createVertexArray c; morphTime := morphTime c;
       _propertiesChanged := _propertiesChanged c;
       modelMatrix := modelMatrix c; _modelMatrix := _modelMatrix c;
       bufferUsage := bufferUsage c; _bufferUsage := _bufferUsage c;
       _buffersUsage := _buffersUsage c; _mode := _mode c; width := width c;
       outlineWidth := outlineWidth c; scene2D := scene2D c; _sp := _sp c;
       _rsOne := _rsOne c; _rsTwo := _rsTwo c; _rsThree := v;
       _drawUniformsOne := _drawUniformsOne c;
       _drawUniformsTwo := _drawUniformsTwo c;
       _drawUniformsThree := _drawUniformsThree c; _vaf := _vaf c |}.

Definition set_drawUniformsOne (v : option UniformMap) (c : Collection) : Collection :=
    {| ident := ident c; _polylines := _polylines c;
       _polylinesToUpdate := _polylinesToUpdate c;
       _polylinesRemoved := _polylinesRemoved c;
       _createVertexArray := _createVertexArray c; morphTime := morphTime c;
       _propertiesChanged := _propertiesChanged c;
       modelMatrix := modelMatrix c; _modelMatrix := _modelMatrix c;
       bufferUsage := bufferUsage c; _bufferUsage := _bufferUsage c;
       _buffersUsage := _buffersUsage c; _mode := _mode c; width := width c;
       outlineWidth := outlineWidth c; scene2D := scene2D c; _sp := _sp c;
       _rsOne := _rsOne c; _rsTwo := _rsTwo c; _rsThree := _rsThree c;
       _drawUniformsOne := v; _drawUniformsTwo := _drawUniformsTwo c;
       _drawUniformsThree := _drawUniformsThree c; _vaf := _vaf c |}.

Definition set_drawUniformsTwo (v : option UniformMap) (c : Collection) : Collection :=
    {| ident := ident c; _polylines := _polylines c;
       _polylinesToUpdate := _polylinesToUpdate c;
       _polylinesRemoved := _polylinesRemoved c;
       _createVertexArray := _createVertexArray c; morphTime := morphTime c;
       _propertiesChanged := _propertiesChanged c;
       modelMatrix := modelMatrix c; _modelMatrix := _modelMatrix c;
       bufferUsage := bufferUsage c; _bufferUsage := _bufferUsage c;
       _buffersUsage := _buffersUsage c; _mode := _mode c; width := width c;
       outlineWidth := outlineWidth c; scene2D := scene2D c; _sp := _sp c;
       _rsOne := _rsOne c; _rsTwo := _rsTwo c; _rsThree := _rsThree c;
       _drawUniformsOne := _drawUniformsOne c; _drawUniformsTwo := v;
       _drawUniformsThree := _drawUniformsThree c; _vaf := _vaf c |}.

Definition set_drawUniformsThree (v : option UniformMap) (c : Collection) : Collection :=
    {| ident := ident c; _polylines := _polylines c;
       _polylinesToUpdate := _polylinesToUpdate c;
       _polylinesRemoved := _polylinesRemoved c;
       _createVertexArray := _createVertexArray c; morphTime := morphTime c;
       _propertiesChanged := _propertiesChanged c;
       modelMatrix := modelMatrix c; _modelMatrix := _modelMatrix c;
       bufferUsage := bufferUsage c; _bufferUsage := _bufferUsage c;
       _buffersUsage := _buffersUsage c; _mode := _mode c; width := width c;
       outlineWidth := outlineWidth c; scene2D := scene2D c; _sp := _sp c;
       _rsOne := _rsOne c; _rsTwo := _rsTwo c; _rsThree := _rsThree c;
       _drawUniformsOne := _drawUniformsOne c;
       _drawUniformsTwo := _drawUniformsTwo c; _drawUniformsThree := v;
       _vaf := _vaf c |}.

Definition set_vaf (v : option VertexArrayFacade) (c : Collection) : Collection :=
    {| ident := ident c; _polylines := _polylines c;
       _polylinesToUpdate := _polylinesToUpdate c;
       _polylinesRemoved := _polylinesRemoved c;
       _createVertexArray := _createVertexArray c; morphTime := morphTime c;
       _propertiesChanged := _propertiesChanged c;
       modelMatrix := modelMatrix c; _modelMatrix := _modelMatrix c;
       bufferUsage := bufferUsage c; _bufferUsage := _bufferUsage c;
       _buffersUsage := _buffersUsage c; _mode := _mode c; width := width c;
       outlineWidth := outlineWidth c; scene2D := scene2D c; _sp := _sp c;
       _rsOne := _rsOne c; _rsTwo := _rsTwo c; _rsThree := _rsThree c;
       _drawUniformsOne := _drawUniformsOne c;
       _drawUniformsTwo := _drawUniformsTwo c;
       _drawUniformsThree := _drawUniformsThree c; _vaf := v |}.

(** ** Worlds, outcomes and the method monad *)

Record World := {
  heap : list Polyline;   (* the Polyline objects, by identity *)
  coll : Collection       (* the fields of [this] *)
}.

Inductive Exn := DeveloperError (message : string) | TypeError.

Inductive Outcome (A : Type) :=
| Returned (a : A) (w : World)
| Thrown (e : Exn) (w : World).
Arguments Returned {A} a w.
Arguments Thrown {A} e w.

Definition M (A : Type) : Type := World -> Outcome A.

Definition ret {A} (a : A) : M A := fun w => Returned a w.
Definition throw {A} (e : Exn) : M A := fun w => Thrown e w.
Definition bind {A B} (m : M A) (k : A -> M B) : M B :=
  fun w => match m w with
           | Returned a w' => k a w'
           | Thrown e w' => Thrown e w'
           end.

Notation "x <- m ;; k" := (bind m (fun x => k))
  (at level 100, m at next level, right associativity).
Notation "m ;;; k" := (bind m (fun _ => k))
  (at level 100, right associativity).

(** The world an outcome ends in, whichever way the call ended. *)
Definition final {A} (o : Outcome A) : World :=
  match o with Returned _ w => w | Thrown _ w => w end.

(** Reading and assigning fields of [this]. *)
Definition this : M Collection := fun w => Returned (coll w) w.
Definition assign (f : Collection -> Collection) : M unit :=
  fun w => Returned tt {| heap := heap w; coll := f (coll w) |}.

(** [new Polyline(...)]: the new object gets the next free identity. *)
Definition alloc (p : Polyline) : M pid :=
  fun w => Returned (length (heap w)) {| heap := heap w ++ [p]; coll := coll w |}.

(** Reading through a reference.  Every reference a JavaScript run holds
    denotes an object; an identity outside the store stands for a value that
    has none of Polyline's methods, and calling one is a TypeError. *)
Definition deref (p : pid) : M Polyline :=
  fun w => match heap w !! p with
           | Some q => Returned q w
           | None => Thrown TypeError w
           end.

(** Assigning fields of the object behind a reference. *)
Definition mutate (p : pid) (f : Polyline -> Polyline) : M unit :=
  fun w => Returned tt {| heap := alter f p (heap w); coll := coll w |}.

(** [a[i] = v] on a JavaScript array: in range it overwrites, out of range
    it extends the array, leaving holes in between. *)
Definition array_set (i : nat) (v : slot) (a : list slot) : list slot :=
  if i <? length a then <[i := v]> a
  else a ++ replicate (i - length a) SHole ++ [v].

(** [a[i]] on a JavaScript array with a numeric index. *)
Definition array_get (a : list slot) (i : Z) : value :=
  if (i <? 0)%Z then VUndefined
  else match a !! Z.to_nat i with
       | Some (SPolyline p) => VPolyline p
       | Some SNull => VNull
       | Some SHole | None => VUndefined
       end.

(** ** Methods of PolylineCollection *)

Module PolylineCollection.

(** The constructor.  [width], [outlineWidth] and [scene2D] are read by
    the methods but never assigned by the constructor. *)
Definition new (id : cid) : Collection :=
  {| ident := id;
     _polylines := [];
     _polylinesToUpdate := [];
     _polylinesRemoved := false;
     _createVertexArray := false;
     morphTime := 0;
     _propertiesChanged := replicate NUMBER_OF_PROPERTIES 0%Z;
     modelMatrix := Matrix4_IDENTITY;
     _modelMatrix := Matrix4_IDENTITY;
     bufferUsage := STATIC_DRAW;
     _bufferUsage := None;
     _buffersUsage := [STATIC_DRAW; STATIC_DRAW; STATIC_DRAW;
                       STATIC_DRAW; STATIC_DRAW; STATIC_DRAW];
     _mode := SCENE3D;
     width := None;
     outlineWidth := None;
     scene2D := None;
     _sp := None;
     _rsOne := None; _rsTwo := None; _rsThree := None;
     _drawUniformsOne := None; _drawUniformsTwo := None;
     _drawUniformsThree := None;
     _vaf := None |}.

Definition add (polyline : option Template) : M pid :=
  c <- this ;;
  p <- alloc (Polyline.new polyline (ident c)) ;;
  mutate p (Polyline.set_index (length (_polylines c))) ;;;
  assign (set_polylines (_polylines c ++ [SPolyline p])) ;;;
  assign (set_createVertexArray true) ;;;
  ret p.

(** [polyline && (polyline._getCollection() === this)]: for [null] and
    [undefined] the value is the argument itself. *)
Definition contains (polyline : value) : M guarded :=
  match polyline with
  | VNull => ret GNull
  | VUndefined => ret GUndefined
  | VPolyline p =>
      q <- deref p ;;
      c <- this ;;
      ret (GBool (bool_decide (Polyline._getCollection q = Some (ident c))))
  end.

Definition remove (polyline : value) : M bool :=
  b <- contains polyline ;;
  match ToBoolean b, polyline with
  | true, VPolyline p =>
      q <- deref p ;;
      c <- this ;;
      assign (set_polylines (array_set (_index q) SNull (_polylines c))) ;;;
      assign (set_polylinesRemoved true) ;;;
      assign (set_createVertexArray true) ;;;
      mutate p Polyline._destroy ;;;
      ret true
  | _, _ => ret false
  end.

Fixpoint _destroyPolylines_loop (polylines : list slot) : M unit :=
  match polylines with
  | [] => ret tt
  | SPolyline p :: rest =>
      mutate p Polyline._destroy ;;; _destroyPolylines_loop rest
  | _ :: rest => _destroyPolylines_loop rest
  end.

Definition _destroyPolylines : M unit :=
  c <- this ;; _destroyPolylines_loop (_polylines c).

Definition removeAll : M unit :=
  _destroyPolylines ;;;
  assign (set_polylines []) ;;;
  assign (set_polylinesToUpdate []) ;;;
  assign (set_polylinesRemoved false) ;;;
  assign (set_createVertexArray true).

(** The loop of [_removePolylines]: [rest] is what is left of
    [this._polylines] from position [i] on, [j] the next dense index and
    [polylines] the new array built so far. *)
Fixpoint _removePolylines_loop (rest : list slot) (j : nat)
    (polylines : list slot) : M (list slot) :=
  match rest with
  | [] => ret polylines
  | SPolyline p :: rest' =>
      mutate p (Polyline.set_index j) ;;;
      _removePolylines_loop rest' (S j) (polylines ++ [SPolyline p])
  | _ :: rest' => _removePolylines_loop rest' j polylines
  end.

Definition _removePolylines : M unit :=
  c <- this ;;
  if _polylinesRemoved c then
    assign (set_polylinesRemoved false) ;;;
    polylines <- _removePolylines_loop (_polylines c) 0 [] ;;
    assign (set_polylines polylines)
  else ret tt.

(** [++a[k]] on a [Uint32Array]: the sum wraps at 2^32; an index outside
    the array is ignored. *)
Definition uint32_incr (k : nat) (a : list Z) : list Z :=
  alter (fun n => ((n + 1) mod UINT32_MODULUS)%Z) k a.

Definition _updatePolyline (polyline : pid) (propertyChanged : nat) : M unit :=
  q <- deref polyline ;;
  (if Polyline._isDirty q then ret tt
   else c <- this ;;
        assign (set_polylinesToUpdate (_polylinesToUpdate c ++ [polyline]))) ;;;
  c <- this ;;
  assign (set_propertiesChanged (uint32_incr propertyChanged (_propertiesChanged c))).

(** The argument of [get]: absent, or a number. *)
Inductive index := IUndefined | INumber (i : Z).

Definition get (i : index) : M value :=
  match i with
  | IUndefined => throw (DeveloperError "index is required.")
  | INumber n =>
      _removePolylines ;;;
      c <- this ;;
      ret (array_get (_polylines c) n)
  end.

Definition getLength : M nat :=
  _removePolylines ;;;
  c <- this ;;
  ret (length (_polylines c)).

(** One iteration of the loop of [computeNewBuffersUsage]; the state of the
    loop is the array [buffersUsage] and the flag [usageChanged]. *)
Definition computeNewBuffersUsage_step (properties : list Z)
    (st : list BufferUsage * bool) (k : nat) : list BufferUsage * bool :=
  let newUsage :=
    if bool_decide (properties !! k = Some 0%Z) then STATIC_DRAW else STREAM_DRAW in
  (<[k := newUsage]> (fst st),
   snd st || bool_decide (fst st !! k <> Some newUsage)).

Definition computeNewBuffersUsage : M bool :=
  c <- this ;;
  let r := foldl (computeNewBuffersUsage_step (_propertiesChanged c))
                 (_buffersUsage c, false) (seq 0 NUMBER_OF_PROPERTIES) in
  assign (set_buffersUsage (fst r)) ;;;
  ret (snd r).


(** The quad indices of [_getIndexBuffer]: six 16-bit entries per group of
    four vertices. *)
Fixpoint quadIndices (n : nat) (j : Z) : list Z :=
  match n with
  | 0 => []
  | S n' =>
      map (fun v => (v mod 2 ^ 16)%Z)
          [j + 0; j + 1; j + 2; j + 0; j + 2; j + 3]%Z
        ++ quadIndices n' (j + 4)%Z
  end.

(** The index buffer shared by the collections of one context. *)
Definition _getIndexBuffer : IndexBuffer :=
  let sixteenK := 16 * 1024 in
  {| ib_indices := quadIndices sixteenK 0; ib_usage := STATIC_DRAW |}.

(** A call on one of [this._vaf.writers]. *)
Definition vafWrite (a i : nat) (vs : list double) : M unit :=
  c <- this ;;
  match _vaf c with
  | None => throw TypeError
  | Some vaf => assign (set_vaf (Some (VertexArrayFacade.write a i vs vaf)))
  end.

(** The loops of [_writeColor] and [_writePosition]: [i] is the
    polyline's [_index], [j] the loop counter. *)
Fixpoint _writeColor_loop (i j : nat) (positions : list Cartesian3)
    (c : Color) : M unit :=
  match positions with
  | [] => ret tt
  | _ :: rest =>
      vafWrite color (i + j)
               [Double.mul (red c) 255; Double.mul (green c) 255;
                Double.mul (blue c) 255; Double.mul (alpha c) 255] ;;;
      _writeColor_loop i (S j) rest c
  end.

Definition _writeColor (polyline : pid) : M unit :=
  q <- deref polyline ;;
  _writeColor_loop (_index q) 0 (Polyline.getPositions q) (Polyline.getColor q).

Fixpoint _writePosition_loop (i j : nat) (positions : list Cartesian3) : M unit :=
  match positions with
  | [] => ret tt
  | position :: rest =>
      vafWrite position3D (i + j)
               [Finite (x position); Finite (y position); Finite (z position)] ;;;
      _writePosition_loop i (S j) rest
  end.

Definition _writePosition (polyline : pid) : M unit :=
  q <- deref polyline ;;
  _writePosition_loop (_index q) 0 (Polyline.getPositions q).

Definition _writePolyline (polyline : pid) : M unit :=
  _writePosition polyline ;;;
  _writeColor polyline.

(** First loop of [_update]: the sum of the position counts.  Calling
    [getPositions] on [null] or on a hole is a TypeError. *)
Fixpoint _update_size (polylines : list slot) (sizeInVertices : nat) : M nat :=
  match polylines with
  | [] => ret sizeInVertices
  | SPolyline p :: rest =>
      q <- deref p ;;
      _update_size rest (sizeInVertices + length (Polyline.getPositions q))
  | _ :: _ => throw TypeError
  end.

(** Second loop of [_update]. *)
Fixpoint _update_write (polylines : list slot) : M unit :=
  match polylines with
  | [] => ret tt
  | SPolyline p :: rest =>
      deref p ;;;
      mutate p Polyline._clean ;;;
      _writePolyline p ;;;
      _update_write rest
  | _ :: _ => throw TypeError
  end.

Definition vertexAttributes (c : Collection) : list Attribute :=
  [ {| a_index := position3D; componentsPerAttribute := 3; normalize := false;
       componentDatatype := FLOAT;
       usage := _buffersUsage c !! POSITION_INDEX |};
    {| a_index := color; componentsPerAttribute := 4; normalize := true;
       componentDatatype := UNSIGNED_BYTE;
       usage := _buffersUsage c !! COLOR_INDEX |};
    {| a_index := outlineColor; componentsPerAttribute := 4; normalize := true;
       componentDatatype := UNSIGNED_BYTE;
       usage := _buffersUsage c !! OUTLINE_COLOR_INDEX |} ].

Definition _update : M unit :=
  c <- this ;;
  sizeInVertices <- _update_size (_polylines c) 0 ;;
  assign (set_vaf None) ;;;
  assign (set_vaf (Some (VertexArrayFacade.new (vertexAttributes c) sizeInVertices))) ;;;
  _update_write (_polylines c) ;;;
  c' <- this ;;
  match _vaf c' with
  | None => throw TypeError
  | Some vaf => assign (set_vaf (Some (VertexArrayFacade.commit None vaf)))
  end.

Definition _isShown : bool := true.

Definition _clampWidth (context : Context) (value : option Q) : jsnum :=
  let min := minimumAliasedLineWidth context in
  let max := maximumAliasedLineWidth context in
  Math_min (Math_max (ToNumber value) min) max.

Definition _syncMorphTime (mode : SceneMode) : M unit :=
  match mode with
  | SCENE3D => assign (assign_morphTime 1)
  | SCENE2D | COLUMBUS_VIEW => assign (assign_morphTime 0)
  | MORPHING => ret tt
  end.

Definition _getModelMatrix (mode : SceneMode) : M Matrix4 :=
  c <- this ;;
  match mode with
  | SCENE3D => ret (modelMatrix c)
  | SCENE2D | COLUMBUS_VIEW =>
      match scene2D c with
      | None => throw TypeError
      | Some (Some m) => ret m
      | Some None => ret (modelMatrix c)
      end
  | MORPHING => ret Matrix4_IDENTITY
  end.

(** Calling the two functions of a uniform map; the three maps have the
    same functions. *)
Definition callUniforms (um : UniformMap) : M Uniforms :=
  c <- this ;;
  m <- _getModelMatrix (_mode c) ;;
  ret {| u_morphTime := morphTime c; u_model := m |}.

(** Modelled from the spec: [context.draw(call)] executes the call at once,
    and in doing so calls every function of the uniform map it was given; a
    call without uniform map has none to call. *)
Definition Context_draw (pt : PrimitiveType) (sp : option ShaderProgram)
    (um : option UniformMap) (va : VertexArray) (rs : option RenderState)
    : M DrawCall :=
  us <- match um with
        | None => ret None
        | Some m => u <- callUniforms m ;; ret (Some u)
        end ;;
  ret {| primitiveType := pt; shaderProgram := sp; uniformMap := um;
         uniforms := us; vertexArray := va; renderState := rs |}.

(** The loop of [render] over the realized segments. *)
Fixpoint render_loop (va : list VertexArray) : M (list DrawCall) :=
  match va with
  | [] => ret []
  | seg :: rest =>
      c <- this ;;
      d1 <- Context_draw LINES (_sp c) (_drawUniformsOne c) seg (_rsOne c) ;;
      c <- this ;;
      d2 <- Context_draw LINES (_sp c) (_drawUniformsTwo c) seg (_rsTwo c) ;;
      c <- this ;;
      d3 <- Context_draw LINES (_sp c) (_drawUniformsThree c) seg (_rsThree c) ;;
      ds <- render_loop rest ;;
      ret (d1 :: d2 :: d3 :: ds)
  end.

(** [render(context)]: the value is the list of the calls of
    [context.draw], in the order they are made. *)
Definition render : M (list DrawCall) :=
  c <- this ;;
  match _vaf c with
  | None => ret []
  | Some vaf =>
      match VertexArrayFacade.va vaf with
      | None => ret []
      | Some va => render_loop va
      end
  end.

Definition allOps (o : StencilOperation) : StencilOperations :=
  {| fail := o; zFail := o; zPass := o |}.
Definition onPass (o : StencilOperation) : StencilOperations :=
  {| fail := KEEP; zFail := KEEP; zPass := o |}.

Definition rsOne_initial : RenderState :=
  createRenderState
    (Some {| cm_red := false; cm_green := false; cm_blue := false; cm_alpha := false |})
    None
    {| enabled := true; frontFunction := ALWAYS; backFunction := ALWAYS;
       reference := 0; mask := Z.lnot 0;
       frontOperation := allOps REPLACE; backOperation := allOps REPLACE |}.

Definition rsTwo_initial : RenderState :=
  createRenderState None (Some false)
    {| enabled := true; frontFunction := ALWAYS; backFunction := ALWAYS;
       reference := 1; mask := Z.lnot 0;
       frontOperation := onPass REPLACE; backOperation := onPass REPLACE |}.

Definition rsThree_initial : RenderState :=
  createRenderState None (Some false)
    {| enabled := true; frontFunction := NOT_EQUAL; backFunction := NOT_EQUAL;
       reference := 1; mask := Z.lnot 0;
       frontOperation := allOps KEEP; backOperation := allOps KEEP |}.

(** Assigning fields of a render state held in a field of [this]; the
    field being [undefined] makes the assignment a TypeError. *)
Definition with_rs (get : Collection -> option RenderState)
    (set : option RenderState -> Collection -> Collection)
    (f : RenderState -> RenderState) : M unit :=
  c <- this ;;
  match get c with
  | None => throw TypeError
  | Some rs => assign (set (Some (f rs)))
  end.

(** The mode [update] works in. *)
Definition update_mode : SceneMode := SCENE3D.

(** The condition under which [update] rebuilds, for the mode and the
    model matrix it computed. *)
Definition update_condition (mode : SceneMode) (modelMatrix : Matrix4)
    (c : Collection) : bool :=
  _createVertexArray c
  || bool_decide (_bufferUsage c <> Some (bufferUsage c))
  || bool_decide (_mode c <> mode)
  || (bool_decide (mode <> SCENE3D)
      && negb (Matrix4_equals (_modelMatrix c) modelMatrix)).

(** [update(context, sceneState)]; the scene state is not read.  The
    assignments for picking ([_pickUniforms]) are left out. *)
Definition update (context : Context) : M unit :=
  if _isShown then
    c <- this ;;
    (match _sp c with
     | None =>
         assign (set_sp (Some PolylineProgram)) ;;;
         assign (set_rsOne (Some rsOne_initial)) ;;;
         assign (set_rsTwo (Some rsTwo_initial)) ;;;
         assign (set_rsThree (Some rsThree_initial))
     | Some _ => ret tt
     end) ;;;
    let mode := update_mode in
    _syncMorphTime mode ;;;
    c <- this ;;
    let width := _clampWidth context (width c) in
    let outlineWidth := _clampWidth context (outlineWidth c) in
    let useDepthTest := negb (Qeq_bool (morphTime c) 0) in
    with_rs _rsOne set_rsOne (set_lineWidth outlineWidth) ;;;
    with_rs _rsOne set_rsOne (set_depthMask (negb useDepthTest)) ;;;
    with_rs _rsOne set_rsOne (set_depthTest_enabled useDepthTest) ;;;
    with_rs _rsTwo set_rsTwo (set_lineWidth width) ;;;
    with_rs _rsTwo set_rsTwo (set_depthTest_enabled useDepthTest) ;;;
    with_rs _rsThree set_rsThree (set_lineWidth outlineWidth) ;;;
    with_rs _rsThree set_rsThree (set_depthTest_enabled useDepthTest) ;;;
    modelMatrix <- _getModelMatrix mode ;;
    c <- this ;;
    if update_condition mode modelMatrix c then
      assign (set_createVertexArray false) ;;;
      assign (set_bufferUsage (Some (bufferUsage c))) ;;;
      assign (set_mode mode) ;;;
      assign (set_modelMatrix (Matrix4_clone modelMatrix)) ;;;
      if bool_decide (mode = SCENE3D) then
        assign (set_drawUniformsOne (Some drawUniformsOne3D)) ;;;
        assign (set_drawUniformsTwo (Some drawUniformsTwo3D)) ;;;
        assign (set_drawUniformsThree (Some drawUniformsThree3D)) ;;;
        _update
      else ret tt
    else ret tt
  else ret tt.

End PolylineCollection.

(** Modelled from the spec: what every setter of Polyline does after storing
    the new value.  It notifies the owning collection once per call, then
    marks the bit of the property in the dirty bitset; on a detached
    polyline, or one owned by another collection, this collection is not
    touched. *)
Definition Polyline_makeDirty (p : pid) (propertyChanged : nat) : M unit :=
  q <- deref p ;;
  c <- this ;;
  (if bool_decide (_collection q = Some (ident c))
   then PolylineCollection._updatePolyline p propertyChanged
   else ret tt) ;;;
  mutate p (Polyline.mark propertyChanged).

(** Modelled from the spec: [setShow] stores the flag and reports the change
    when the value differs from the stored one. *)
Definition Polyline_setShow (p : pid) (v : bool) : M unit :=
  q <- deref p ;;
  if bool_decide (_show q = v) then ret tt
  else mutate p (Polyline.set_show v) ;;; Polyline_makeDirty p SHOW_INDEX.

(** The world right after [new PolylineCollection()]. *)
Definition init (id : cid) : World :=
  {| heap := []; coll := PolylineCollection.new id |}.

Import PolylineCollection.

(** ** Invariants *)

(** The polyline behind [p] is a member of the collection: its
    back-reference is [this]. *)
Definition member (w : World) (p : pid) : Prop :=
  exists q, heap w !! p = Some q /\ _collection q = Some (ident (coll w)).

(** The polylines in the slots of an array, in slot order. *)
Definition slot_pid (s : slot) : option pid :=
  match s with SPolyline p => Some p | _ => None end.
Definition livePolylines (a : list slot) : list pid := omap slot_pid a.

(** Slots and back-references agree: a slot holds only members, at the index
    they record; every member sits in the slot it records; and tombstones
    exist only while a removal is pending. *)
Record slots_wf (w : World) : Prop := {
  wf_slot : forall i p,
    _polylines (coll w) !! i = Some (SPolyline p) ->
    exists q, heap w !! p = Some q /\ _index q = i
              /\ _collection q = Some (ident (coll w));
  wf_member : forall p q,
    heap w !! p = Some q -> _collection q = Some (ident (coll w)) ->
    _polylines (coll w) !! _index q = Some (SPolyline p);
  wf_dense :
    _polylinesRemoved (coll w) = false ->
    _polylines (coll w) = map SPolyline (livePolylines (_polylines (coll w)))
}.

(** The two arrays of the usage heuristic have one entry per property. *)
Definition usage_wf (w : World) : Prop :=
  length (_propertiesChanged (coll w)) = NUMBER_OF_PROPERTIES
  /\ length (_buffersUsage (coll w)) = NUMBER_OF_PROPERTIES
  /\ Forall (fun n => (0 <= n < UINT32_MODULUS)%Z) (_propertiesChanged (coll w)).

(** The classification [computeNewBuffersUsage] gives a counter value. *)
Definition classify (counter : option Z) : BufferUsage :=
  if bool_decide (counter = Some 0%Z) then STATIC_DRAW else STREAM_DRAW.

(** What the loop of [_removePolylines] does to the store: the polylines
    [ps] get the indices [j], [j+1], ... in order. *)
Fixpoint reindex (ps : list pid) (j : nat) (h : list Polyline) : list Polyline :=
  match ps with
  | [] => h
  | p :: ps' => reindex ps' (S j) (alter (Polyline.set_index j) p h)
  end.

(** What [_destroyPolylines] does to the store. *)
Fixpoint detach (ps : list pid) (h : list Polyline) : list Polyline :=
  match ps with
  | [] => h
  | p :: ps' => detach ps' (alter Polyline._destroy p h)
  end.

(** What the slot invariant reads of a world: the identity of the
    collection, its slots and removal flag, and of every polyline the slot
    index and the back-reference. *)
Definition links (h : list Polyline) : list (nat * option nat) :=
  map (fun q => (_index q, _collection q)) h.
Definition slots_view (w : World) :=
  (ident (coll w), _polylines (coll w), _polylinesRemoved (coll w), links (heap w)).

(** The arrays of the usage heuristic, the render resources, and whether
    the vertex store has been committed. *)
Definition usage_view (w : World) :=
  (_propertiesChanged (coll w), _buffersUsage (coll w)).
Definition passes_view (w : World) :=
  (_sp (coll w), _rsOne (coll w), _rsTwo (coll w), _rsThree (coll w)).
Definition commit_view (w : World) := vaf_commit <$> _vaf (coll w).

(** What [add], [remove], [removeAll] and the reads leave alone. *)
Definition static_view (w : World) :=
  (usage_view w, passes_view w, _vaf (coll w)).
(** What [update] leaves alone when it rebuilds. *)
Definition update_view (w : World) :=
  (slots_view w, usage_view w, passes_view w).
(** What writing vertices leaves alone. *)
Definition write_view (w : World) := (update_view w, commit_view w).
(** What a dirty notification leaves alone. *)
Definition notify_view (w : World) :=
  (slots_view w, _buffersUsage (coll w), passes_view w, _vaf (coll w)).

(** A computation keeps a view when the world it ends in, by return or by
    throw, shows what the world it started in showed. *)
Definition keeps {T A} (view : World -> T) (m : M A) : Prop :=
  forall w, view (final (m w)) = view w.

(** The render states of the three passes, once created, keep the colour
    mask, blending and stencil configuration they were created with;
    [update] only assigns their line width and depth flags. *)
Definition same_pass (r r0 : RenderState) : Prop :=
  colorMask r = colorMask r0 /\ blending r = blending r0
  /\ stencilTest r = stencilTest r0.

Definition rs_wf (w : World) : Prop :=
  match _sp (coll w) with
  | None => True
  | Some _ =>
      exists r1 r2 r3,
        _rsOne (coll w) = Some r1 /\ _rsTwo (coll w) = Some r2
        /\ _rsThree (coll w) = Some r3
        /\ same_pass r1 rsOne_initial /\ same_pass r2 rsTwo_initial
        /\ same_pass r3 rsThree_initial
  end.

(** ** Client programs *)

(** Assignments to the public fields of the collection. *)
Inductive PublicField :=
| FWidth (v : option Q)
| FOutlineWidth (v : option Q)
| FModelMatrix (m : Matrix4)
| FBufferUsage (u : BufferUsage)
| FMorphTime (t : Q).

Definition assignField (f : PublicField) : M unit :=
  match f with
  | FWidth v => assign (assign_width v)
  | FOutlineWidth v => assign (assign_outlineWidth v)
  | FModelMatrix m => assign (assign_modelMatrix m)
  | FBufferUsage u => assign (assign_bufferUsage u)
  | FMorphTime t => assign (assign_morphTime t)
  end.

(** One call a client makes on the collection or on one of its polylines. *)
Inductive Op :=
| OAdd (t : option Template)
| ORemove (p : value)
| ORemoveAll
| OContains (p : value)
| OGet (i : index)
| OGetLength
| ONotify (p : pid) (k : nat)
| OComputeNewBuffersUsage
| OUpdate (context : Context)
| ORender
| OAssign (f : PublicField).

(** What the client observes of a call. *)
Inductive Event :=
| EAdded (p : pid)
| ERemoved (p : value) (found : bool)
| EContains (b : guarded)
| EGot (v : value)
| ELength (n : nat)
| EUsage (changed : bool)
| EDrawn (calls : list DrawCall)
| EDone
| EThrew (e : Exn).

Definition perform (o : Op) : M Event :=
  match o with
  | OAdd t => p <- add t ;; ret (EAdded p)
  | ORemove p => b <- remove p ;; ret (ERemoved p b)
  | ORemoveAll => removeAll ;;; ret EDone
  | OContains p => b <- contains p ;; ret (EContains b)
  | OGet i => v <- get i ;; ret (EGot v)
  | OGetLength => n <- getLength ;; ret (ELength n)
  | ONotify p k => Polyline_makeDirty p k ;;; ret EDone
  | OComputeNewBuffersUsage => b <- computeNewBuffersUsage ;; ret (EUsage b)
  | OUpdate context => update context ;;; ret EDone
  | ORender => ds <- render ;; ret (EDrawn ds)
  | OAssign f => assignField f ;;; ret EDone
  end.

(** A client that catches what a call throws and carries on. *)
Definition step (o : Op) (w : World) : Event * World :=
  match perform o w with
  | Returned e w' => (e, w')
  | Thrown x w' => (EThrew x, w')
  end.

Fixpoint run (ops : list Op) (w : World) : list Event * World :=
  match ops with
  | [] => ([], w)
  | o :: ops' =>
      let (e, w') := step o w in
      let (es, w'') := run ops' w' in
      (e :: es, w'')
  end.

(** The polylines a run added, in order, and those it removed. *)
Definition added (es : list Event) : list pid :=
  omap (fun e => match e with EAdded p => Some p | _ => None end) es.
Definition removed (es : list Event) : list pid :=
  omap (fun e => match e with ERemoved (VPolyline p) true => Some p | _ => None end) es.

(** Programs made of [add], [remove] and the two reads. *)
Definition adds_and_removes (o : Op) : bool :=
  match o with
  | OAdd _ | ORemove _ | OGet _ | OGetLength | OContains _ => true
  | _ => false
  end.

(** The number of dirty notifications for property [k] in a program. *)
Definition notifies (k : nat) (o : Op) : bool :=
  match o with ONotify _ k' => k' =? k | _ => false end.
Definition notifications (k : nat) (ops : list Op) : nat :=
  length (List.filter (notifies k) ops).

(** ** The two halves of [update] *)

(** The render state of a pass when [update] starts assigning its width:
    the one just created if the program was not there yet, otherwise the
    one the collection holds. *)
Definition pass_state (c : Collection) (held : option RenderState)
    (initial : RenderState) : RenderState :=
  match _sp c with
  | None => initial
  | Some _ => default initial held
  end.

(** The collection when [update] reaches its rebuild test: program and
    render states exist, the morph time is synchronised with the mode, and
    the line widths and depth flags of the three passes are assigned. *)
Definition update_prepared (context : Context) (w : World) : World :=
  let c := coll w in
  let width := _clampWidth context (width c) in
  let outlineWidth := _clampWidth context (outlineWidth c) in
  let useDepthTest := negb (Qeq_bool 1 0) in
  {| heap := heap w;
     coll :=
       set_rsThree
         (Some (set_depthTest_enabled useDepthTest
                  (set_lineWidth outlineWidth
                     (pass_state c (_rsThree c) rsThree_initial))))
         (set_rsTwo
            (Some (set_depthTest_enabled useDepthTest
                     (set_lineWidth width
                        (pass_state c (_rsTwo c) rsTwo_initial))))
            (set_rsOne
               (Some (set_depthTest_enabled useDepthTest
                        (set_depthMask (negb useDepthTest)
                           (set_lineWidth outlineWidth
                              (pass_state c (_rsOne c) rsOne_initial)))))
               (assign_morphTime 1
                  (set_sp (Some (default PolylineProgram (_sp c))) c)))) |}.

(** What [update] assigns between a positive rebuild test and the call of
    [_update]. *)
Definition update_snapshot (w : World) : World :=
  let c := coll w in
  {| heap := heap w;
     coll :=
       set_drawUniformsThree (Some drawUniformsThree3D)
         (set_drawUniformsTwo (Some drawUniformsTwo3D)
            (set_drawUniformsOne (Some drawUniformsOne3D)
               (set_modelMatrix (Matrix4_clone (modelMatrix c))
                  (set_mode update_mode
                     (set_bufferUsage (Some (bufferUsage c))
                        (set_createVertexArray false c)))))) |}.

(** The vertex store, once committed, was committed without index buffer. *)
Definition vaf_wf (w : World) : Prop :=
  forall v ib, _vaf (coll w) = Some v -> vaf_commit v = Some ib -> ib = None.

(** Everything the methods rely on. *)
Definition world_wf (w : World) : Prop :=
  slots_wf w /\ usage_wf w /\ rs_wf w /\ vaf_wf w.

(** ** Data of the test suite (Specs/Scene/PolylineCollectionSpec.js) *)

Definition cartesian (a b c : Z) : Cartesian3 :=
  {| x := inject_Z a; y := inject_Z b; z := inject_Z c |}.

Definition RED : Color := {| red := 1; green := 0; blue := 0; alpha := 1 |}.
Definition GREEN : Color := {| red := 0; green := 1; blue := 0; alpha := 1 |}.
Definition BLUE : Color := {| red := 0; green := 0; blue := 1; alpha := 1 |}.

(** Two polylines of two positions each, with the coordinates the test
    suite uses and distinguishable colours. *)
Definition templateOne : Template :=
  {| t_show := None; t_positions := Some [cartesian 1 2 3; cartesian 2 3 4];
     t_width := None; t_outlineWidth := None;
     t_color := Some RED; t_outlineColor := Some BLUE |}.
Definition templateTwo : Template :=
  {| t_show := None; t_positions := Some [cartesian 4 5 6; cartesian 2 3 4];
     t_width := None; t_outlineWidth := None;
     t_color := Some GREEN; t_outlineColor := Some BLUE |}.

Definition testContext : Context :=
  {| minimumAliasedLineWidth := 1; maximumAliasedLineWidth := 10 |}.

(** The collection after adding the two polylines and updating once. *)
Definition twoPolylines : World :=
  snd (run [OAdd (Some templateOne); OAdd (Some templateTwo); OUpdate testContext]
           (init 0)).

(** ** Draw calls *)

(** The draw calls a call of [render] submitted. *)
Definition drawn (o : Outcome (list DrawCall)) : list DrawCall :=
  match o with Returned ds _ => ds | Thrown _ _ => [] end.

(** The draw call of one pass over one segment; [us] is what the functions
    of its uniform map returned, if it has a map. *)
Definition pass (um : option UniformMap) (us : Uniforms)
    (rs : RenderState) (seg : VertexArray) : DrawCall :=
  {| primitiveType := LINES; shaderProgram := Some PolylineProgram;
     uniformMap := um;
     uniforms := match um with Some _ => Some us | None => None end;
     vertexArray := seg; renderState := Some rs |}.

Definition noColorWrites : ColorMask :=
  {| cm_red := false; cm_green := false; cm_blue := false; cm_alpha := false |}.

(** ** A long-running client *)

(** The collection with one polyline whose setters have reported a change
    of visibility 2^32 - 1 times. *)
Definition saturated : World :=
  N.iter 4294967295
         (fun w => final (Polyline_makeDirty 0 SHOW_INDEX w))
         (final (add None (init 0))).

(** The classification a call of [computeNewBuffersUsage] in world [w]
    gives property [k]. *)
Definition classification (k : nat) (w : World) : option BufferUsage :=
  _buffersUsage (coll (final (computeNewBuffersUsage w))) !! k.

(** Two polylines added, none updated yet; and the same after the first one
    was removed. *)
Definition twoAdded : World :=
  snd (run [OAdd (Some templateOne); OAdd (Some templateTwo)] (init 0)).
Definition oneRemoved : World :=
  snd (run [OAdd (Some templateOne); OAdd (Some templateTwo);
            ORemove (VPolyline 0)]
           (init 0)).

(** One polyline whose colour was set once. *)
Definition colourChanged : World :=
  snd (run [OAdd None; ONotify 0 COLOR_INDEX] (init 0)).

(** A client program that adds two polylines, removes the first twice and
    [null] once, reads the length and adds a third polyline. *)
Definition mixedProgram : list Op :=
  [OAdd (Some templateOne); OAdd (Some templateTwo); ORemove (VPolyline 0);
   ORemove (VPolyline 0); ORemove VNull; OGetLength; OAdd None].

(** ** What the rebuild writes *)

(** The calls on the position and colour writers for one polyline, in the
    order [_writePolyline] makes them. *)
Definition positionWrites (q : Polyline) : list WriteCall :=
  imap (fun j position =>
          {| w_attribute := position3D; w_vertex := _index q + j;
             w_components :=
               [Finite (x position); Finite (y position); Finite (z position)] |})
       (Polyline.getPositions q).

Definition colorWrites (q : Polyline) : list WriteCall :=
  imap (fun j _ =>
          {| w_attribute := color; w_vertex := _index q + j;
             w_components :=
               [Double.mul (red (Polyline.getColor q)) 255;
                Double.mul (green (Polyline.getColor q)) 255;
                Double.mul (blue (Polyline.getColor q)) 255;
                Double.mul (alpha (Polyline.getColor q)) 255] |})
       (Polyline.getPositions q).

Definition polylineWrites (q : Polyline) : list WriteCall :=
  positionWrites q ++ colorWrites q.

Definition writesOf (h : list Polyline) (p : nat) : list WriteCall :=
  default [] (polylineWrites <$> h !! p).

Definition positionCount (h : list Polyline) (p : nat) : nat :=
  default 0 ((fun q => length (Polyline.getPositions q)) <$> h !! p).

(** The store after [_clean] was called on the polylines [ps]. *)
Fixpoint cleanAll (ps : list nat) (h : list Polyline) : list Polyline :=
  match ps with
  | [] => h
  | p :: ps' => cleanAll ps' (alter Polyline._clean p h)
  end.

(** A vertex store with further write calls logged. *)
Definition logged (ws : list WriteCall) (v : VertexArrayFacade) : VertexArrayFacade :=
  {| vaf_attributes := vaf_attributes v; vaf_size := vaf_size v;
     vaf_writes := vaf_writes v ++ ws; vaf_commit := vaf_commit v |}.

(** ** Further views and vocabulary *)

(** Everything [_update] leaves alone: the collection but for its vertex
    store, and the polylines but for their dirty bits. *)
Definition rebuild_view (w : World) :=
  (set_vaf None (coll w), map Polyline._clean (heap w)).

(** What the functions of the uniform maps read. *)
Definition uniform_view (w : World) :=
  (morphTime (coll w), modelMatrix (coll w), _mode (coll w), scene2D (coll w)).

(** Everything [render] and the draw calls it submits read. *)
Definition draw_view (w : World) :=
  (passes_view w, _vaf (coll w),
   (_drawUniformsOne (coll w), _drawUniformsTwo (coll w),
    _drawUniformsThree (coll w)),
   uniform_view w).

(** What the rebuild test of [update] reads. *)
Definition trigger_view (w : World) :=
  (_createVertexArray (coll w), _bufferUsage (coll w), bufferUsage (coll w),
   _mode (coll w)).

(** The mode snapshot. *)
Definition mode_view (w : World) := _mode (coll w).

(** Calls other than [update]. *)
Definition not_update (o : Op) : bool :=
  match o with OUpdate _ => false | _ => true end.

(** Calls other than [update] and the assignments to the two public fields
    the uniform maps read. *)
Definition keeps_drawing (o : Op) : bool :=
  match o with
  | OUpdate _ | OAssign (FModelMatrix _) | OAssign (FMorphTime _) => false
  | _ => true
  end.

(** A draw call with other values for the uniforms of its map. *)
Definition with_uniforms (us : Uniforms) (d : DrawCall) : DrawCall :=
  {| primitiveType := primitiveType d; shaderProgram := shaderProgram d;
     uniformMap := uniformMap d;
     uniforms := match uniformMap d with Some _ => Some us | None => None end;
     vertexArray := vertexArray d; renderState := renderState d |}.

(** An outcome with the world replaced. *)
Definition moved {A} (o : Outcome A) (w : World) : Outcome A :=
  match o with Returned a _ => Returned a w | Thrown e _ => Thrown e w end.

(** The slots hold polylines only: no [null], no hole. *)
Definition compact (w : World) : Prop :=
  _polylines (coll w) = map SPolyline (livePolylines (_polylines (coll w))).

(** The vertex store a rebuild leaves in world [w]: created for the
    position counts of the polylines in the slots with the attributes of
    the current classification, written polyline after polyline, and
    committed without index buffer. *)
Definition rebuiltStore (w : World) : VertexArrayFacade :=
  let ps := livePolylines (_polylines (coll w)) in
  VertexArrayFacade.commit None
    (logged (flat_map (writesOf (heap w)) ps)
       (VertexArrayFacade.new (vertexAttributes (coll w))
          (sum_list (map (positionCount (heap w)) ps)))).

(** The vertex of a quad that the [r]-th of its six indices names. *)
Definition quadCorner (r : nat) : Z :=
  match r with
  | 0 => 0 | 1 => 1 | 2 => 2 | 3 => 0 | 4 => 2 | _ => 3
  end.

(** The update queue, and the calls that may touch it. *)
Definition queue_view (w : World) := _polylinesToUpdate (coll w).
Definition not_removeAll (o : Op) : bool :=
  match o with ORemoveAll => false | _ => true end.
Definition is_notify (o : Op) : bool :=
  match o with ONotify _ _ => true | _ => false end.
(** ** Basic facts *)

Ltac mrun :=
  repeat (progress (cbn [bind ret throw this assign alloc mutate final
                         heap coll] in * ));
  unfold bind, ret, throw, this, assign, alloc, mutate in *; cbn in *.

Lemma alter_app_last {A} (f : A -> A) (l : list A) (a : A) :
  alter f (length l) (l ++ [a]) = l ++ [f a].
Proof.
  induction l as [|b l IH]; cbn; [done|]. by rewrite IH.
Qed.

Lemma add_eq (t : option Template) (w : World) :
  add t w =
  Returned (length (heap w))
    {| heap := heap w ++
         [Polyline.set_index (length (_polylines (coll w)))
            (Polyline.new t (ident (coll w)))];
       coll := set_createVertexArray true
                 (set_polylines
                    (_polylines (coll w) ++ [SPolyline (length (heap w))])
                    (coll w)) |}.
Proof.
  unfold add. mrun. by rewrite alter_app_last.
Qed.

Lemma remove_None (w : World) :
  remove VNull w = Returned false w /\ remove VUndefined w = Returned false w.
Proof. split; reflexivity. Qed.

Lemma remove_dangling (p : pid) (w : World) :
  heap w !! p = None -> remove (VPolyline p) w = Thrown TypeError w.
Proof. intros H. unfold remove, contains, bind, deref. by rewrite H. Qed.

Lemma remove_foreign (p : pid) (q : Polyline) (w : World) :
  heap w !! p = Some q -> _collection q <> Some (ident (coll w)) ->
  remove (VPolyline p) w = Returned false w.
Proof.
  intros H Hc. unfold remove, contains, bind, deref. rewrite H. cbn.
  unfold Polyline._getCollection. by rewrite bool_decide_eq_false_2.
Qed.

Lemma remove_member (p : pid) (q : Polyline) (w : World) :
  heap w !! p = Some q -> _collection q = Some (ident (coll w)) ->
  remove (VPolyline p) w =
  Returned true
    {| heap := alter Polyline._destroy p (heap w);
       coll := set_createVertexArray true
                 (set_polylinesRemoved true
                    (set_polylines
                       (array_set (_index q) SNull (_polylines (coll w)))
                       (coll w))) |}.
Proof.
  intros H Hc. unfold remove, contains, bind, deref. rewrite H. cbn.
  unfold Polyline._getCollection. rewrite bool_decide_eq_true_2 by done.
  by rewrite H.
Qed.

Lemma contains_eq (p : pid) (q : Polyline) (w : World) :
  heap w !! p = Some q ->
  contains (VPolyline p) w =
  Returned (GBool (bool_decide (_collection q = Some (ident (coll w))))) w.
Proof. intros H. unfold contains, bind, deref. by rewrite H. Qed.

(** *** Compaction *)

Lemma livePolylines_app (a b : list slot) :
  livePolylines (a ++ b) = livePolylines a ++ livePolylines b.
Proof. apply omap_app. Qed.

Lemma livePolylines_map (ps : list pid) :
  livePolylines (map SPolyline ps) = ps.
Proof. induction ps as [|p ps IH]; cbn; [done|]. by f_equal. Qed.

Lemma elem_of_livePolylines (a : list slot) (p : pid) :
  p ∈ livePolylines a <-> exists i, a !! i = Some (SPolyline p).
Proof.
  unfold livePolylines. rewrite list_elem_of_omap. split.
  - intros (s & Hs & Hp). destruct s; cbn in Hp; simplify_eq.
    by apply list_elem_of_lookup.
  - intros [i Hi]. exists (SPolyline p). split; [|done].
    apply list_elem_of_lookup. eauto.
Qed.

Lemma _removePolylines_loop_eq (rest : list slot) (j : nat)
    (polylines : list slot) (w : World) :
  _removePolylines_loop rest j polylines w =
  Returned (polylines ++ map SPolyline (livePolylines rest))
    {| heap := reindex (livePolylines rest) j (heap w); coll := coll w |}.
Proof.
  revert j polylines w.
  induction rest as [|s rest IH]; intros j polylines w.
  - cbn. rewrite app_nil_r. by destruct w.
  - destruct s; cbn [_removePolylines_loop]; [|apply IH..].
    unfold bind, mutate. rewrite IH. cbn. by rewrite <- app_assoc.
Qed.

Lemma _removePolylines_eq (w : World) :
  _removePolylines w =
  Returned tt
    (if _polylinesRemoved (coll w) then
       {| heap := reindex (livePolylines (_polylines (coll w))) 0 (heap w);
          coll := set_polylines
                    (map SPolyline (livePolylines (_polylines (coll w))))
                    (set_polylinesRemoved false (coll w)) |}
     else w).
Proof.
  unfold _removePolylines, bind, this. destruct (_polylinesRemoved (coll w)) eqn:E.
  - cbn. by rewrite _removePolylines_loop_eq.
  - reflexivity.
Qed.

Lemma reindex_length (ps : list pid) (j : nat) (h : list Polyline) :
  length (reindex ps j h) = length h.
Proof.
  revert j h. induction ps as [|p ps IH]; intros j h; cbn; [done|].
  by rewrite IH, length_alter.
Qed.

Lemma reindex_notin (ps : list pid) (j : nat) (h : list Polyline) (p : pid) :
  p ∉ ps -> reindex ps j h !! p = h !! p.
Proof.
  revert j h. induction ps as [|p' ps IH]; intros j h Hp; cbn; [done|].
  apply not_elem_of_cons in Hp as [Hne Hp].
  rewrite IH by done. by rewrite list_lookup_alter_ne.
Qed.

Lemma reindex_in (ps : list pid) (j k : nat) (h : list Polyline) (p : pid) :
  NoDup ps -> ps !! k = Some p ->
  reindex ps j h !! p = Polyline.set_index (j + k) <$> h !! p.
Proof.
  revert j k h. induction ps as [|p' ps IH]; intros j k h Hnd Hk; [done|].
  apply NoDup_cons in Hnd as [Hnotin Hnd]. cbn [reindex].
  destruct k as [|k]; cbn in Hk.
  - simplify_eq. rewrite reindex_notin by done.
    rewrite list_lookup_alter_eq. by rewrite Nat.add_0_r.
  - rewrite (IH (S j) k) by done.
    rewrite list_lookup_alter_ne.
    + by replace (S j + k) with (j + S k) by lia.
    + intros ->. apply Hnotin. apply list_elem_of_lookup. eauto.
Qed.

(** *** Computations that keep a view *)

Section keeps.
Context {T : Type} (view : World -> T).

Lemma keeps_ret {A} (a : A) : keeps view (ret a).
Proof. by intros w. Qed.

Lemma keeps_throw {A} (e : Exn) : keeps view (@throw A e).
Proof. by intros w. Qed.

Lemma keeps_this : keeps view this.
Proof. by intros w. Qed.

Lemma keeps_deref (p : nat) : keeps view (deref p).
Proof. intros w. unfold deref. by destruct (heap w !! p). Qed.

Lemma keeps_bind {A B} (m : M A) (k : A -> M B) :
  keeps view m -> (forall a, keeps view (k a)) -> keeps view (bind m k).
Proof.
  intros Hm Hk w. unfold bind. specialize (Hm w).
  destruct (m w) as [a w'|e w']; cbn in *; [|done].
  by rewrite Hk.
Qed.

Lemma keeps_assign (f : Collection -> Collection) :
  (forall h c, view {| heap := h; coll := f c |} = view {| heap := h; coll := c |}) ->
  keeps view (assign f).
Proof. intros H [h c]. apply H. Qed.

Lemma keeps_mutate (p : nat) (f : Polyline -> Polyline) :
  (forall h c, view {| heap := alter f p h; coll := c |}
               = view {| heap := h; coll := c |}) ->
  keeps view (mutate p f).
Proof. intros H [h c]. apply H. Qed.

Lemma keeps_alloc (q : Polyline) :
  (forall h c, view {| heap := h ++ [q]; coll := c |}
               = view {| heap := h; coll := c |}) ->
  keeps view (alloc q).
Proof. intros H [h c]. apply H. Qed.
End keeps.

(** Walks through monadic code, leaving the assignments that touch the
    view and the calls of other methods. *)
Ltac keeps_step :=
  lazymatch goal with
  | |- keeps _ (bind _ _) => apply keeps_bind; [|intros ?]
  | |- keeps _ (ret _) => apply keeps_ret
  | |- keeps _ (throw _) => apply keeps_throw
  | |- keeps _ this => apply keeps_this
  | |- keeps _ (deref _) => apply keeps_deref
  | |- keeps _ (assign _) => apply keeps_assign; intros ? []; reflexivity
  | |- keeps _ (mutate _ _) => apply keeps_mutate; intros ? ?; try reflexivity
  | |- keeps _ (alloc _) => apply keeps_alloc; intros ? ?; try reflexivity
  | |- keeps _ (match ?x with _ => _ end) => destruct x
  end.
Ltac keeps_auto := repeat keeps_step.

Lemma pair_inv {A B} (a a' : A) (b b' : B) :
  (a, b) = (a', b') -> a = a' /\ b = b'.
Proof. by intros [= -> ->]. Qed.

Lemma triple_inv {A B C} (a a' : A) (b b' : B) (c c' : C) :
  (a, b, c) = (a', b', c') -> a = a' /\ b = b' /\ c = c'.
Proof. by intros [= -> -> ->]. Qed.

Lemma quad_inv {A B C D} (a a' : A) (b b' : B) (c c' : C) (d d' : D) :
  (a, b, c, d) = (a', b', c', d') -> a = a' /\ b = b' /\ c = c' /\ d = d'.
Proof. by intros [= -> -> -> ->]. Qed.

(** *** The shape of [update] *)

Lemma update_eq (context : Context) (w : World) :
  rs_wf w ->
  update context w =
  if update_condition update_mode (modelMatrix (coll w)) (coll w)
  then _update (update_snapshot (update_prepared context w))
  else Returned tt (update_prepared context w).
Proof.
  intros Hrs. unfold rs_wf in Hrs. destruct w as [h c].
  destruct c as [id ps ptu prem cva mt pc mm mm' bu bu' bus mode wd owd s2d
                 sp r1o r2o r3o d1 d2 d3 vaf].
  simpl in Hrs.
  destruct sp as [sp|].
  - destruct Hrs as (r1 & r2 & r3 & -> & -> & -> & _). destruct sp.
    unfold update. generalize _update. intros rebuild.
    destruct mode, bu' as [[]|], bu, cva; vm_compute; reflexivity.
  - unfold update. generalize _update. intros rebuild.
    destruct mode, bu' as [[]|], bu, cva; vm_compute; reflexivity.
Qed.

(** ** The buffer-usage heuristic *)

Section usage_loop.
Variable properties : list Z.

Lemma usage_loop_spec (n : nat) (bu : list BufferUsage) (ch : bool) :
  n <= length bu ->
  let r := foldl (computeNewBuffersUsage_step properties) (bu, ch) (seq 0 n) in
  length (fst r) = length bu
  /\ (forall k, k < n -> fst r !! k = Some (classify (properties !! k)))
  /\ (forall k, n <= k -> fst r !! k = bu !! k)
  /\ (snd r = true <->
      ch = true \/ exists k, k < n /\ bu !! k <> Some (classify (properties !! k))).
Proof.
  induction n as [|n IH]; intros Hn; cbn zeta.
  - cbn. repeat split; try done; try lia.
    + intros ->. by left.
    + intros [->|(k & Hk & _)]; [done|lia].
  - rewrite seq_S, foldl_app. cbn [foldl Nat.add].
    destruct IH as (Hlen & Hlo & Hhi & Hch); [lia|].
    set (r := foldl (computeNewBuffersUsage_step properties) (bu, ch) (seq 0 n)) in *.
    unfold computeNewBuffersUsage_step. cbn [fst snd].
    fold (classify (properties !! n)).
    split; [by rewrite length_insert|].
    split; [|split].
    + intros k Hk. destruct (decide (k = n)) as [->|Hne].
      * apply list_lookup_insert_eq. lia.
      * rewrite list_lookup_insert_ne by done. apply Hlo. lia.
    + intros k Hk. rewrite list_lookup_insert_ne by lia. apply Hhi. lia.
    + rewrite orb_true_iff, Hch, bool_decide_eq_true, (Hhi n) by lia.
      split.
      * intros [[->|(k & Hk & Hd)]|Hd]; [by left| |]; right.
        -- exists k. split; [lia|done].
        -- exists n. split; [lia|done].
      * intros [->|(k & Hk & Hd)]; [by left; left|].
        destruct (decide (k = n)) as [->|Hne]; [by right|].
        left. right. exists k. split; [lia|done].
Qed.
End usage_loop.

Lemma computeNewBuffersUsage_eq (w : World) :
  computeNewBuffersUsage w =
  let r := foldl (computeNewBuffersUsage_step (_propertiesChanged (coll w)))
                 (_buffersUsage (coll w), false) (seq 0 NUMBER_OF_PROPERTIES) in
  Returned (snd r) {| heap := heap w; coll := set_buffersUsage (fst r) (coll w) |}.
Proof. reflexivity. Qed.

(** What a call of [computeNewBuffersUsage] returns and leaves behind. *)
Lemma computeNewBuffersUsage_run (w : World) :
  usage_wf w ->
  exists changed w',
    computeNewBuffersUsage w = Returned changed w'
    /\ heap w' = heap w
    /\ _propertiesChanged (coll w') = _propertiesChanged (coll w)
    /\ usage_wf w'
    /\ (forall k, k < NUMBER_OF_PROPERTIES ->
          _buffersUsage (coll w') !! k
          = Some (classify (_propertiesChanged (coll w) !! k))).
Proof.
  intros (Hp & Hb & Hr). rewrite computeNewBuffersUsage_eq. cbn zeta.
  destruct (usage_loop_spec (_propertiesChanged (coll w)) NUMBER_OF_PROPERTIES
              (_buffersUsage (coll w)) false) as (Hlen & Hlo & _ & _); [lia|].
  eexists _, _. split; [reflexivity|]. cbn [heap coll].
  split; [done|]. split; [done|]. split.
  - split; cbn [coll set_buffersUsage _buffersUsage _propertiesChanged];
      [done|]. split; [by rewrite Hlen|done].
  - intros k Hk. cbn [coll set_buffersUsage _buffersUsage]. by apply Hlo.
Qed.


(** ** The slot invariant *)

Lemma live_NoDup_gen (a : list slot) (ix : pid -> option nat) (off : nat) :
  (forall i p, a !! i = Some (SPolyline p) -> ix p = Some (off + i)) ->
  NoDup (livePolylines a).
Proof.
  revert off. induction a as [|s a IH]; intros off H; [constructor|].
  assert (NoDup (livePolylines a)) as Hnd.
  { apply (IH (S off)). intros i p Hi. rewrite (H (S i) p Hi). f_equal. lia. }
  destruct s; cbn; try done.
  apply NoDup_cons. split; [|done].
  intros [i Hi]%elem_of_livePolylines.
  pose proof (H 0 p eq_refl) as H0. pose proof (H (S i) p Hi) as H1.
  rewrite H0 in H1. simplify_eq. lia.
Qed.

Lemma slots_wf_NoDup (w : World) :
  slots_wf w -> NoDup (livePolylines (_polylines (coll w))).
Proof.
  intros Hwf.
  apply (live_NoDup_gen _ (fun p => _index <$> heap w !! p) 0).
  intros i p Hi. destruct (wf_slot w Hwf i p Hi) as (q & -> & <- & _). done.
Qed.

Lemma slots_wf_init (id : cid) : slots_wf (init id).
Proof. split; cbn; intros; done. Qed.

Lemma slots_wf_add (t : option Template) (w : World) :
  slots_wf w -> slots_wf (final (add t w)).
Proof.
  intros [Hs Hm Hd]. rewrite add_eq. cbn [final].
  split; cbn [heap coll set_createVertexArray set_polylines _polylines ident
              _polylinesRemoved].
  - intros i p [Hi|[Hlen Hi]]%lookup_app_Some.
    + destruct (Hs i p Hi) as (q & Hq & ?). exists q.
      split; [by apply lookup_app_l_Some|done].
    + destruct (i - length (_polylines (coll w))) as [|n] eqn:E; [|by destruct n].
      cbn in Hi. simplify_eq. eexists. split; [apply list_lookup_middle; done|].
      cbn. split; [lia|done].
  - intros p q [Hp|[Hlen Hp]]%lookup_app_Some Hc.
    + apply lookup_app_l_Some. by apply Hm.
    + destruct (p - length (heap w)) as [|n] eqn:E; [|by destruct n].
      cbn in Hp. simplify_eq. cbn.
      replace p with (length (heap w)) by lia. by apply list_lookup_middle.
  - intros Hf. rewrite livePolylines_app, map_app. cbn. f_equal. by apply Hd.
Qed.

Lemma array_set_in_range (i : nat) (v s : slot) (a : list slot) :
  a !! i = Some s -> array_set i v a = <[i := v]> a.
Proof.
  intros H%lookup_lt_Some. unfold array_set.
  by destruct (Nat.ltb_spec i (length a)); [|lia].
Qed.

Lemma slots_wf_remove (p : value) (w : World) :
  slots_wf w -> slots_wf (final (remove p w)).
Proof.
  intros Hwf. destruct p as [p| |]; [|done..].
  destruct (heap w !! p) as [q|] eqn:Hq; [|by rewrite remove_dangling].
  destruct (decide (_collection q = Some (ident (coll w)))) as [Hc|Hc];
    [|by rewrite (remove_foreign p q)].
  rewrite (remove_member p q) by done. cbn [final].
  pose proof (wf_member w Hwf p q Hq Hc) as Hslot.
  rewrite (array_set_in_range _ _ _ _ Hslot).
  destruct Hwf as [Hs Hm Hd].
  split; cbn [heap coll set_createVertexArray set_polylines set_polylinesRemoved
              _polylines ident _polylinesRemoved]; [| |done].
  - intros i p' Hi.
    destruct (decide (i = _index q)) as [->|Hne].
    { rewrite list_lookup_insert_eq in Hi by (by eapply lookup_lt_Some). done. }
    rewrite list_lookup_insert_ne in Hi by done.
    destruct (Hs i p' Hi) as (q' & Hq' & Hi' & Hc').
    exists q'. split; [|done].
    rewrite list_lookup_alter_ne; [done|]. intros ->. simplify_eq.
  - intros p' q' Hq' Hc'.
    destruct (decide (p' = p)) as [->|Hne].
    { rewrite list_lookup_alter_eq, Hq in Hq'. cbn in Hq'. simplify_eq. }
    rewrite list_lookup_alter_ne in Hq' by done.
    pose proof (Hm p' q' Hq' Hc') as Hs'.
    rewrite list_lookup_insert_ne; [done|].
    intros E. rewrite <- E in Hs'. simplify_eq.
Qed.

Lemma slots_wf_compact (w : World) :
  slots_wf w -> slots_wf (final (_removePolylines w)).
Proof.
  intros Hwf. rewrite _removePolylines_eq. cbn [final].
  destruct (_polylinesRemoved (coll w)) eqn:E; [|done].
  pose proof (slots_wf_NoDup w Hwf) as Hnd.
  destruct Hwf as [Hs Hm Hd].
  set (ps := livePolylines (_polylines (coll w))) in *.
  split; cbn [heap coll set_polylines set_polylinesRemoved _polylines ident
              _polylinesRemoved].
  - intros i p Hi. rewrite list_lookup_fmap in Hi.
    destruct (ps !! i) as [p'|] eqn:Hp; cbn in Hi; simplify_eq.
    assert (p ∈ ps) as [k Hk]%elem_of_livePolylines
      by (apply list_elem_of_lookup; eauto).
    destruct (Hs k p Hk) as (q & Hq & _ & Hc).
    exists (Polyline.set_index i q).
    split; [|done]. by rewrite (reindex_in ps 0 i), Hq.
  - intros p q' Hq' Hc'.
    destruct (decide (p ∈ ps)) as [Hin|Hnotin].
    + apply list_elem_of_lookup in Hin as [k Hk].
      rewrite (reindex_in ps 0 k) in Hq' by done.
      destruct (heap w !! p) as [q|]; cbn in Hq'; simplify_eq. cbn.
      by rewrite list_lookup_fmap, Hk.
    + rewrite reindex_notin in Hq' by done.
      exfalso. apply Hnotin. apply elem_of_livePolylines.
      eexists. by eapply Hm.
  - intros _. by rewrite livePolylines_map.
Qed.

(** The invariant depends on the slot view only. *)
Lemma links_lookup (h : list Polyline) (p : nat) :
  links h !! p = (fun q => (_index q, _collection q)) <$> h !! p.
Proof. apply list_lookup_fmap. Qed.

Lemma slots_wf_view (w w' : World) :
  slots_view w' = slots_view w -> slots_wf w -> slots_wf w'.
Proof.
  unfold slots_view. intros [= Ei Ep Ef El] [Hs Hm Hd].
  assert (forall p q', heap w' !! p = Some q' ->
            exists q, heap w !! p = Some q /\ _index q = _index q'
                      /\ _collection q = _collection q') as Hback.
  { intros p q' Hq'. pose proof (links_lookup (heap w') p) as H1.
    rewrite El, links_lookup, Hq' in H1.
    destruct (heap w !! p) as [q|]; cbn in H1; [|done].
    exists q. split; [done|]. by simplify_eq. }
  assert (forall p q, heap w !! p = Some q ->
            exists q', heap w' !! p = Some q' /\ _index q = _index q'
                       /\ _collection q = _collection q') as Hforth.
  { intros p q Hq. pose proof (links_lookup (heap w') p) as H1.
    rewrite El, links_lookup, Hq in H1.
    destruct (heap w' !! p) as [q'|]; cbn in H1; [|done].
    exists q'. split; [done|]. by simplify_eq. }
  split; rewrite ?Ep, ?Ef, ?Ei.
  - intros i p Hi. destruct (Hs i p Hi) as (q & Hq & Hix & Hc).
    destruct (Hforth p q Hq) as (q' & Hq' & E1 & E2).
    exists q'. split; [done|]. split; congruence.
  - intros p q' Hq' Hc.
    destruct (Hback p q' Hq') as (q & Hq & E1 & E2).
    rewrite <- E1. apply Hm; [done|congruence].
  - done.
Qed.

Lemma links_alter (f : Polyline -> Polyline) (p : nat) (h : list Polyline) :
  (forall q, _index (f q) = _index q /\ _collection (f q) = _collection q) ->
  links (alter f p h) = links h.
Proof.
  intros Hf. revert p. induction h as [|q h IH]; intros p; [done|].
  destruct p as [|p]; cbn.
  - destruct (Hf q) as [-> ->]. done.
  - f_equal. apply IH.
Qed.

(** ** What each method leaves alone *)

Lemma keeps_add_static (t : option Template) : keeps static_view (add t).
Proof. unfold add. keeps_auto. Qed.

Lemma keeps_contains {T} (view : World -> T) (p : value) :
  keeps view (contains p).
Proof. unfold contains. keeps_auto. Qed.

Lemma keeps_remove_static (p : value) : keeps static_view (remove p).
Proof.
  unfold remove. apply keeps_bind; [apply keeps_contains|intros b].
  keeps_auto.
Qed.

Lemma keeps_destroyPolylines_loop_static (l : list slot) :
  keeps static_view (_destroyPolylines_loop l).
Proof. induction l as [|s l IH]; cbn; keeps_auto; apply IH. Qed.

Lemma keeps_removeAll_static : keeps static_view removeAll.
Proof.
  unfold removeAll, _destroyPolylines. keeps_auto.
  apply keeps_destroyPolylines_loop_static.
Qed.

Lemma keeps_removePolylines_static : keeps static_view _removePolylines.
Proof.
  intros w. rewrite _removePolylines_eq. cbn [final].
  by destruct (_polylinesRemoved (coll w)), w as [h []].
Qed.

Lemma keeps_get_static (i : index) : keeps static_view (get i).
Proof.
  unfold get. destruct i; keeps_auto. apply keeps_removePolylines_static.
Qed.

Lemma keeps_getLength_static : keeps static_view getLength.
Proof. unfold getLength. keeps_auto. apply keeps_removePolylines_static. Qed.

Lemma keeps_callUniforms {T} (view : World -> T) (um : UniformMap) :
  keeps view (callUniforms um).
Proof. unfold callUniforms, _getModelMatrix. keeps_auto. Qed.

Lemma keeps_Context_draw {T} (view : World -> T) (pt : PrimitiveType)
    (sp : option ShaderProgram) (um : option UniformMap) (va : VertexArray)
    (rs : option RenderState) :
  keeps view (Context_draw pt sp um va rs).
Proof. unfold Context_draw. keeps_auto. apply keeps_callUniforms. Qed.

Lemma keeps_render_loop {T} (view : World -> T) (va : list VertexArray) :
  keeps view (render_loop va).
Proof.
  induction va as [|seg va IH]; cbn [render_loop]; keeps_auto;
    try apply keeps_Context_draw. apply IH.
Qed.

Lemma keeps_render {T} (view : World -> T) : keeps view render.
Proof. unfold render. keeps_auto. apply keeps_render_loop. Qed.

Lemma keeps_assignField_static (f : PublicField) :
  keeps static_view (assignField f).
Proof. destruct f; cbn; keeps_auto. Qed.

Lemma keeps_assignField_slots (f : PublicField) :
  keeps slots_view (assignField f).
Proof. destruct f; cbn; keeps_auto. Qed.

(** A dirty notification changes the counters, the update queue and the
    dirty bits, nothing else. *)
Lemma keeps_updatePolyline_notify (p k : nat) :
  keeps notify_view (_updatePolyline p k).
Proof. unfold _updatePolyline. keeps_auto. Qed.

Lemma keeps_makeDirty_notify (p k : nat) :
  keeps notify_view (Polyline_makeDirty p k).
Proof.
  unfold Polyline_makeDirty. keeps_auto.
  - apply keeps_updatePolyline_notify.
  - unfold notify_view, slots_view. cbn. by rewrite links_alter.
Qed.

Lemma keeps_computeNewBuffersUsage (w : World) :
  slots_view (final (computeNewBuffersUsage w)) = slots_view w
  /\ passes_view (final (computeNewBuffersUsage w)) = passes_view w
  /\ _vaf (coll (final (computeNewBuffersUsage w))) = _vaf (coll w).
Proof. rewrite computeNewBuffersUsage_eq. by destruct w as [h []]. Qed.

(** Writing vertices changes the write log of the vertex store and
    nothing else; the rebuild also replaces the store and clears dirty bits. *)
Lemma keeps_vafWrite (a i : nat) (vs : list double) :
  keeps write_view (vafWrite a i vs).
Proof.
  intros [h c]. unfold vafWrite, bind, this. cbn.
  destruct (_vaf c) as [v|] eqn:E; [|done]. cbn.
  unfold write_view, commit_view. cbn. rewrite E. by destruct c.
Qed.

Lemma keeps_writeColor_loop (i j : nat) (ps : list Cartesian3) (c : Color) :
  keeps write_view (_writeColor_loop i j ps c).
Proof.
  revert j. induction ps as [|p ps IH]; intros j; cbn; keeps_auto.
  - apply keeps_vafWrite.
  - apply IH.
Qed.

Lemma keeps_writePosition_loop (i j : nat) (ps : list Cartesian3) :
  keeps write_view (_writePosition_loop i j ps).
Proof.
  revert j. induction ps as [|p ps IH]; intros j; cbn; keeps_auto.
  - apply keeps_vafWrite.
  - apply IH.
Qed.

Lemma keeps_writePolyline (p : nat) : keeps write_view (_writePolyline p).
Proof.
  unfold _writePolyline, _writePosition, _writeColor. keeps_auto.
  - apply keeps_writePosition_loop.
  - apply keeps_writeColor_loop.
Qed.

Lemma keeps_update_size {T} (view : World -> T) (l : list slot) (n : nat) :
  keeps view (_update_size l n).
Proof.
  revert n. induction l as [|s l IH]; intros n; cbn; keeps_auto. apply IH.
Qed.

Lemma keeps_update_write (l : list slot) : keeps write_view (_update_write l).
Proof.
  induction l as [|s l IH]; cbn; keeps_auto.
  - unfold write_view, update_view, slots_view. cbn. by rewrite links_alter.
  - apply keeps_writePolyline.
  - apply IH.
Qed.

Lemma keeps_fst {T U A} (v1 : World -> T) (v2 : World -> U) (m : M A) :
  keeps (fun w => (v1 w, v2 w)) m -> keeps v1 m.
Proof. intros H w. specialize (H w). by simplify_eq. Qed.

Lemma keeps__update : keeps update_view _update.
Proof.
  unfold _update. keeps_auto.
  - apply keeps_update_size.
  - apply (keeps_fst update_view commit_view), keeps_update_write.
Qed.

(** ** Membership, removal and compaction *)

Lemma live_add (t : option Template) (w : World) :
  livePolylines (_polylines (coll (final (add t w)))) =
  livePolylines (_polylines (coll w)) ++ [length (heap w)].
Proof. rewrite add_eq. cbn. by rewrite livePolylines_app. Qed.

Lemma filter_ne_notin (p : nat) (l : list nat) :
  p ∉ l -> filter (fun x => x <> p) l = l.
Proof.
  induction l as [|x l IH]; intros Hp; [done|].
  apply not_elem_of_cons in Hp as [Hne Hp].
  rewrite filter_cons_True by done. by rewrite IH.
Qed.

Lemma live_cons (s : slot) (a : list slot) :
  livePolylines (s :: a) =
  match s with SPolyline p => p :: livePolylines a | _ => livePolylines a end.
Proof. by destruct s. Qed.

Lemma live_tombstone (a : list slot) (i : nat) (p : nat) :
  NoDup (livePolylines a) -> a !! i = Some (SPolyline p) ->
  livePolylines (<[i := SNull]> a) = filter (fun x => x <> p) (livePolylines a).
Proof.
  revert i. induction a as [|s a IH]; intros i Hnd Hi; [done|].
  rewrite live_cons in Hnd.
  destruct i as [|i]; cbn [lookup list_lookup] in Hi.
  - simplify_eq. apply NoDup_cons in Hnd as [Hnotin _].
    cbn [insert list_insert]. rewrite !live_cons.
    rewrite filter_cons_False by (intros ?; done).
    by rewrite filter_ne_notin.
  - cbn [insert list_insert]. rewrite !live_cons.
    destruct s; try by apply IH.
    apply NoDup_cons in Hnd as [Hnotin Hnd].
    rewrite filter_cons_True.
    + f_equal. by apply IH.
    + intros ->. apply Hnotin, elem_of_livePolylines. eauto.
Qed.

Lemma member_lookup (w : World) (p : nat) :
  slots_wf w -> p ∈ livePolylines (_polylines (coll w)) <-> member w p.
Proof.
  intros Hwf. rewrite elem_of_livePolylines. split.
  - intros [i Hi]. destruct (wf_slot w Hwf i p Hi) as (q & Hq & _ & Hc).
    by exists q.
  - intros (q & Hq & Hc). eexists. by apply (wf_member w Hwf).
Qed.

Lemma live_remove_member (p : nat) (q : Polyline) (w : World) :
  slots_wf w -> heap w !! p = Some q -> _collection q = Some (ident (coll w)) ->
  livePolylines (_polylines (coll (final (remove (VPolyline p) w)))) =
  filter (fun x => x <> p) (livePolylines (_polylines (coll w))).
Proof.
  intros Hwf Hq Hc. rewrite (remove_member p q) by done. cbn.
  pose proof (wf_member w Hwf p q Hq Hc) as Hslot.
  rewrite (array_set_in_range _ _ _ _ Hslot).
  apply live_tombstone; [by apply slots_wf_NoDup|done].
Qed.

Lemma live_compact (w : World) :
  slots_wf w ->
  _polylines (coll (final (_removePolylines w))) =
  map SPolyline (livePolylines (_polylines (coll w))).
Proof.
  intros Hwf. rewrite _removePolylines_eq. cbn [final].
  destruct (_polylinesRemoved (coll w)) eqn:E; [done|].
  by apply (wf_dense w Hwf).
Qed.

Lemma array_get_beyond (ps : list nat) (n : Z) :
  (Z.of_nat (length ps) <= n)%Z -> array_get (map SPolyline ps) n = VUndefined.
Proof.
  intros Hn. unfold array_get.
  destruct (Z.ltb_spec n 0); [done|].
  rewrite (lookup_ge_None_2 (map SPolyline ps) (Z.to_nat n)); [done|].
  rewrite length_map. lia.
Qed.

Lemma array_get_in_range (ps : list nat) (i : nat) (p : nat) :
  ps !! i = Some p -> array_get (map SPolyline ps) (Z.of_nat i) = VPolyline p.
Proof.
  intros Hi. unfold array_get.
  destruct (Z.ltb_spec (Z.of_nat i) 0); [lia|].
  rewrite Nat2Z.id. change (map SPolyline ps) with (SPolyline <$> ps).
  by rewrite list_lookup_fmap, Hi.
Qed.

Lemma get_eq (n : Z) (w : World) :
  get (INumber n) w =
  Returned (array_get (_polylines (coll (final (_removePolylines w)))) n)
           (final (_removePolylines w)).
Proof. unfold get, bind. by rewrite _removePolylines_eq. Qed.

Lemma getLength_eq (w : World) :
  getLength w =
  Returned (length (_polylines (coll (final (_removePolylines w)))))
           (final (_removePolylines w)).
Proof. unfold getLength, bind. by rewrite _removePolylines_eq. Qed.

(** C8.  [get] without an index throws the DeveloperError and leaves the
    world exactly as it found it: tombstones stay in their slots, the
    removal-pending flag stays set, no polyline is re-indexed.  With the
    first of two polylines removed, the failing call leaves the tombstone
    where a call with index 0 compacts the slots. *)
Theorem get_undefined_throws (w : World) :
  get IUndefined w = Thrown (DeveloperError "index is required.") w
  /\ final (get IUndefined w) = w
  /\ _polylines (coll (final (get IUndefined w))) = _polylines (coll w)
  /\ _polylinesRemoved (coll (final (get IUndefined w))) = _polylinesRemoved (coll w)
  /\ heap (final (get IUndefined w)) = heap w
  /\ _polylines (coll (final (get IUndefined oneRemoved))) = [SNull; SPolyline 1]
  /\ _polylines (coll (final (get (INumber 0) oneRemoved))) = [SPolyline 1].
Proof.
  repeat (split; [reflexivity|]). split; vm_compute; reflexivity.
Qed.

(** C5.  In a well-formed world, removing a member returns true, puts
    [null] in the slot that held it and in no other, sets the
    removal-pending and rebuild-pending flags and clears the back-reference
    of the polyline, so that removing it again returns false.  Removing
    [null], [undefined] or a polyline whose back-reference is not this
    collection returns false; and whenever [remove] returns false the
    world, and with it what [getLength] returns, is unchanged. *)
Theorem remove_spec (w : World) (p : nat) :
  slots_wf w ->
  (member w p ->
   exists q w',
     heap w !! p = Some q
     /\ remove (VPolyline p) w = Returned true w'
     /\ _polylines (coll w) !! _index q = Some (SPolyline p)
     /\ _polylines (coll w') = <[_index q := SNull]> (_polylines (coll w))
     /\ _polylinesRemoved (coll w') = true
     /\ _createVertexArray (coll w') = true
     /\ heap w' !! p = Some (Polyline._destroy q)
     /\ _collection (Polyline._destroy q) = None
     /\ ~ member w' p
     /\ remove (VPolyline p) w' = Returned false w')
  /\ remove VNull w = Returned false w
  /\ remove VUndefined w = Returned false w
  /\ (forall q, heap w !! p = Some q ->
                _collection q <> Some (ident (coll w)) ->
                remove (VPolyline p) w = Returned false w)
  /\ (forall arg w', remove arg w = Returned false w' ->
                     w' = w /\ getLength w' = getLength w).
Proof.
  intros Hwf. split; [|split; [done|split; [done|split]]].
  - intros (q & Hq & Hc). exists q. eexists.
    pose proof (wf_member w Hwf p q Hq Hc) as Hslot.
    split; [done|]. split; [by apply remove_member|].
    rewrite (array_set_in_range _ _ _ _ Hslot).
    cbn [coll heap set_createVertexArray set_polylinesRemoved set_polylines
         _polylines _polylinesRemoved _createVertexArray].
    assert (alter Polyline._destroy p (heap w) !! p = Some (Polyline._destroy q))
      as Hq' by (by rewrite list_lookup_alter_eq, Hq).
    repeat (split; [done|]). split.
    + intros (q' & Hq'' & Hc'). cbn in Hq''. rewrite Hq' in Hq''. simplify_eq.
    + apply (remove_foreign p (Polyline._destroy q)); [done|]. done.
  - intros q Hq Hc. by apply (remove_foreign p q).
  - intros arg w' H. enough (w' = w) by (by subst).
    destruct arg as [p'| |]; [|by inversion H..].
    destruct (heap w !! p') as [q|] eqn:Hq;
      [|by rewrite remove_dangling in H].
    destruct (decide (_collection q = Some (ident (coll w)))) as [Hc|Hc].
    + by rewrite (remove_member p' q) in H.
    + rewrite (remove_foreign p' q) in H by done. by inversion H.
Qed.

(** ** Reading the collection *)

Lemma compact_index (w : World) (i p : nat) :
  slots_wf w ->
  livePolylines (_polylines (coll w)) !! i = Some p ->
  exists q, heap (final (_removePolylines w)) !! p = Some q /\ _index q = i.
Proof.
  intros Hwf Hi.
  pose proof (slots_wf_compact w Hwf) as Hwf'.
  assert (_polylines (coll (final (_removePolylines w))) !! i = Some (SPolyline p))
    as Hs.
  { rewrite live_compact by done.
    change (map SPolyline ?l) with (SPolyline <$> l).
    by rewrite list_lookup_fmap, Hi. }
  destruct (wf_slot _ Hwf' i p Hs) as (q & Hq & Hix & _). eauto.
Qed.

(** C6.  Right after the compaction that [getLength] or [get] performs,
    the slots hold exactly the live polylines, in the relative order they
    had before and without repetition, and each of them records the
    position of its slot as its index, so the indices are 0 .. n-1.  In a
    collection of two live polylines, after removing either one [get(0)]
    returns the other. *)
Theorem compaction_dense (w : World) (n : Z) :
  slots_wf w ->
  let ps := livePolylines (_polylines (coll w)) in
  (forall w', w' = final (getLength w) \/ w' = final (get (INumber n) w) ->
     _polylines (coll w') = map SPolyline ps
     /\ NoDup ps
     /\ (forall i p, ps !! i = Some p ->
           i < length ps
           /\ exists q, heap w' !! p = Some q /\ _index q = i)
     /\ (forall p q, member w' p -> heap w' !! p = Some q ->
           _index q < length ps /\ ps !! _index q = Some p))
  /\ (forall a b, ps = [a; b] ->
        (exists w1 w2, remove (VPolyline a) w = Returned true w1
                       /\ get (INumber 0) w1 = Returned (VPolyline b) w2)
        /\ (exists w1 w2, remove (VPolyline b) w = Returned true w1
                          /\ get (INumber 0) w1 = Returned (VPolyline a) w2)).
Proof.
  intros Hwf ps. split.
  - intros w' Hw'.
    assert (w' = final (_removePolylines w)) as ->.
    { destruct Hw' as [->| ->]; [by rewrite getLength_eq|by rewrite get_eq]. }
    pose proof (slots_wf_compact w Hwf) as Hwf'.
    pose proof (live_compact w Hwf) as Hlive. fold ps in Hlive.
    split; [done|]. split; [by apply slots_wf_NoDup|]. split.
    + intros i p Hi. split; [by eapply lookup_lt_Some|].
      by apply compact_index.
    + intros p q (q' & Hq' & Hc) Hq. rewrite Hq in Hq'. injection Hq' as <-.
      pose proof (wf_member _ Hwf' p q Hq Hc) as Hs.
      rewrite Hlive in Hs. change (map SPolyline ps) with (SPolyline <$> ps) in Hs.
      rewrite list_lookup_fmap in Hs.
      destruct (ps !! _index q) as [p'|] eqn:E; cbn in Hs; simplify_eq.
      split; [by eapply lookup_lt_Some|done].
  - intros a b Hps.
    pose proof (slots_wf_NoDup w Hwf) as Hnd. fold ps in Hnd. rewrite Hps in Hnd.
    assert (a <> b) as Hab.
    { intros ->. apply NoDup_cons in Hnd as [Hnotin _]. apply Hnotin. by left. }
    assert (forall c d, ps = [c; d] \/ ps = [d; c] -> c <> d ->
              exists w1 w2, remove (VPolyline c) w = Returned true w1
                            /\ get (INumber 0) w1 = Returned (VPolyline d) w2)
      as Hone.
    { intros c d Hcd Hne.
      assert (c ∈ ps) as Hc by (destruct Hcd as [-> | ->]; repeat constructor).
      apply (member_lookup w c Hwf) in Hc as (q & Hq & Hc).
      eexists _, _. split; [by apply (remove_member c q)|].
      pose proof (live_remove_member c q w Hwf Hq Hc) as Hl.
      pose proof (slots_wf_remove (VPolyline c) w Hwf) as Hwf1.
      rewrite (remove_member c q) in Hl, Hwf1 by done. cbn [final] in Hl, Hwf1.
      rewrite get_eq, (live_compact _ Hwf1), Hl. f_equal.
      fold ps. apply (array_get_in_range _ 0).
      destruct Hcd as [-> | ->].
      - rewrite filter_cons_False by (intros ?; done).
        by rewrite filter_cons_True.
      - rewrite filter_cons_True by done.
        by rewrite filter_cons_False by (intros ?; done). }
    split; apply Hone; auto.
Qed.

(** C10.  In a well-formed world, [get] with a number that is at least the
    number of live polylines returns [undefined] and does not throw.  The
    world it leaves is the one [_removePolylines] leaves: the same world when
    no removal is pending, and in any case one with the same live polylines
    in the same order. *)
Theorem get_out_of_range (w : World) (n : Z) :
  slots_wf w ->
  (Z.of_nat (length (livePolylines (_polylines (coll w)))) <= n)%Z ->
  exists w',
    get (INumber n) w = Returned VUndefined w'
    /\ w' = final (_removePolylines w)
    /\ (_polylinesRemoved (coll w) = false -> w' = w)
    /\ livePolylines (_polylines (coll w')) = livePolylines (_polylines (coll w))
    /\ slots_wf w'.
Proof.
  intros Hwf Hn. eexists. split; [|split; [reflexivity|]].
  - rewrite get_eq, (live_compact w Hwf). by rewrite array_get_beyond.
  - split; [|split].
    + intros E. rewrite _removePolylines_eq. cbn. by rewrite E.
    + rewrite (live_compact w Hwf). apply livePolylines_map.
    + by apply slots_wf_compact.
Qed.

(** ** Programs of additions and removals *)

Lemma compact_heap_length (w : World) :
  length (heap (final (_removePolylines w))) = length (heap w).
Proof.
  rewrite _removePolylines_eq. cbn [final].
  destruct (_polylinesRemoved (coll w)); [|done]. cbn. apply reindex_length.
Qed.

Lemma compact_live (w : World) :
  slots_wf w ->
  livePolylines (_polylines (coll (final (_removePolylines w)))) =
  livePolylines (_polylines (coll w)).
Proof. intros Hwf. rewrite (live_compact w Hwf). apply livePolylines_map. Qed.

Lemma step_live (o : Op) (w : World) :
  adds_and_removes o = true -> slots_wf w ->
  slots_wf (snd (step o w))
  /\ length (heap w) <= length (heap (snd (step o w)))
  /\ match fst (step o w) with
     | EAdded p =>
         p = length (heap w)
         /\ livePolylines (_polylines (coll (snd (step o w)))) =
            livePolylines (_polylines (coll w)) ++ [p]
     | ERemoved (VPolyline p) true =>
         p < length (heap w)
         /\ livePolylines (_polylines (coll (snd (step o w)))) =
            filter (fun x => x <> p) (livePolylines (_polylines (coll w)))
     | _ =>
         livePolylines (_polylines (coll (snd (step o w)))) =
         livePolylines (_polylines (coll w))
     end.
Proof.
  intros Ho Hwf. destruct o; try discriminate Ho; unfold step, perform, bind.
  - (* add *)
    pose proof (slots_wf_add t w Hwf) as Hwf'.
    pose proof (live_add t w) as Hl.
    rewrite add_eq in *. cbn [final fst snd ret] in *.
    split; [done|]. split; [|done]. cbn. rewrite length_app. lia.
  - (* remove *)
    pose proof (slots_wf_remove p w Hwf) as Hwf'.
    destruct p as [p| |]; [|by cbn..].
    destruct (heap w !! p) as [q|] eqn:Hq; [|by rewrite remove_dangling].
    destruct (decide (_collection q = Some (ident (coll w)))) as [Hc|Hc];
      [|by rewrite (remove_foreign p q)].
    pose proof (live_remove_member p q w Hwf Hq Hc) as Hl.
    rewrite (remove_member p q) in * by done. cbn [final fst snd ret] in *.
    split; [done|]. split; [cbn; by rewrite length_alter|].
    split; [by eapply lookup_lt_Some|done].
  - (* contains *)
    destruct p as [p| |]; [|by cbn..].
    destruct (heap w !! p) as [q|] eqn:Hq.
    + by rewrite (contains_eq p q).
    + unfold contains, bind, deref. by rewrite Hq.
  - (* get *)
    destruct i as [|n]; [by cbn|].
    rewrite get_eq. cbn [fst snd ret].
    split; [by apply slots_wf_compact|].
    split; [by rewrite compact_heap_length|by apply compact_live].
  - (* getLength *)
    rewrite getLength_eq. cbn [fst snd ret].
    split; [by apply slots_wf_compact|].
    split; [by rewrite compact_heap_length|by apply compact_live].
Qed.

Lemma removed_cons (e : Event) (es : list Event) :
  removed (e :: es) =
  match e with
  | ERemoved (VPolyline p) true => p :: removed es
  | _ => removed es
  end.
Proof. by destruct e as [|[?| |] []| | | | | | |]. Qed.

Lemma added_cons (e : Event) (es : list Event) :
  added (e :: es) =
  match e with EAdded p => p :: added es | _ => added es end.
Proof. by destruct e. Qed.

Lemma filter_notin_nil (l : list nat) :
  filter (fun p => p ∉ @nil nat) l = l.
Proof.
  induction l as [|x l IH]; [done|].
  rewrite filter_cons_True by apply not_elem_of_nil. by f_equal.
Qed.

Lemma run_live (ops : list Op) (w : World) :
  forallb adds_and_removes ops = true -> slots_wf w ->
  slots_wf (snd (run ops w))
  /\ (forall p, p ∈ added (fst (run ops w)) -> length (heap w) <= p)
  /\ livePolylines (_polylines (coll (snd (run ops w)))) =
     filter (fun p => p ∉ removed (fst (run ops w)))
            (livePolylines (_polylines (coll w)) ++ added (fst (run ops w))).
Proof.
  revert w. induction ops as [|o ops IH]; intros w Hops Hwf.
  - cbn [run fst snd added removed]. split; [done|]. split; [by intros ? ?%elem_of_nil|].
    rewrite app_nil_r. symmetry. apply filter_notin_nil.
  - cbn [forallb] in Hops. apply andb_true_iff in Hops as [Ho Hops].
    destruct (step_live o w Ho Hwf) as (Hwf1 & Hlen & He).
    cbn [run]. destruct (step o w) as [e w1]. cbn [fst snd] in *.
    destruct (IH w1 Hops Hwf1) as (Hwf' & Hfresh & Hl).
    destruct (run ops w1) as [es w']. cbn [fst snd] in *.
    split; [done|]. rewrite removed_cons, added_cons.
    assert (forall p, p ∈ added es -> length (heap w) <= p) as Hfresh'.
    { intros p Hp. etrans; [apply Hlen|by apply Hfresh]. }
    destruct e as [p|arg found| | | | | | |];
      [|destruct arg as [p| |]; [destruct found|..]|..];
      try (rewrite Hl, He; by split).
    + (* an addition *)
      destruct He as [-> He]. rewrite Hl, He. split.
      * intros p [->|Hin]%elem_of_cons; [done|]. by apply Hfresh'.
      * by rewrite <- app_assoc.
    + (* a successful removal *)
      destruct He as [Hp He]. rewrite Hl, He. split; [done|].
      rewrite (list_filter_iff (fun x => x ∉ (p :: removed es))
                 (fun x => (x ∉ removed es) /\ x <> p)).
      2:{ intros x. rewrite not_elem_of_cons. tauto. }
      rewrite <- list_filter_filter. f_equal.
      rewrite (filter_app _ (livePolylines _) (added es)). f_equal.
      symmetry. apply filter_ne_notin. intros Hin%Hfresh. lia.
Qed.

(** C7.  Whatever program of [add], [remove] and reads ([get], [getLength],
    [contains]) a client runs on a new collection, a final [getLength]
    returns the number of polylines the program added and did not
    successfully remove. *)
Theorem getLength_counts (id : nat) (ops : list Op) :
  forallb adds_and_removes ops = true ->
  exists w',
    getLength (snd (run ops (init id))) =
    Returned (length (filter (fun p => p ∉ removed (fst (run ops (init id))))
                             (added (fst (run ops (init id)))))) w'.
Proof.
  intros Hops.
  destruct (run_live ops (init id) Hops (slots_wf_init id)) as (Hwf & _ & Hl).
  eexists. rewrite getLength_eq. f_equal.
  rewrite (live_compact _ Hwf), length_map, Hl. done.
Qed.

(** ** The invariant of the collection *)

Lemma static_wf (w w' : World) :
  static_view w' = static_view w ->
  (usage_wf w -> usage_wf w') /\ (rs_wf w -> rs_wf w') /\ (vaf_wf w -> vaf_wf w').
Proof.
  unfold static_view, usage_view, passes_view, usage_wf, rs_wf, vaf_wf.
  intros [= -> -> -> -> -> -> ->]. done.
Qed.

Lemma usage_wf_view (w w' : World) :
  usage_view w' = usage_view w -> usage_wf w -> usage_wf w'.
Proof. unfold usage_view, usage_wf. by intros [= -> ->]. Qed.

Lemma rs_wf_view (w w' : World) :
  passes_view w' = passes_view w -> rs_wf w -> rs_wf w'.
Proof. unfold passes_view, rs_wf. by intros [= -> -> -> ->]. Qed.

Lemma world_wf_init (id : nat) : world_wf (init id).
Proof.
  split; [apply slots_wf_init|]. split; [|split]; [|done..].
  split; [done|]. split; [done|]. cbn. repeat constructor; done.
Qed.

(** *** removeAll *)

Lemma _destroyPolylines_loop_eq (l : list slot) (w : World) :
  _destroyPolylines_loop l w =
  Returned tt {| heap := detach (livePolylines l) (heap w); coll := coll w |}.
Proof.
  revert w. induction l as [|s l IH]; intros w; [by destruct w|].
  destruct s; cbn [_destroyPolylines_loop]; [|apply IH..].
  unfold bind, mutate. by rewrite IH.
Qed.

Lemma detach_notin (ps : list nat) (h : list Polyline) (p : nat) :
  p ∉ ps -> detach ps h !! p = h !! p.
Proof.
  revert h. induction ps as [|p' ps IH]; intros h Hp; [done|].
  apply not_elem_of_cons in Hp as [Hne Hp]. cbn.
  rewrite IH by done. by rewrite list_lookup_alter_ne.
Qed.

Lemma detach_collection (ps : list nat) (h : list Polyline) (p : nat) (q : Polyline) :
  detach ps h !! p = Some q ->
  exists q0, h !! p = Some q0 /\ (p ∈ ps -> _collection q = None)
             /\ (_collection q = None \/ q = q0).
Proof.
  revert h q. induction ps as [|p' ps IH]; intros h q Hq.
  - exists q. split; [done|]. split; [by intros ?%elem_of_nil|by right].
  - cbn in Hq. destruct (IH _ _ Hq) as (q1 & Hq1 & Hin & Hsame).
    destruct (decide (p' = p)) as [->|Hne].
    + rewrite list_lookup_alter_eq in Hq1.
      destruct (h !! p) as [q0|]; [|done]. cbn in Hq1. simplify_eq.
      exists q0. split; [done|].
      assert (_collection q = None) by (by destruct Hsame as [?| ->]).
      split; [done|by left].
    + rewrite list_lookup_alter_ne in Hq1 by done.
      exists q1. split; [done|]. split; [|done].
      intros [?|?]%elem_of_cons; [done|auto].
Qed.

Lemma removeAll_eq (w : World) :
  removeAll w =
  Returned tt
    {| heap := detach (livePolylines (_polylines (coll w))) (heap w);
       coll := set_createVertexArray true
                 (set_polylinesRemoved false
                    (set_polylinesToUpdate [] (set_polylines [] (coll w)))) |}.
Proof.
  unfold removeAll, _destroyPolylines, bind, this.
  by rewrite _destroyPolylines_loop_eq.
Qed.

Lemma slots_wf_removeAll (w : World) :
  slots_wf w -> slots_wf (final (removeAll w)).
Proof.
  intros Hwf. rewrite removeAll_eq. cbn [final].
  split; cbn [heap coll set_createVertexArray set_polylinesRemoved
              set_polylinesToUpdate set_polylines _polylines ident]; [done| |done].
  intros p q Hq Hc. exfalso.
  destruct (detach_collection _ _ _ _ Hq) as (q0 & Hq0 & Hin & Hsame).
  destruct Hsame as [E| ->]; [congruence|].
  rewrite Hin in Hc; [done|].
  apply elem_of_livePolylines. eexists. by apply (wf_member w Hwf).
Qed.

(** *** update *)

Lemma rs_wf_prepared (context : Context) (w : World) :
  rs_wf w -> rs_wf (update_prepared context w).
Proof.
  unfold rs_wf, update_prepared, pass_state. destruct w as [h c].
  destruct c as [id ps ptu prem cva mt pc mm mm' bu bu' bus mode wd owd s2d
                 sp r1o r2o r3o d1 d2 d3 vaf].
  cbn. destruct sp as [sp|].
  - intros (r1 & r2 & r3 & -> & -> & -> & H1 & H2 & H3). cbn.
    eexists _, _, _. repeat (split; [reflexivity|]). done.
  - intros _. eexists _, _, _. repeat (split; [reflexivity|]). done.
Qed.

Lemma snapshot_views (context : Context) (w : World) :
  update_view (update_snapshot (update_prepared context w))
  = (slots_view w, usage_view w, passes_view (update_prepared context w)).
Proof. destruct w as [h []]. vm_compute. reflexivity. Qed.

Lemma update_views (context : Context) (w : World) :
  rs_wf w ->
  slots_view (final (update context w)) = slots_view w
  /\ usage_view (final (update context w)) = usage_view w
  /\ passes_view (final (update context w)) = passes_view (update_prepared context w).
Proof.
  intros Hrs. rewrite update_eq by done.
  pose proof (snapshot_views context w) as Hsnap.
  destruct (update_condition _ _ _).
  - pose proof (keeps__update (update_snapshot (update_prepared context w))) as Hk.
    rewrite Hsnap in Hk. by apply triple_inv in Hk.
  - cbn [final]. apply triple_inv in Hsnap as (H1 & H2 & _).
    repeat split; destruct w as [h []]; reflexivity.
Qed.

Lemma vaf_wf_uncommitted (w : World) :
  commit_view w = Some None -> vaf_wf w.
Proof.
  unfold commit_view, vaf_wf. intros H v ib Hv Hc. rewrite Hv in H. cbn in H.
  congruence.
Qed.

Lemma vaf_wf__update (w : World) : vaf_wf w -> vaf_wf (final (_update w)).
Proof.
  intros Hwf. unfold _update, bind, this.
  pose proof (keeps_update_size id (_polylines (coll w)) 0 w) as Hsize.
  destruct (_update_size _ _ w) as [n w0|e w0]; cbn in Hsize; subst w0; [|done].
  cbn [assign heap coll].
  set (w1 := {| heap := heap w; coll := set_vaf (Some _) (set_vaf None (coll w)) |}).
  pose proof (keeps_update_write (_polylines (coll w)) w1) as Hk.
  assert (commit_view (final (_update_write (_polylines (coll w)) w1)) = Some None)
    as Hc.
  { apply pair_inv in Hk as [_ ->]. destruct w as [h []]. reflexivity. }
  destruct (_update_write _ w1) as [[] w2|e w2]; cbn [final] in *;
    [|by apply vaf_wf_uncommitted].
  destruct (_vaf (coll w2)) as [v|] eqn:Hv; cbn [final];
    [|by apply vaf_wf_uncommitted].
  intros v' ib. destruct w2 as [h2 []]. cbn. intros [= <-]. cbn. congruence.
Qed.

Lemma vaf_wf_update (context : Context) (w : World) :
  rs_wf w -> vaf_wf w -> vaf_wf (final (update context w)).
Proof.
  intros Hrs Hwf. rewrite update_eq by done.
  destruct (update_condition _ _ _).
  - apply vaf_wf__update. destruct w as [h []]. exact Hwf.
  - cbn [final]. destruct w as [h []]. exact Hwf.
Qed.

(** *** Dirty notifications *)

Lemma uint32_incr_wf (k : nat) (a : list Z) :
  Forall (fun n => (0 <= n < UINT32_MODULUS)%Z) a ->
  length (uint32_incr k a) = length a
  /\ Forall (fun n => (0 <= n < UINT32_MODULUS)%Z) (uint32_incr k a).
Proof.
  intros Ha. unfold uint32_incr. split; [apply length_alter|].
  revert k. induction Ha as [|n a Hn Ha IH]; intros k; [constructor|].
  destruct k as [|k]; cbn; constructor; auto.
  apply Z.mod_pos_bound. done.
Qed.

Lemma makeDirty_counters_member (p k : nat) (w : World) :
  member w p ->
  _propertiesChanged (coll (final (Polyline_makeDirty p k w))) =
  uint32_incr k (_propertiesChanged (coll w)).
Proof.
  intros (q & Hq & Hc).
  unfold Polyline_makeDirty, bind, deref, this. rewrite Hq.
  rewrite bool_decide_eq_true_2 by done.
  unfold _updatePolyline, bind, deref, this. rewrite Hq.
  destruct w as [h []]. by destruct (Polyline._isDirty q).
Qed.

Lemma makeDirty_counters (p k : nat) (w : World) :
  _propertiesChanged (coll (final (Polyline_makeDirty p k w))) =
    uint32_incr k (_propertiesChanged (coll w))
  \/ _propertiesChanged (coll (final (Polyline_makeDirty p k w))) =
     _propertiesChanged (coll w).
Proof.
  destruct (heap w !! p) as [q|] eqn:Hq.
  - destruct (decide (_collection q = Some (ident (coll w)))) as [Hc|Hc].
    + left. apply makeDirty_counters_member. by exists q.
    + right. unfold Polyline_makeDirty, bind, deref, this. rewrite Hq.
      by rewrite bool_decide_eq_false_2.
  - right. unfold Polyline_makeDirty, bind, deref. by rewrite Hq.
Qed.

Lemma usage_wf_makeDirty (p k : nat) (w : World) :
  usage_wf w -> usage_wf (final (Polyline_makeDirty p k w)).
Proof.
  intros (Hp & Hb & Hr).
  pose proof (keeps_makeDirty_notify p k w) as Hk.
  apply quad_inv in Hk as (_ & Hbu & _ & _).
  destruct (uint32_incr_wf k _ Hr) as [Hl Hr'].
  unfold usage_wf. rewrite Hbu.
  destruct (makeDirty_counters p k w) as [-> | ->]; rewrite ?Hl; done.
Qed.

(** *** Every call keeps the invariant *)

Lemma final_bind_ret {A B} (m : M A) (f : A -> B) (w : World) :
  final (bind m (fun a => ret (f a)) w) = final (m w).
Proof. unfold bind. by destruct (m w). Qed.

Lemma step_final (o : Op) (w : World) : snd (step o w) = final (perform o w).
Proof. unfold step. by destruct (perform o w). Qed.

Lemma world_wf_static {A} (m : M A) (w : World) :
  keeps static_view m -> slots_wf (final (m w)) -> world_wf w ->
  world_wf (final (m w)).
Proof.
  intros Hk Hs (_ & Hu & Hr & Hv).
  destruct (static_wf w (final (m w)) (Hk w)) as (? & ? & ?).
  split; [done|]. split; [auto|]. split; auto.
Qed.

Lemma contains_final (p : value) (w : World) : final (contains p w) = w.
Proof. apply (keeps_contains id). Qed.

Lemma render_final (w : World) : final (render w) = w.
Proof. apply (keeps_render id). Qed.

Lemma step_wf (o : Op) (w : World) : world_wf w -> world_wf (snd (step o w)).
Proof.
  intros Hwf. rewrite step_final. pose proof Hwf as (Hs & Hu & Hr & Hv).
  destruct o; cbn [perform]; rewrite final_bind_ret.
  - apply world_wf_static; [apply keeps_add_static|by apply slots_wf_add|done].
  - apply world_wf_static; [apply keeps_remove_static|by apply slots_wf_remove|done].
  - apply world_wf_static;
      [apply keeps_removeAll_static|by apply slots_wf_removeAll|done].
  - by rewrite contains_final.
  - apply world_wf_static; [apply keeps_get_static| |done].
    destruct i; [done|]. rewrite get_eq. by apply slots_wf_compact.
  - apply world_wf_static; [apply keeps_getLength_static| |done].
    rewrite getLength_eq. by apply slots_wf_compact.
  - pose proof (keeps_makeDirty_notify p k w) as Hk.
    apply quad_inv in Hk as (Hsv & Hbu & Hpv & Hvaf).
    split; [by apply (slots_wf_view w)|].
    split; [by apply usage_wf_makeDirty|].
    split; [by apply (rs_wf_view w)|].
    unfold vaf_wf. by rewrite Hvaf.
  - destruct (computeNewBuffersUsage_run w Hu)
      as (ch & w' & E & _ & _ & Hu' & _).
    destruct (keeps_computeNewBuffersUsage w) as (Hsv & Hpv & Hvaf).
    rewrite E in *. cbn [final] in *.
    split; [by apply (slots_wf_view w)|]. split; [done|].
    split; [by apply (rs_wf_view w)|]. unfold vaf_wf. by rewrite Hvaf.
  - destruct (update_views context w Hr) as (Hsv & Huv & Hpv).
    split; [by apply (slots_wf_view w)|].
    split; [by apply (usage_wf_view w)|].
    split; [|by apply vaf_wf_update].
    apply (rs_wf_view (update_prepared context w)); [done|].
    by apply rs_wf_prepared.
  - by rewrite render_final.
  - apply world_wf_static; [apply keeps_assignField_static| |done].
    apply (slots_wf_view w); [apply keeps_assignField_slots|done].
Qed.

Lemma run_wf (ops : list Op) (w : World) :
  world_wf w -> world_wf (snd (run ops w)).
Proof.
  revert w. induction ops as [|o ops IH]; intros w Hwf; [done|].
  cbn [run]. pose proof (step_wf o w Hwf) as H1.
  destruct (step o w) as [e w1]. specialize (IH w1 H1).
  by destruct (run ops w1).
Qed.

Lemma run_cons_snd (o : Op) (ops : list Op) (w : World) :
  snd (run (o :: ops) w) = snd (run ops (snd (step o w))).
Proof.
  cbn [run]. destruct (step o w) as [e w1]. cbn [snd].
  by destruct (run ops w1).
Qed.

(** ** The rebuild on a compacted collection *)

Lemma set_vaf_set_vaf (a b : option VertexArrayFacade) (c : Collection) :
  set_vaf a (set_vaf b c) = set_vaf a c.
Proof. by destruct c. Qed.

Lemma _vaf_set_vaf (a : option VertexArrayFacade) (c : Collection) :
  _vaf (set_vaf a c) = a.
Proof. by destruct c. Qed.

Lemma logged_nil (v : VertexArrayFacade) : logged [] v = v.
Proof. destruct v. unfold logged. cbn. by rewrite app_nil_r. Qed.

Lemma logged_write (a i : nat) (vs : list double) (ws : list WriteCall)
    (v : VertexArrayFacade) :
  logged ws (VertexArrayFacade.write a i vs v) =
  logged ({| w_attribute := a; w_vertex := i; w_components := vs |} :: ws) v.
Proof. unfold logged, VertexArrayFacade.write. cbn. by rewrite <- app_assoc. Qed.

Lemma logged_logged (ws ws' : list WriteCall) (v : VertexArrayFacade) :
  logged ws' (logged ws v) = logged (ws ++ ws') v.
Proof. unfold logged. cbn. by rewrite <- app_assoc. Qed.

Lemma vafWrite_eq (a i : nat) (vs : list double) (h : list Polyline) (c : Collection)
    (v : VertexArrayFacade) :
  vafWrite a i vs {| heap := h; coll := set_vaf (Some v) c |} =
  Returned tt {| heap := h;
                 coll := set_vaf (Some (VertexArrayFacade.write a i vs v)) c |}.
Proof. destruct c. reflexivity. Qed.

Lemma _writePosition_loop_eq (i j : nat) (ps : list Cartesian3)
    (h : list Polyline) (c : Collection) (v : VertexArrayFacade) :
  _writePosition_loop i j ps {| heap := h; coll := set_vaf (Some v) c |} =
  Returned tt
    {| heap := h;
       coll := set_vaf (Some (logged
                 (imap (fun n position =>
                          {| w_attribute := position3D; w_vertex := i + (j + n);
                             w_components :=
                               [Finite (x position); Finite (y position);
                                Finite (z position)] |})
                       ps) v)) c |}.
Proof.
  revert j v. induction ps as [|p ps IH]; intros j v.
  - cbn. by rewrite logged_nil.
  - cbn [_writePosition_loop]. unfold bind. rewrite vafWrite_eq, IH.
    rewrite logged_write. cbn [imap]. rewrite Nat.add_0_r.
    do 6 f_equal. apply imap_ext. intros n x _. cbn. do 2 f_equal. lia.
Qed.

(** The product of a colour channel and 255 is rounded as a double: on
    the double nearest to 0.1 it is 25.5, where the exact product is
    larger. *)
Lemma mul_rounds :
  Double.mul (3602879701896397 # 36028797018963968) 255 = Finite (51 # 2)
  /\ ~ ((3602879701896397 # 36028797018963968) * 255 == 51 # 2)%Q
  /\ Double.mul 1 255 = Finite 255.
Proof. split; [|split]; [vm_compute; reflexivity|by vm_compute|vm_compute; reflexivity]. Qed.

Lemma _writeColor_loop_eq (i j : nat) (ps : list Cartesian3) (k : Color)
    (h : list Polyline) (c : Collection) (v : VertexArrayFacade) :
  _writeColor_loop i j ps k {| heap := h; coll := set_vaf (Some v) c |} =
  Returned tt
    {| heap := h;
       coll := set_vaf (Some (logged
                 (imap (fun n _ =>
                          {| w_attribute := color; w_vertex := i + (j + n);
                             w_components :=
                               [Double.mul (red k) 255; Double.mul (green k) 255;
                                Double.mul (blue k) 255; Double.mul (alpha k) 255] |})
                       ps) v)) c |}.
Proof.
  revert j v. induction ps as [|p ps IH]; intros j v.
  - cbn. by rewrite logged_nil.
  - cbn [_writeColor_loop]. unfold bind. rewrite vafWrite_eq, IH.
    rewrite logged_write. cbn [imap]. rewrite Nat.add_0_r.
    do 6 f_equal. apply imap_ext. intros n x _. cbn. do 2 f_equal. lia.
Qed.

Lemma _writePolyline_eq (p : nat) (q : Polyline) (h : list Polyline)
    (c : Collection) (v : VertexArrayFacade) :
  h !! p = Some q ->
  _writePolyline p {| heap := h; coll := set_vaf (Some v) c |} =
  Returned tt {| heap := h; coll := set_vaf (Some (logged (polylineWrites q) v)) c |}.
Proof.
  intros Hq. unfold _writePolyline, _writePosition, _writeColor, bind, deref.
  cbn [heap]. rewrite Hq, _writePosition_loop_eq. cbn [heap]. rewrite Hq.
  rewrite _writeColor_loop_eq, logged_logged. reflexivity.
Qed.

Lemma writesOf_clean (p p' : nat) (h : list Polyline) :
  writesOf (alter Polyline._clean p h) p' = writesOf h p'.
Proof.
  unfold writesOf. destruct (decide (p = p')) as [->|Hne].
  - rewrite list_lookup_alter_eq. by destruct (h !! p').
  - by rewrite list_lookup_alter_ne.
Qed.

Lemma _update_size_eq (ps : list nat) (n : nat) (w : World) :
  Forall (fun p => is_Some (heap w !! p)) ps ->
  _update_size (map SPolyline ps) n w =
  Returned (n + sum_list (map (positionCount (heap w)) ps)) w.
Proof.
  intros Hps. revert n. induction Hps as [|p ps [q Hq] _ IH]; intros n.
  - cbn. by rewrite Nat.add_0_r.
  - cbn [map _update_size]. unfold bind, deref. rewrite Hq, IH.
    cbn [sum_list map]. unfold positionCount at 2. rewrite Hq. cbn.
    f_equal. lia.
Qed.

Lemma flat_map_writesOf_clean (p : nat) (ps : list nat) (h : list Polyline) :
  flat_map (writesOf (alter Polyline._clean p h)) ps = flat_map (writesOf h) ps.
Proof.
  induction ps as [|p' ps IH]; [done|]. cbn. by rewrite IH, writesOf_clean.
Qed.

Lemma _update_write_eq (ps : list nat) (h : list Polyline) (c : Collection)
    (v : VertexArrayFacade) :
  Forall (fun p => is_Some (h !! p)) ps ->
  _update_write (map SPolyline ps) {| heap := h; coll := set_vaf (Some v) c |} =
  Returned tt
    {| heap := cleanAll ps h;
       coll := set_vaf (Some (logged (flat_map (writesOf h) ps) v)) c |}.
Proof.
  revert h v. induction ps as [|p ps IH]; intros h v Hps.
  - cbn. by rewrite logged_nil.
  - apply Forall_cons in Hps as [[q Hq] Hps].
    cbn [map _update_write]. unfold bind, deref, mutate. cbn [heap coll].
    rewrite Hq. cbn [heap coll].
    rewrite (_writePolyline_eq p (Polyline._clean q))
      by (by rewrite list_lookup_alter_eq, Hq).
    rewrite IH.
    + rewrite logged_logged, flat_map_writesOf_clean. cbn [cleanAll flat_map].
      unfold writesOf at 2. rewrite Hq. reflexivity.
    + eapply Forall_impl; [exact Hps|]. intros p' [q' Hq']. cbn.
      destruct (decide (p = p')) as [->|Hne].
      * rewrite list_lookup_alter_eq, Hq'. by eexists.
      * rewrite list_lookup_alter_ne by done. by eexists.
Qed.

(** On a collection whose slots hold polylines only the rebuild returns.
    The new store is sized to the sum of the position counts of the
    polylines in the slots, declares the three attributes with the usage of
    their property, holds for every polyline in slot order the position
    writes and then the fill colour writes, each at offset [_index + j],
    and is committed without index buffer; every polyline in a slot has
    been cleaned. *)
Lemma _update_compact (w : World) :
  slots_wf w -> compact w ->
  _update w =
  Returned tt
    {| heap := cleanAll (livePolylines (_polylines (coll w))) (heap w);
       coll := set_vaf (Some (rebuiltStore w)) (coll w) |}.
Proof.
  intros Hwf Hd. unfold compact in Hd. unfold rebuiltStore.
  set (ps := livePolylines (_polylines (coll w))) in *.
  assert (Forall (fun p => is_Some (heap w !! p)) ps) as Hps.
  { apply Forall_forall. intros p [i Hi]%elem_of_livePolylines.
    destruct (wf_slot w Hwf i p Hi) as (q & Hq & _). by eexists. }
  unfold _update. unfold bind at 1 2, this. rewrite Hd.
  rewrite _update_size_eq by done. cbn [Nat.add].
  unfold bind at 1 2 3, assign. cbn [heap coll].
  rewrite set_vaf_set_vaf, _update_write_eq by done.
  unfold bind, this. cbn [coll heap].
  destruct w as [h c]. destruct c. reflexivity.
Qed.

Lemma _update_compacted (w : World) :
  slots_wf w -> _polylinesRemoved (coll w) = false ->
  let ps := livePolylines (_polylines (coll w)) in
  _update w =
  Returned tt
    {| heap := cleanAll ps (heap w);
       coll := set_vaf
                 (Some (VertexArrayFacade.commit None
                          (logged (flat_map (writesOf (heap w)) ps)
                             (VertexArrayFacade.new (vertexAttributes (coll w))
                                (sum_list (map (positionCount (heap w)) ps))))))
                 (coll w) |}.
Proof.
  intros Hwf Hf ps. apply _update_compact; [done|]. by apply (wf_dense w Hwf).
Qed.

(** On a collection with a slot that holds no polyline the rebuild throws
    before it touches anything: the first loop calls [getPositions] on
    [null]. *)
Lemma live_cons_polyline (p : nat) (l : list slot) :
  livePolylines (SPolyline p :: l) = p :: livePolylines l.
Proof. reflexivity. Qed.

Lemma not_compact_slot (l : list slot) :
  l <> map SPolyline (livePolylines l) ->
  exists s, s ∈ l /\ slot_pid s = None.
Proof.
  induction l as [|s l IH]; intros Hne; [done|].
  destruct s as [p| |].
  - destruct IH as (s & Hs & Hn).
    + intros E. apply Hne. rewrite live_cons_polyline. cbn [map]. by f_equal.
    + exists s. split; [by right|done].
  - exists SNull. split; [by left|done].
  - exists SHole. split; [by left|done].
Qed.

Lemma _update_size_tombstone (l : list slot) (n : nat) (w : World) :
  (forall p, SPolyline p ∈ l -> is_Some (heap w !! p)) ->
  (exists s, s ∈ l /\ slot_pid s = None) ->
  _update_size l n w = Thrown TypeError w.
Proof.
  revert n. induction l as [|s l IH]; intros n Hall (s0 & Hin & Hs0).
  - by apply elem_of_nil in Hin.
  - destruct s as [p| |]; cbn [_update_size]; [|done..].
    destruct (Hall p) as [q Hq]; [by left|].
    unfold bind, deref. rewrite Hq. apply IH.
    + intros p' Hp'. apply Hall. by right.
    + exists s0. split; [|done].
      apply elem_of_cons in Hin as [->|Hin]; [done|exact Hin].
Qed.

Lemma _update_tombstone (w : World) :
  slots_wf w -> ~ compact w -> _update w = Thrown TypeError w.
Proof.
  intros Hwf Hn. unfold _update, bind, this.
  rewrite _update_size_tombstone; [done| |by apply not_compact_slot].
  intros p [i Hi]%list_elem_of_lookup.
  destruct (wf_slot w Hwf i p Hi) as (q & Hq & _). by eexists.
Qed.

(** ** [update] and [render] *)

Lemma update_condition_iff (c : Collection) :
  update_condition update_mode (modelMatrix c) c = true <->
  (_createVertexArray c = true
   \/ _bufferUsage c <> Some (bufferUsage c)
   \/ _mode c <> update_mode
   \/ (update_mode <> SCENE3D
       /\ Matrix4_equals (_modelMatrix c) (modelMatrix c) = false)).
Proof.
  unfold update_condition.
  rewrite !orb_true_iff, andb_true_iff, !bool_decide_eq_true, negb_true_iff.
  tauto.
Qed.

Lemma prepared_fields (context : Context) (w : World) :
  let w1 := update_prepared context w in
  heap w1 = heap w
  /\ _polylines (coll w1) = _polylines (coll w)
  /\ _vaf (coll w1) = _vaf (coll w)
  /\ _createVertexArray (coll w1) = _createVertexArray (coll w)
  /\ _bufferUsage (coll w1) = _bufferUsage (coll w)
  /\ _mode (coll w1) = _mode (coll w)
  /\ _modelMatrix (coll w1) = _modelMatrix (coll w)
  /\ bufferUsage (coll w1) = bufferUsage (coll w)
  /\ modelMatrix (coll w1) = modelMatrix (coll w).
Proof. destruct w as [h []]. vm_compute. repeat split. Qed.

Lemma snapshot_fields (w : World) :
  let w2 := update_snapshot w in
  heap w2 = heap w
  /\ _polylines (coll w2) = _polylines (coll w)
  /\ _vaf (coll w2) = _vaf (coll w)
  /\ passes_view w2 = passes_view w
  /\ _createVertexArray (coll w2) = false
  /\ _bufferUsage (coll w2) = Some (bufferUsage (coll w))
  /\ _mode (coll w2) = update_mode
  /\ _modelMatrix (coll w2) = modelMatrix (coll w).
Proof. destruct w as [h []]. vm_compute. repeat split. Qed.

Lemma prepared_passes (context : Context) (w : World) :
  rs_wf w ->
  exists r1 r2 r3,
    passes_view (update_prepared context w)
    = (Some PolylineProgram, Some r1, Some r2, Some r3)
    /\ same_pass r1 rsOne_initial /\ same_pass r2 rsTwo_initial
    /\ same_pass r3 rsThree_initial
    /\ lineWidth r1 = _clampWidth context (outlineWidth (coll w))
    /\ lineWidth r2 = _clampWidth context (width (coll w))
    /\ lineWidth r3 = _clampWidth context (outlineWidth (coll w))
    /\ depthMask r1 = false /\ depthTest_enabled r1 = true
    /\ depthTest_enabled r2 = true /\ depthTest_enabled r3 = true.
Proof.
  unfold rs_wf, update_prepared, pass_state, passes_view. destruct w as [h c].
  destruct c as [id ps ptu prem cva mt pc mm mm' bu bu' bus mode wd owd s2d
                 sp r1o r2o r3o d1 d2 d3 vaf].
  cbn. destruct sp as [[]|].
  - intros (r1 & r2 & r3 & -> & -> & -> & H1 & H2 & H3). cbn.
    eexists _, _, _. split; [reflexivity|]. done.
  - intros _. eexists _, _, _. split; [reflexivity|]. done.
Qed.

Lemma segments_indexBuffer (fuel first remaining : nat) (ib : option IndexBuffer)
    (seg : VertexArray) :
  seg ∈ VertexArrayFacade.segments fuel first remaining ib ->
  va_indexBuffer seg = ib.
Proof.
  revert first remaining.
  induction fuel as [|fuel IH]; intros first remaining;
    cbn [VertexArrayFacade.segments].
  - by intros ?%elem_of_nil.
  - destruct (remaining =? 0); [by intros ?%elem_of_nil|].
    intros [->|Hin]%elem_of_cons; [reflexivity|]. by eapply IH.
Qed.

Lemma flat_map_length_3 {A B} (f g h : A -> B) (l : list A) :
  length (flat_map (fun a => [f a; g a; h a]) l) = 3 * length l.
Proof. induction l as [|a l IH]; cbn; [done|]. rewrite IH. lia. Qed.

(** ** What [update] leaves alone *)

Lemma map_clean_alter (p : nat) (h : list Polyline) :
  map Polyline._clean (alter Polyline._clean p h) = map Polyline._clean h.
Proof.
  revert p. induction h as [|q h IH]; intros p; [done|].
  destruct p as [|p]; cbn; [done|]. f_equal. apply IH.
Qed.

Lemma keeps_vafWrite_rebuild (a i : nat) (vs : list double) :
  keeps rebuild_view (vafWrite a i vs).
Proof. unfold vafWrite. keeps_auto. Qed.

Lemma keeps_writeColor_loop_rebuild (i j : nat) (ps : list Cartesian3) (c : Color) :
  keeps rebuild_view (_writeColor_loop i j ps c).
Proof.
  revert j. induction ps as [|p ps IH]; intros j; cbn; keeps_auto.
  - apply keeps_vafWrite_rebuild.
  - apply IH.
Qed.

Lemma keeps_writePosition_loop_rebuild (i j : nat) (ps : list Cartesian3) :
  keeps rebuild_view (_writePosition_loop i j ps).
Proof.
  revert j. induction ps as [|p ps IH]; intros j; cbn; keeps_auto.
  - apply keeps_vafWrite_rebuild.
  - apply IH.
Qed.

Lemma keeps_update_write_rebuild (l : list slot) :
  keeps rebuild_view (_update_write l).
Proof.
  induction l as [|s l IH]; cbn; keeps_auto.
  - unfold rebuild_view. cbn. by rewrite map_clean_alter.
  - unfold _writePolyline, _writePosition, _writeColor. keeps_auto.
    + apply keeps_writePosition_loop_rebuild.
    + apply keeps_writeColor_loop_rebuild.
  - apply IH.
Qed.

Lemma keeps__update_rebuild : keeps rebuild_view _update.
Proof.
  unfold _update. keeps_auto.
  - apply keeps_update_size.
  - apply keeps_update_write_rebuild.
Qed.

Lemma but_vaf_fields (c c' : Collection) :
  set_vaf None c' = set_vaf None c ->
  ident c' = ident c
  /\ _polylines c' = _polylines c
  /\ _polylinesToUpdate c' = _polylinesToUpdate c
  /\ _polylinesRemoved c' = _polylinesRemoved c
  /\ _createVertexArray c' = _createVertexArray c
  /\ morphTime c' = morphTime c
  /\ _propertiesChanged c' = _propertiesChanged c
  /\ _buffersUsage c' = _buffersUsage c
  /\ modelMatrix c' = modelMatrix c
  /\ bufferUsage c' = bufferUsage c
  /\ width c' = width c
  /\ outlineWidth c' = outlineWidth c.
Proof.
  destruct c, c'. unfold set_vaf. cbn. intros H.
  injection H as -> -> -> -> -> -> -> -> -> -> -> -> -> -> -> -> -> -> -> -> -> -> ->.
  repeat split.
Qed.

Lemma update_but_vaf (context : Context) (w : World) :
  rs_wf w ->
  map Polyline._clean (heap (final (update context w)))
  = map Polyline._clean (heap w)
  /\ (set_vaf None (coll (final (update context w)))
      = set_vaf None (coll (update_prepared context w))
      \/ set_vaf None (coll (final (update context w)))
         = set_vaf None (coll (update_snapshot (update_prepared context w)))).
Proof.
  intros Hrs. rewrite update_eq by done.
  assert (heap (update_prepared context w) = heap w) as Eh
    by apply prepared_fields.
  destruct (update_condition _ _ _).
  - pose proof (keeps__update_rebuild
                  (update_snapshot (update_prepared context w))) as Hk.
    apply pair_inv in Hk as [Hc Hh]. split; [|by right].
    rewrite Hh. cbn [update_snapshot heap]. by rewrite Eh.
  - cbn [final]. split; [by rewrite Eh|by left].
Qed.

Lemma but_vaf_private (c c' : Collection) :
  set_vaf None c' = set_vaf None c ->
  _modelMatrix c' = _modelMatrix c
  /\ _bufferUsage c' = _bufferUsage c
  /\ _mode c' = _mode c
  /\ scene2D c' = scene2D c
  /\ _drawUniformsOne c' = _drawUniformsOne c
  /\ _drawUniformsTwo c' = _drawUniformsTwo c
  /\ _drawUniformsThree c' = _drawUniformsThree c
  /\ _sp c' = _sp c
  /\ _rsOne c' = _rsOne c
  /\ _rsTwo c' = _rsTwo c
  /\ _rsThree c' = _rsThree c.
Proof.
  destruct c, c'. unfold set_vaf. cbn. intros H.
  injection H as -> -> -> -> -> -> -> -> -> -> -> -> -> -> -> -> -> -> -> -> -> -> ->.
  repeat split.
Qed.

(** The collection [update] leaves, but for the vertex store. *)
Lemma update_coll (context : Context) (w : World) :
  rs_wf w ->
  set_vaf None (coll (final (update context w)))
  = set_vaf None
      (coll (if update_condition update_mode (modelMatrix (coll w)) (coll w)
             then update_snapshot (update_prepared context w)
             else update_prepared context w)).
Proof.
  intros Hrs. rewrite update_eq by done.
  destruct (update_condition _ _ _); [|done].
  pose proof (keeps__update_rebuild
                (update_snapshot (update_prepared context w))) as Hk.
  by apply pair_inv in Hk as [Hc _].
Qed.

(** After [update], returned or thrown, the mode snapshot is SCENE3D, the
    morph time is 1 and the model matrix is the one the client assigned. *)
Lemma update_uniform_view (context : Context) (w : World) :
  rs_wf w ->
  uniform_view (final (update context w))
  = (1%Q, modelMatrix (coll w), SCENE3D, scene2D (coll w)).
Proof.
  intros Hrs. pose proof (update_coll context w Hrs) as E.
  destruct (but_vaf_fields _ _ E) as (_ & _ & _ & _ & _ & Em & _ & _ & Emm & _).
  destruct (but_vaf_private _ _ E) as (_ & _ & Emode & Es & _).
  unfold uniform_view. rewrite Em, Emm, Emode, Es. clear E Em Emm Emode Es.
  destruct (update_condition update_mode (modelMatrix (coll w)) (coll w)) eqn:Hc.
  - destruct w as [h []]. reflexivity.
  - assert (_mode (coll w) = SCENE3D) as Hmode.
    { destruct (decide (_mode (coll w) = update_mode)) as [Hm|Hm]; [done|].
      assert (update_condition update_mode (modelMatrix (coll w)) (coll w) = true)
        as Ht by (apply update_condition_iff; auto).
      congruence. }
    destruct w as [h []]. cbn in Hmode. subst. reflexivity.
Qed.

Lemma removePolylines_trigger (w : World) :
  trigger_view (final (_removePolylines w)) = trigger_view w.
Proof.
  rewrite _removePolylines_eq. cbn [final].
  by destruct (_polylinesRemoved (coll w)), w as [h []].
Qed.

Lemma snapshot_bufferUsage (w : World) :
  bufferUsage (coll (update_snapshot w)) = bufferUsage (coll w).
Proof. by destruct w as [h []]. Qed.


(** ** The mode snapshot *)

Lemma keeps_destroyPolylines_loop_mode (l : list slot) :
  keeps mode_view (_destroyPolylines_loop l).
Proof. induction l as [|s l IH]; cbn; keeps_auto; apply IH. Qed.

Lemma keeps_removePolylines_mode : keeps mode_view _removePolylines.
Proof.
  intros w. rewrite _removePolylines_eq. cbn [final].
  by destruct (_polylinesRemoved (coll w)), w as [h []].
Qed.

Lemma keeps_perform_mode (o : Op) :
  not_update o = true -> keeps mode_view (perform o).
Proof.
  intros Ho. destruct o; try discriminate Ho; cbn [perform].
  - unfold add. keeps_auto.
  - unfold remove. apply keeps_bind; [|intros ?]; [|keeps_auto].
    apply keeps_bind; [apply keeps_contains|intros b]. keeps_auto.
  - unfold removeAll, _destroyPolylines. keeps_auto.
    apply keeps_destroyPolylines_loop_mode.
  - keeps_auto. apply keeps_contains.
  - unfold get. destruct i; keeps_auto. apply keeps_removePolylines_mode.
  - unfold getLength. keeps_auto. apply keeps_removePolylines_mode.
  - unfold Polyline_makeDirty, _updatePolyline. keeps_auto.
  - unfold computeNewBuffersUsage. keeps_auto.
  - keeps_auto. apply keeps_render.
  - destruct f; cbn; keeps_auto.
Qed.

(** Whatever the client calls, the mode snapshot stays SCENE3D: the
    constructor sets it, and [update] assigns it the constant mode it works
    in. *)
Lemma step_mode (o : Op) (w : World) :
  world_wf w -> _mode (coll w) = SCENE3D ->
  _mode (coll (snd (step o w))) = SCENE3D.
Proof.
  intros Hwf Hm. rewrite step_final.
  destruct (not_update o) eqn:Ho.
  - rewrite <- Hm. by apply (keeps_perform_mode o).
  - destruct o; try discriminate Ho. cbn [perform]. rewrite final_bind_ret.
    pose proof (update_uniform_view context w) as Hv.
    apply quad_inv in Hv as (_ & _ & Hmode & _); [done|apply Hwf].
Qed.

Lemma run_mode (ops : list Op) (w : World) :
  world_wf w -> _mode (coll w) = SCENE3D ->
  _mode (coll (snd (run ops w))) = SCENE3D.
Proof.
  revert w. induction ops as [|o ops IH]; intros w Hwf Hm; [done|].
  cbn [run]. pose proof (step_wf o w Hwf) as H1.
  pose proof (step_mode o w Hwf Hm) as H2.
  destruct (step o w) as [e w1]. specialize (IH w1 H1 H2).
  by destruct (run ops w1).
Qed.

(** ** The draw calls of [render] *)

Lemma Context_draw_3D (pt : PrimitiveType) (sp : option ShaderProgram)
    (um : option UniformMap) (va : VertexArray) (rs : option RenderState)
    (w : World) :
  _mode (coll w) = SCENE3D ->
  Context_draw pt sp um va rs w =
  Returned
    {| primitiveType := pt; shaderProgram := sp; uniformMap := um;
       uniforms :=
         match um with
         | Some _ => Some {| u_morphTime := morphTime (coll w);
                             u_model := modelMatrix (coll w) |}
         | None => None
         end;
       vertexArray := va; renderState := rs |} w.
Proof.
  intros Hm. unfold Context_draw, callUniforms, _getModelMatrix, bind, this, ret.
  destruct um; [|done]. by rewrite Hm.
Qed.

Lemma render_loop_3D (segs : list VertexArray) (w : World) :
  _mode (coll w) = SCENE3D ->
  let c := coll w in
  let us := {| u_morphTime := morphTime c; u_model := modelMatrix c |} in
  let call um rs seg :=
    {| primitiveType := LINES; shaderProgram := _sp c; uniformMap := um;
       uniforms := match um with Some _ => Some us | None => None end;
       vertexArray := seg; renderState := rs |} in
  render_loop segs w =
  Returned (flat_map (fun seg =>
              [call (_drawUniformsOne c) (_rsOne c) seg;
               call (_drawUniformsTwo c) (_rsTwo c) seg;
               call (_drawUniformsThree c) (_rsThree c) seg]) segs) w.
Proof.
  intros Hm c us call. induction segs as [|seg segs IH]; [done|].
  cbn [render_loop flat_map]. unfold bind, this.
  rewrite !Context_draw_3D by done. by rewrite IH.
Qed.

(** [render] reads the world through [draw_view] only. *)
Lemma callUniforms_view (um : UniformMap) (w w' : World) :
  uniform_view w' = uniform_view w ->
  callUniforms um w' = moved (callUniforms um w) w'.
Proof.
  unfold uniform_view. intros (Ht & Hmm & Hmode & Hs)%quad_inv.
  unfold callUniforms, _getModelMatrix, bind, this, ret, throw.
  rewrite Ht, Hmm, Hmode, Hs.
  destruct (_mode (coll w)); try done; by destruct (scene2D (coll w)) as [[]|].
Qed.

Lemma Context_draw_view (pt : PrimitiveType) (sp : option ShaderProgram)
    (um : option UniformMap) (va : VertexArray) (rs : option RenderState)
    (w w' : World) :
  uniform_view w' = uniform_view w ->
  Context_draw pt sp um va rs w' = moved (Context_draw pt sp um va rs w) w'.
Proof.
  intros Hv. unfold Context_draw. destruct um as [m|]; [|done].
  unfold bind at 1 3. unfold bind at 1 2.
  rewrite (callUniforms_view m w w' Hv).
  by destruct (callUniforms m w).
Qed.

Lemma Context_draw_final (pt : PrimitiveType) (sp : option ShaderProgram)
    (um : option UniformMap) (va : VertexArray) (rs : option RenderState)
    (w : World) :
  Context_draw pt sp um va rs w = moved (Context_draw pt sp um va rs w) w.
Proof.
  pose proof (keeps_Context_draw id pt sp um va rs w) as Hk.
  destruct (Context_draw pt sp um va rs w); cbn in *; by subst.
Qed.

Lemma render_loop_view (segs : list VertexArray) (w w' : World) :
  draw_view w' = draw_view w ->
  render_loop segs w' = moved (render_loop segs w) w'.
Proof.
  unfold draw_view, passes_view.
  intros (Hp & _ & Hu & Hv)%quad_inv.
  apply quad_inv in Hp as (Hsp & H1 & H2 & H3).
  apply triple_inv in Hu as (U1 & U2 & U3).
  induction segs as [|seg segs IH]; [done|].
  cbn [render_loop]. unfold bind, this.
  rewrite Hsp, H1, U1.
  rewrite (Context_draw_view _ _ (_drawUniformsOne (coll w)) _ _ w w' Hv).
  rewrite (Context_draw_final _ _ (_drawUniformsOne (coll w)) _ _ w).
  destruct (Context_draw _ _ (_drawUniformsOne (coll w)) _ _ w) as [d1 ?|];
    cbn [moved]; [|done].
  rewrite Hsp, H2, U2.
  rewrite (Context_draw_view _ _ (_drawUniformsTwo (coll w)) _ _ w w' Hv).
  rewrite (Context_draw_final _ _ (_drawUniformsTwo (coll w)) _ _ w).
  destruct (Context_draw _ _ (_drawUniformsTwo (coll w)) _ _ w) as [d2 ?|];
    cbn [moved]; [|done].
  rewrite Hsp, H3, U3.
  rewrite (Context_draw_view _ _ (_drawUniformsThree (coll w)) _ _ w w' Hv).
  rewrite (Context_draw_final _ _ (_drawUniformsThree (coll w)) _ _ w).
  destruct (Context_draw _ _ (_drawUniformsThree (coll w)) _ _ w) as [d3 ?|];
    cbn [moved]; [|done].
  rewrite IH. by destruct (render_loop segs w).
Qed.

Lemma render_view (w w' : World) :
  draw_view w' = draw_view w -> render w' = moved (render w) w'.
Proof.
  intros Hv. pose proof Hv as (_ & Hvaf & _ & _)%quad_inv.
  unfold render, bind, this. rewrite Hvaf.
  destruct (_vaf (coll w)) as [vaf|]; [|done].
  destruct (VertexArrayFacade.va vaf); [|done].
  by apply render_loop_view.
Qed.

(** ** The two outcomes of a rebuild inside [update] *)

Lemma tombstone_not_compact (w : World) :
  SNull ∈ _polylines (coll w) -> ~ compact w.
Proof.
  unfold compact. intros Hin E. rewrite E in Hin.
  change (map SPolyline) with (fmap (M := list) SPolyline) in Hin.
  by apply list_elem_of_fmap in Hin as (p & Hp & _).
Qed.

Lemma snapshot_rebuild (context : Context) (w : World) :
  let w2 := update_snapshot (update_prepared context w) in
  heap w2 = heap w
  /\ _polylines (coll w2) = _polylines (coll w)
  /\ rebuiltStore w2 = rebuiltStore w
  /\ (compact w2 <-> compact w)
  /\ _drawUniformsOne (coll w2) = Some drawUniformsOne3D
  /\ _drawUniformsTwo (coll w2) = Some drawUniformsTwo3D
  /\ _drawUniformsThree (coll w2) = Some drawUniformsThree3D.
Proof.
  intros w2.
  assert (heap w2 = heap w
          /\ _polylines (coll w2) = _polylines (coll w)
          /\ _buffersUsage (coll w2) = _buffersUsage (coll w)
          /\ _drawUniformsOne (coll w2) = Some drawUniformsOne3D
          /\ _drawUniformsTwo (coll w2) = Some drawUniformsTwo3D
          /\ _drawUniformsThree (coll w2) = Some drawUniformsThree3D)
    as (Eh & Ep & Eb & E1 & E2 & E3).
  { subst w2. destruct w as [h []]. vm_compute. repeat split. }
  split; [done|]. split; [done|].
  unfold rebuiltStore, vertexAttributes, compact. rewrite Eh, Ep, Eb. done.
Qed.

Lemma remove_not_compact (w : World) (p : nat) :
  slots_wf w -> member w p ->
  exists w', remove (VPolyline p) w = Returned true w'
             /\ ~ compact w' /\ _createVertexArray (coll w') = true.
Proof.
  intros Hwf (q & Hq & Hc). eexists.
  split; [by apply (remove_member p q)|]. split; [|done].
  apply tombstone_not_compact.
  pose proof (wf_member w Hwf p q Hq Hc) as Hslot.
  cbn [coll set_createVertexArray set_polylinesRemoved set_polylines _polylines].
  rewrite (array_set_in_range _ _ _ _ Hslot).
  apply list_elem_of_lookup. exists (_index q).
  apply list_lookup_insert_eq. by eapply lookup_lt_Some.
Qed.

Lemma computeNewBuffersUsage_trigger (w : World) :
  trigger_view (final (computeNewBuffersUsage w)) = trigger_view w.
Proof. rewrite computeNewBuffersUsage_eq. by destruct w as [h []]. Qed.

(** ** The mutation counters over time *)

Lemma uint32_incr_lookup (k k' : nat) (a : list Z) :
  uint32_incr k a !! k' =
  if decide (k = k') then (fun n => ((n + 1) mod UINT32_MODULUS)%Z) <$> a !! k'
  else a !! k'.
Proof.
  unfold uint32_incr. destruct (decide (k = k')) as [->|Hne].
  - apply list_lookup_alter_eq.
  - by apply list_lookup_alter_ne.
Qed.

(** Only a dirty notification changes the counters, and it increments one
    of them. *)
Lemma step_counters (o : Op) (w : World) :
  world_wf w ->
  _propertiesChanged (coll (snd (step o w))) = _propertiesChanged (coll w)
  \/ exists p k, o = ONotify p k
       /\ _propertiesChanged (coll (snd (step o w)))
          = uint32_incr k (_propertiesChanged (coll w)).
Proof.
  intros (Hs & Hu & Hr & Hv). rewrite step_final.
  assert (forall A (m : M A), keeps static_view m ->
            _propertiesChanged (coll (final (m w))) = _propertiesChanged (coll w))
    as Hstatic.
  { intros A m Hk. specialize (Hk w).
    apply triple_inv in Hk as (Hk & _ & _). by apply pair_inv in Hk as [? _]. }
  destruct o; cbn [perform]; rewrite final_bind_ret.
  - left. apply Hstatic, keeps_add_static.
  - left. apply Hstatic, keeps_remove_static.
  - left. apply Hstatic, keeps_removeAll_static.
  - left. by rewrite contains_final.
  - left. apply Hstatic, keeps_get_static.
  - left. apply Hstatic, keeps_getLength_static.
  - destruct (makeDirty_counters p k w) as [E|E]; [right; eauto|by left].
  - left. destruct (computeNewBuffersUsage_run w Hu)
      as (ch & w' & E & _ & Hc & _). by rewrite E.
  - left. destruct (update_views context w Hr) as (_ & Hk & _).
    by apply pair_inv in Hk as [? _].
  - left. by rewrite render_final.
  - left. apply Hstatic, keeps_assignField_static.
Qed.

Lemma notifications_cons (k : nat) (o : Op) (ops : list Op) :
  notifications k (o :: ops) =
  (if notifies k o then 1 else 0) + notifications k ops.
Proof. unfold notifications. cbn. by destruct (notifies k o). Qed.

Lemma run_counter (k : nat) (ops : list Op) (w : World) (c : Z) :
  world_wf w ->
  _propertiesChanged (coll w) !! k = Some c ->
  (0 < c)%Z ->
  (c + Z.of_nat (notifications k ops) < UINT32_MODULUS)%Z ->
  exists c', _propertiesChanged (coll (snd (run ops w))) !! k = Some c'
             /\ (c <= c' <= c + Z.of_nat (notifications k ops))%Z.
Proof.
  revert w c. induction ops as [|o ops IH]; intros w c Hwf Hc Hpos Hlt.
  - exists c. split; [done|]. cbn. lia.
  - rewrite notifications_cons in *. cbn [run].
    pose proof (step_wf o w Hwf) as Hwf1.
    pose proof (step_counters o w Hwf) as Hstep.
    destruct (step o w) as [e w1]. cbn [snd] in *.
    assert (exists c1, _propertiesChanged (coll w1) !! k = Some c1
              /\ (c <= c1 <= c + Z.of_nat (if notifies k o then 1 else 0))%Z)
      as (c1 & Hc1 & Hb1).
    { destruct Hstep as [->|(p & k' & -> & ->)].
      - exists c. split; [done|]. destruct (notifies k o); lia.
      - rewrite uint32_incr_lookup. cbn [notifies] in *.
        destruct (decide (k' = k)) as [->|Hne].
        + rewrite Hc, Nat.eqb_refl. cbn. eexists. split; [reflexivity|].
          rewrite Nat.eqb_refl in Hlt.
          rewrite Z.mod_small by (unfold UINT32_MODULUS in *; lia). lia.
        + exists c. split; [done|]. destruct (k' =? k); lia. }
    destruct (IH w1 c1 Hwf1 Hc1) as (c' & Hc' & Hb'); [lia|lia|].
    destruct (run ops w1) as [es w']. cbn [snd] in *.
    exists c'. split; [done|]. lia.
Qed.

Lemma classification_counter (k : nat) (w : World) :
  usage_wf w -> k < NUMBER_OF_PROPERTIES ->
  classification k w = Some (classify (_propertiesChanged (coll w) !! k)).
Proof.
  intros Hu Hk. unfold classification.
  destruct (computeNewBuffersUsage_run w Hu)
    as (ch & w' & E & _ & _ & _ & Hcl).
  rewrite E. cbn [final]. by apply Hcl.
Qed.

(** C9, as the code has it.  In a well-formed world, once a call of
    [computeNewBuffersUsage] has classified a property kind as STREAM_DRAW,
    a call after any further program classifies it as STREAM_DRAW again,
    provided the program's dirty notifications for that kind do not carry
    the 32-bit counter up to 2^32; and no call other than a dirty
    notification changes any counter, [removeAll] and
    [computeNewBuffersUsage] included. *)
Theorem usage_monotone_below_wrap (w : World) (k : nat) (ops : list Op) (c : Z) :
  world_wf w ->
  k < NUMBER_OF_PROPERTIES ->
  _propertiesChanged (coll w) !! k = Some c ->
  classification k w = Some STREAM_DRAW ->
  (c + Z.of_nat (notifications k ops) < UINT32_MODULUS)%Z ->
  classification k (snd (run ops w)) = Some STREAM_DRAW
  /\ (forall o w0, world_wf w0 -> (forall p j, o <> ONotify p j) ->
        _propertiesChanged (coll (snd (step o w0)))
        = _propertiesChanged (coll w0)).
Proof.
  intros Hwf Hk Hc Hcl Hlt. split.
  - pose proof Hwf as (_ & Hu & _).
    rewrite classification_counter, Hc in Hcl by done.
    assert (0 < c)%Z as Hpos.
    { destruct Hu as (_ & _ & Hr).
      pose proof (Forall_lookup_1 _ _ _ _ Hr Hc) as Hrange. cbn in Hrange.
      unfold classify in Hcl.
      destruct (decide (c = 0%Z)) as [->|]; [|lia].
      by rewrite bool_decide_eq_true_2 in Hcl. }
    destruct (run_counter k ops w c Hwf Hc Hpos Hlt) as (c' & Hc' & Hb).
    pose proof (run_wf ops w Hwf) as (_ & Hu' & _).
    rewrite classification_counter, Hc' by done.
    unfold classify. rewrite bool_decide_eq_false_2; [done|].
    intros [= ->]. lia.
  - intros o w0 Hwf0 Hno.
    destruct (step_counters o w0 Hwf0) as [E|(p & j & -> & _)]; [done|].
    by destruct (Hno p j eq_refl).
Qed.

(** *** Wrap-around *)

Lemma member_view (w w' : World) (p : nat) :
  slots_view w' = slots_view w -> member w p -> member w' p.
Proof.
  unfold slots_view. intros [= Ei _ _ El] (q & Hq & Hc).
  pose proof (links_lookup (heap w') p) as H1.
  rewrite El, links_lookup, Hq in H1.
  destruct (heap w' !! p) as [q'|] eqn:Hq'; cbn in H1; [|done].
  exists q'. split; [done|]. rewrite Ei. injection H1 as _ E. congruence.
Qed.

Lemma member_makeDirty (p p' k : nat) (w : World) :
  member w p' -> member (final (Polyline_makeDirty p k w)) p'.
Proof.
  apply member_view.
  pose proof (keeps_makeDirty_notify p k w) as Hk.
  by apply quad_inv in Hk as (? & _).
Qed.

Lemma notify_iter (p k : nat) (n : N) (w : World) (c : Z) :
  member w p -> usage_wf w ->
  _propertiesChanged (coll w) !! k = Some c ->
  let w' := N.iter n (fun w => final (Polyline_makeDirty p k w)) w in
  member w' p /\ usage_wf w'
  /\ _propertiesChanged (coll w') !! k = Some ((c + Z.of_N n) mod UINT32_MODULUS)%Z.
Proof.
  intros Hm Hu Hc. induction n as [|n IH] using N.peano_ind.
  - cbn. split; [done|]. split; [done|].
    destruct Hu as (_ & _ & Hr).
    pose proof (Forall_lookup_1 _ _ _ _ Hr Hc) as Hrange. cbn in Hrange.
    rewrite Z.add_0_r, Z.mod_small by done. done.
  - cbn zeta in *. rewrite N.iter_succ.
    destruct IH as (Hm' & Hu' & Hc').
    split; [by apply member_makeDirty|]. split; [by apply usage_wf_makeDirty|].
    rewrite makeDirty_counters_member by done.
    rewrite uint32_incr_lookup, decide_True by done. rewrite Hc'. cbn.
    f_equal. rewrite N2Z.inj_succ.
    rewrite Zplus_mod_idemp_l. f_equal. lia.
Qed.
(** ** The usage heuristic between two calls *)

Lemma run_counter_same (k : nat) (ops : list Op) (w : World) :
  world_wf w -> notifications k ops = 0 ->
  _propertiesChanged (coll (snd (run ops w))) !! k
  = _propertiesChanged (coll w) !! k.
Proof.
  revert w. induction ops as [|o ops IH]; intros w Hwf Hn; [done|].
  rewrite notifications_cons in Hn. rewrite run_cons_snd.
  pose proof (step_wf o w Hwf) as Hwf1.
  rewrite IH by (done || lia).
  destruct (step_counters o w Hwf) as [->|(p & k' & -> & ->)]; [done|].
  rewrite uint32_incr_lookup. cbn [notifies] in Hn.
  destruct (decide (k' = k)) as [->|Hne]; [|done].
  rewrite Nat.eqb_refl in Hn. lia.
Qed.

(** C3, as the code has it.  A call of [computeNewBuffersUsage] returns
    normally, leaves the polylines and the mutation counters as they were,
    classifies every property kind whose counter is zero as STATIC_DRAW and
    every kind whose counter is not zero as STREAM_DRAW, and returns true
    exactly when some kind's classification differs from the one it had
    before the call (the one the previous call left).  The counters are not
    reset by the call: a second call right after the first finds the same
    counters, gives the same classification and returns false, and a later
    call, after any program without a dirty notification for a kind,
    classifies that kind as this call did, STREAM_DRAW included. *)
Theorem computeNewBuffersUsage_classifies (w : World) :
  usage_wf w ->
  exists changed w',
    computeNewBuffersUsage w = Returned changed w'
    /\ heap w' = heap w
    /\ _propertiesChanged (coll w') = _propertiesChanged (coll w)
    /\ (forall k, k < NUMBER_OF_PROPERTIES ->
          (_propertiesChanged (coll w) !! k = Some 0%Z ->
           _buffersUsage (coll w') !! k = Some STATIC_DRAW)
          /\ (_propertiesChanged (coll w) !! k <> Some 0%Z ->
              _buffersUsage (coll w') !! k = Some STREAM_DRAW))
    /\ (changed = true <->
        exists k, k < NUMBER_OF_PROPERTIES
                  /\ _buffersUsage (coll w') !! k <> _buffersUsage (coll w) !! k)
    /\ (exists w'', computeNewBuffersUsage w' = Returned false w''
                    /\ _buffersUsage (coll w'') = _buffersUsage (coll w'))
    /\ (world_wf w -> forall k ops,
          k < NUMBER_OF_PROPERTIES -> notifications k ops = 0 ->
          classification k (snd (run ops w')) = _buffersUsage (coll w') !! k).
Proof.
  intros Hu. pose proof Hu as (Hp & Hb & Hr).
  destruct (usage_loop_spec (_propertiesChanged (coll w)) NUMBER_OF_PROPERTIES
              (_buffersUsage (coll w)) false) as (Hlen & Hlo & _ & Hch); [lia|].
  pose proof (step_wf OComputeNewBuffersUsage w) as Hstep.
  rewrite step_final in Hstep. cbn [perform] in Hstep.
  rewrite final_bind_ret in Hstep.
  rewrite computeNewBuffersUsage_eq in *. cbn zeta in *.
  set (r := foldl (computeNewBuffersUsage_step (_propertiesChanged (coll w)))
                  (_buffersUsage (coll w), false) (seq 0 NUMBER_OF_PROPERTIES)) in *.
  eexists _, _. split; [reflexivity|]. cbn [heap coll].
  split; [done|]. split; [by destruct w as [h []]|].
  assert (_buffersUsage (set_buffersUsage (fst r) (coll w)) = fst r) as Ebu
    by (by destruct w as [h []]).
  assert (_propertiesChanged (set_buffersUsage (fst r) (coll w))
          = _propertiesChanged (coll w)) as Epc by (by destruct w as [h []]).
  rewrite Ebu. split; [|split; [|split]].
  - intros k Hk. rewrite (Hlo k Hk). unfold classify.
    split; intros H;
      [by rewrite bool_decide_eq_true_2|by rewrite bool_decide_eq_false_2].
  - rewrite Hch. split.
    + intros [?|(k & Hk & Hd)]; [done|]. exists k. split; [done|].
      rewrite (Hlo k Hk). congruence.
    + intros (k & Hk & Hd). right. exists k. split; [done|].
      rewrite (Hlo k Hk) in Hd. congruence.
  - rewrite computeNewBuffersUsage_eq. cbn zeta. cbn [coll]. rewrite Ebu, Epc.
    destruct (usage_loop_spec (_propertiesChanged (coll w)) NUMBER_OF_PROPERTIES
                (fst r) false) as (Hlen2 & Hlo2 & Hhi2 & Hch2); [lia|].
    set (r2 := foldl (computeNewBuffersUsage_step (_propertiesChanged (coll w)))
                     (fst r, false) (seq 0 NUMBER_OF_PROPERTIES)) in *.
    assert (fst r2 = fst r) as Esame.
    { apply list_eq. intros k.
      destruct (decide (k < NUMBER_OF_PROPERTIES)) as [Hk|Hk].
      - by rewrite (Hlo k Hk), (Hlo2 k Hk).
      - apply Hhi2. lia. }
    assert (snd r2 = false) as Efalse.
    { destruct (snd r2) eqn:E; [|done]. destruct Hch2 as [Hc _].
      destruct (Hc eq_refl) as [?|(k & Hk & Hd)]; [done|].
      by rewrite (Hlo k Hk) in Hd. }
    eexists. split; [by rewrite Efalse|].
    cbn [coll]. rewrite Esame. by destruct w as [h []].
  - intros Hwf k ops Hk Hn. cbn [final] in Hstep. specialize (Hstep Hwf).
    pose proof (run_wf ops _ Hstep) as (_ & Hu' & _).
    rewrite classification_counter by done.
    rewrite run_counter_same by done. cbn [coll]. rewrite Epc.
    symmetry. by apply Hlo.
Qed.

(** ** [update] and [render] *)

(** C4, as the code has it.  In a world whose render states and slots are
    in order, [update] first creates what is missing and assigns the line
    widths and depth flags of the three passes; polylines, slots, vertex
    store, flag and snapshots are untouched so far.  Its rebuild test is
    positive exactly when the rebuild-pending flag is set, or the public
    usage hint [bufferUsage] differs from its snapshot, or the mode
    snapshot is not SCENE3D, the constant mode [update] works in: the model
    matrix is never compared, the classification of
    [computeNewBuffersUsage] is not read, and the mode snapshot is SCENE3D
    in every world a client can reach.  On a positive test it clears the
    flag, takes the three snapshots, installs the uniform maps and runs the
    rebuild.  Where every slot holds a polyline, which is so whenever no
    removal is pending, the rebuild returns: the polylines in the slots are
    clean and the store is the one created for the sum of their position
    counts, written polyline after polyline and committed.  Where a slot
    holds no polyline, as after [remove], the rebuild throws a TypeError
    and polylines and store are as before, the flag cleared and the
    snapshots taken all the same.  On a negative test [update] returns at
    once, the widths and depth flags assigned. *)
Theorem update_rebuilds_iff (context : Context) (w : World) :
  rs_wf w -> slots_wf w ->
  let needed :=
    _createVertexArray (coll w) = true
    \/ _bufferUsage (coll w) <> Some (bufferUsage (coll w))
    \/ _mode (coll w) <> SCENE3D in
  let ps := livePolylines (_polylines (coll w)) in
  exists w1 r1 r2 r3,
    heap w1 = heap w
    /\ _polylines (coll w1) = _polylines (coll w)
    /\ _vaf (coll w1) = _vaf (coll w)
    /\ _createVertexArray (coll w1) = _createVertexArray (coll w)
    /\ _bufferUsage (coll w1) = _bufferUsage (coll w)
    /\ _mode (coll w1) = _mode (coll w)
    /\ _modelMatrix (coll w1) = _modelMatrix (coll w)
    /\ passes_view w1 = (Some PolylineProgram, Some r1, Some r2, Some r3)
    /\ lineWidth r1 = _clampWidth context (outlineWidth (coll w))
    /\ lineWidth r2 = _clampWidth context (width (coll w))
    /\ lineWidth r3 = _clampWidth context (outlineWidth (coll w))
    /\ depthMask r1 = false /\ depthTest_enabled r1 = true
    /\ depthTest_enabled r2 = true /\ depthTest_enabled r3 = true
    /\ (update_condition update_mode (modelMatrix (coll w1)) (coll w1) = true
        <-> needed)
    /\ (needed ->
        exists w2,
          update context w = _update w2
          /\ heap w2 = heap w1
          /\ _polylines (coll w2) = _polylines (coll w1)
          /\ _vaf (coll w2) = _vaf (coll w1)
          /\ passes_view w2 = passes_view w1
          /\ _createVertexArray (coll w2) = false
          /\ _bufferUsage (coll w2) = Some (bufferUsage (coll w))
          /\ _mode (coll w2) = SCENE3D
          /\ _modelMatrix (coll w2) = modelMatrix (coll w)
          /\ _drawUniformsOne (coll w2) = Some drawUniformsOne3D
          /\ _drawUniformsTwo (coll w2) = Some drawUniformsTwo3D
          /\ _drawUniformsThree (coll w2) = Some drawUniformsThree3D)
    /\ (needed -> compact w ->
        exists w3,
          update context w = Returned tt w3
          /\ heap w3 = cleanAll ps (heap w)
          /\ _vaf (coll w3) = Some (rebuiltStore w)
          /\ _polylines (coll w3) = _polylines (coll w)
          /\ passes_view w3 = passes_view w1
          /\ _createVertexArray (coll w3) = false
          /\ _bufferUsage (coll w3) = Some (bufferUsage (coll w))
          /\ _mode (coll w3) = SCENE3D
          /\ _modelMatrix (coll w3) = modelMatrix (coll w)
          /\ _drawUniformsOne (coll w3) = Some drawUniformsOne3D
          /\ _drawUniformsTwo (coll w3) = Some drawUniformsTwo3D
          /\ _drawUniformsThree (coll w3) = Some drawUniformsThree3D)
    /\ (needed -> ~ compact w ->
        exists w2,
          update context w = Thrown TypeError w2
          /\ heap w2 = heap w
          /\ _vaf (coll w2) = _vaf (coll w)
          /\ _polylines (coll w2) = _polylines (coll w)
          /\ passes_view w2 = passes_view w1
          /\ _createVertexArray (coll w2) = false
          /\ _bufferUsage (coll w2) = Some (bufferUsage (coll w))
          /\ _mode (coll w2) = SCENE3D
          /\ _modelMatrix (coll w2) = modelMatrix (coll w))
    /\ (~ needed -> update context w = Returned tt w1)
    /\ (_polylinesRemoved (coll w) = false -> compact w)
    /\ (forall p, member w p ->
          exists w', remove (VPolyline p) w = Returned true w'
                     /\ ~ compact w' /\ _createVertexArray (coll w') = true)
    /\ (forall changed w',
          computeNewBuffersUsage w = Returned changed w' ->
          trigger_view w' = trigger_view w)
    /\ (forall id ops, _mode (coll (snd (run ops (init id)))) = SCENE3D).
Proof.
  intros Hrs Hwf needed ps.
  destruct (prepared_passes context w Hrs)
    as (r1 & r2 & r3 & Hp & _ & _ & _ & Hl1 & Hl2 & Hl3 & Hd).
  exists (update_prepared context w), r1, r2, r3.
  pose proof (update_eq context w Hrs) as Heq.
  assert (update_condition update_mode (modelMatrix (coll w)) (coll w) = true
          <-> needed) as Hiff.
  { rewrite update_condition_iff. unfold needed, update_mode. tauto. }
  destruct (prepared_fields context w)
    as (F1 & F2 & F3 & F4 & F5 & F6 & F7 & F8 & F9).
  destruct Hd as (? & ? & ? & ?).
  assert (update_condition update_mode
            (modelMatrix (coll (update_prepared context w)))
            (coll (update_prepared context w)) = true <-> needed) as Hiff1.
  { rewrite <- Hiff. unfold update_condition.
    by rewrite F4, F5, F6, F7, F8, F9. }
  repeat (split; [assumption|]).
  destruct (snapshot_fields (update_prepared context w))
    as (G1 & G2 & G3 & G4 & G5 & G6 & G7 & G8).
  rewrite F8 in G6. rewrite F9 in G8.
  destruct (snapshot_rebuild context w) as (S1 & S2 & S3 & S4 & U1 & U2 & U3).
  set (w1 := update_prepared context w) in *.
  set (w2 := update_snapshot w1) in *.
  assert (slots_wf w2) as Hwf2.
  { apply (slots_wf_view w); [|done].
    pose proof (snapshot_views context w) as Hv. fold w1 w2 in Hv.
    by apply triple_inv in Hv as (? & _). }
  split.
  { intros Hn%Hiff. rewrite Hn in Heq. exists w2.
    split; [exact Heq|]. repeat (split; [assumption|]). assumption. }
  split; [|split; [|split; [|split; [|split; [|split]]]]].
  - intros Hn%Hiff Hc. rewrite Hn in Heq.
    rewrite Heq, (_update_compact w2 Hwf2) by (by apply S4).
    eexists. split; [reflexivity|]. cbn [heap coll].
    rewrite S1, S2, S3. fold ps. split; [done|].
    split; [apply _vaf_set_vaf|].
    assert (set_vaf None (set_vaf (Some (rebuiltStore w)) (coll w2))
            = set_vaf None (coll w2)) as E by apply set_vaf_set_vaf.
    destruct (but_vaf_fields _ _ E) as (_ & E1 & _ & _ & E2 & _).
    destruct (but_vaf_private _ _ E)
      as (E3 & E4 & E5 & _ & E6 & E7 & E8 & E9 & E10 & E11 & E12).
    unfold passes_view in *. cbn [coll].
    rewrite E1, E2, E3, E4, E5, E6, E7, E8, E9, E10, E11, E12.
    rewrite G2, F2, G5, G6, G7, G8, U1, U2, U3. rewrite <- G4.
    repeat (split; [reflexivity|]). reflexivity.
  - intros Hn%Hiff Hc. rewrite Hn in Heq.
    assert (~ compact w2) as Hc2 by (by rewrite S4).
    rewrite Heq, (_update_tombstone w2 Hwf2 Hc2).
    exists w2. split; [reflexivity|].
    rewrite G1, G2, G3, F1, F2, F3. repeat (split; [assumption || reflexivity|]).
    assumption.
  - intros Hn. destruct (update_condition _ _ _); [|exact Heq].
    exfalso. apply Hn, Hiff. reflexivity.
  - apply (wf_dense w Hwf).
  - intros p Hm. by apply remove_not_compact.
  - intros changed w' E. pose proof (computeNewBuffersUsage_trigger w) as Ht.
    by rewrite E in Ht.
  - intros id ops. by apply run_mode; [apply world_wf_init|].
Qed.

(** C2, as the code has it.  After an [update] that returned, with the
    vertex store committed, [render] submits for every realized segment, in
    segment order, exactly three draw calls of line-list topology: the first
    with colour writes disabled, at the clamped outline width, with a stencil
    test that always passes and replaces the stencil value by the reference
    0 whatever the outcome; the second at the clamped fill width, always
    passing, replacing the stencil value by the reference 1 where the
    fragment passes and keeping it otherwise; the third at the clamped
    outline width, alpha-blended, passing only where the stencil value
    differs from the reference 1, and keeping the stencil value.  The
    segments are bound to no index buffer: the store was committed without
    one.  The functions of the uniform maps, called by the context during
    the draw, return the morph time 1 that [update] left and the model
    matrix of the collection. *)
Theorem render_three_passes (context : Context) (w w' : World)
    (vaf : VertexArrayFacade) (segments : list VertexArray) :
  rs_wf w -> vaf_wf w ->
  update context w = Returned tt w' ->
  _vaf (coll w') = Some vaf ->
  VertexArrayFacade.va vaf = Some segments ->
  exists r1 r2 r3,
    let us := {| u_morphTime := 1; u_model := modelMatrix (coll w) |} in
    render w' =
      Returned (flat_map (fun seg =>
                  [pass (_drawUniformsOne (coll w')) us r1 seg;
                   pass (_drawUniformsTwo (coll w')) us r2 seg;
                   pass (_drawUniformsThree (coll w')) us r3 seg]) segments) w'
    /\ length (drawn (render w')) = 3 * length segments
    /\ (forall d, d ∈ drawn (render w') ->
          primitiveType d = LINES /\ va_indexBuffer (vertexArray d) = None)
    (* pass 1 *)
    /\ colorMask r1 = noColorWrites
    /\ lineWidth r1 = _clampWidth context (outlineWidth (coll w))
    /\ enabled (stencilTest r1) = true
    /\ frontFunction (stencilTest r1) = ALWAYS
    /\ backFunction (stencilTest r1) = ALWAYS
    /\ reference (stencilTest r1) = 0%Z
    /\ frontOperation (stencilTest r1) = allOps REPLACE
    /\ backOperation (stencilTest r1) = allOps REPLACE
    (* pass 2 *)
    /\ lineWidth r2 = _clampWidth context (width (coll w))
    /\ enabled (stencilTest r2) = true
    /\ frontFunction (stencilTest r2) = ALWAYS
    /\ backFunction (stencilTest r2) = ALWAYS
    /\ reference (stencilTest r2) = 1%Z
    /\ frontOperation (stencilTest r2) = onPass REPLACE
    /\ backOperation (stencilTest r2) = onPass REPLACE
    (* pass 3 *)
    /\ lineWidth r3 = _clampWidth context (outlineWidth (coll w))
    /\ blending r3 = ALPHA_BLEND
    /\ enabled (stencilTest r3) = true
    /\ frontFunction (stencilTest r3) = NOT_EQUAL
    /\ backFunction (stencilTest r3) = NOT_EQUAL
    /\ reference (stencilTest r3) = 1%Z
    /\ frontOperation (stencilTest r3) = allOps KEEP
    /\ backOperation (stencilTest r3) = allOps KEEP.
Proof.
  intros Hrs Hvaf Hupd Hv Hva.
  destruct (prepared_passes context w Hrs)
    as (r1 & r2 & r3 & Hp & (C1 & B1 & S1) & (C2 & B2 & S2) & (C3 & B3 & S3)
        & Hl1 & Hl2 & Hl3 & _).
  destruct (update_views context w Hrs) as (_ & _ & Hpv).
  pose proof (vaf_wf_update context w Hrs Hvaf) as Hvaf'.
  rewrite Hupd in Hpv, Hvaf'. cbn [final] in Hpv, Hvaf'.
  rewrite Hp in Hpv. apply quad_inv in Hpv as (Hsp & H1 & H2 & H3).
  pose proof (update_uniform_view context w Hrs) as Hu.
  rewrite Hupd in Hu. cbn [final] in Hu.
  apply quad_inv in Hu as (Ht & Hmm & Hmode & _).
  exists r1, r2, r3. intros us.
  assert (render w' =
      Returned (flat_map (fun seg =>
                  [pass (_drawUniformsOne (coll w')) us r1 seg;
                   pass (_drawUniformsTwo (coll w')) us r2 seg;
                   pass (_drawUniformsThree (coll w')) us r3 seg]) segments) w')
    as Hrender.
  { unfold render, bind, this. rewrite Hv, Hva.
    rewrite render_loop_3D by done. cbn zeta. unfold pass, us.
    by rewrite Hsp, H1, H2, H3, Ht, Hmm. }
  split; [done|]. rewrite Hrender. cbn [drawn].
  split; [apply flat_map_length_3|]. split.
  - intros d Hd. apply list_elem_of_In, in_flat_map in Hd as (seg & Hseg & Hd).
    apply list_elem_of_In in Hseg.
    unfold VertexArrayFacade.va in Hva.
    destruct (vaf_commit vaf) as [ib|] eqn:Hc; [|done].
    rewrite (Hvaf' vaf ib Hv Hc) in Hva. simplify_eq.
    apply segments_indexBuffer in Hseg.
    cbn in Hd. destruct Hd as [<-|[<-|[<-|[]]]]; done.
  - rewrite C1, S1, S2, B3, S3. done.
Qed.

(** ** The rebuild on the data of the test suite *)

(** C1.  The rebuild on two polylines of two positions each: the store is
    created for 4 vertices with the three attributes and committed, but
    the second polyline's vertices are written at offsets 1 and 2 (slot
    index plus position number), over the second vertex of the first
    polyline, vertex 3 is never written, and no outline colour is written
    at all.  After removing the first polyline the next [update] does not
    rebuild for 2 vertices: it throws a TypeError on the tombstone and the
    store still has 4 elements. *)
Theorem rebuild_on_two_polylines :
  (exists vaf,
     _vaf (coll twoPolylines) = Some vaf
     /\ vaf_size vaf = 4
     /\ map a_index (vaf_attributes vaf) = [position3D; color; outlineColor]
     /\ vaf_commit vaf = Some None
     /\ map w_vertex (vaf_writes vaf) = [0; 1; 0; 1; 1; 2; 1; 2]
     /\ filter (fun c => w_attribute c = outlineColor) (vaf_writes vaf) = []
     /\ VertexArrayFacade.read position3D 1 vaf
        = Some [Finite (x (cartesian 4 5 6)); Finite (y (cartesian 4 5 6));
                Finite (z (cartesian 4 5 6))]
     /\ VertexArrayFacade.read color 1 vaf
        = Some [Finite 0; Finite 255; Finite 0; Finite 255]
     /\ VertexArrayFacade.read position3D 3 vaf = None
     /\ VertexArrayFacade.read color 3 vaf = None)
  /\ (exists w1 w2,
        remove (VPolyline 0) twoPolylines = Returned true w1
        /\ update testContext w1 = Thrown TypeError w2
        /\ (vaf_size <$> _vaf (coll w2)) = Some 4)
  /\ (exists w1 w2 w3,
        remove (VPolyline 0) twoPolylines = Returned true w1
        /\ getLength w1 = Returned 1 w2
        /\ update testContext w2 = Returned tt w3
        /\ (vaf_size <$> _vaf (coll w3)) = Some 2).
Proof.
  split; [|split].
  - eexists. split; [vm_compute; reflexivity|]. vm_compute. repeat split.
  - eexists _, _. split; [vm_compute; reflexivity|].
    split; [vm_compute; reflexivity|]. vm_compute. reflexivity.
  - eexists _, _, _. split; [vm_compute; reflexivity|].
    split; [vm_compute; reflexivity|].
    split; [vm_compute; reflexivity|]. vm_compute. reflexivity.
Qed.

(** C2 as stated fails on the index buffer: after the first update of two
    polylines [render] submits draw calls, and it is not the case that each
    of them is bound to the shared index buffer of [_getIndexBuffer]. *)
Lemma render_not_indexed :
  ~ (forall d, d ∈ drawn (render twoPolylines) ->
       va_indexBuffer (vertexArray d) = Some _getIndexBuffer).
Proof.
  intros H.
  assert (exists d, d ∈ drawn (render twoPolylines)
                    /\ va_indexBuffer (vertexArray d) = None) as (d & Hd & Hn).
  { remember (drawn (render twoPolylines)) as ds eqn:E. vm_compute in E.
    subst ds. eexists. split.
    - apply list_elem_of_here.
    - reflexivity. }
  rewrite (H d Hd) in Hn. discriminate Hn.
Qed.

(** C3 as stated fails on "since the previous call".  With one polyline
    whose colour was set once, a call of [computeNewBuffersUsage] followed,
    with no mutation in between, by a second call leaves colour classified
    STREAM_DRAW: the counter still holds the notification from before the
    first call. *)
Lemma usage_not_since_previous_call :
  ~ (forall w k ops,
       world_wf w -> k < NUMBER_OF_PROPERTIES -> notifications k ops = 0 ->
       classification k (snd (run (OComputeNewBuffersUsage :: ops) w))
       = Some STATIC_DRAW).
Proof.
  intros H. specialize (H colourChanged COLOR_INDEX []).
  assert (classification COLOR_INDEX
            (snd (run [OComputeNewBuffersUsage] colourChanged))
          = Some STATIC_DRAW) as E.
  { apply H; [apply run_wf, world_wf_init|vm_compute; lia|reflexivity]. }
  vm_compute in E. discriminate E.
Qed.

(** C4 as stated fails on two of its triggers.  After the first of two
    updated polylines was removed the rebuild-pending flag is set, yet
    [update] does not return with a rebuilt store: it throws.  And after a
    colour change that makes [computeNewBuffersUsage] return true,
    [update] returns without rebuilding: the store still declares the
    colour attribute with the old classification. *)
Lemma update_triggers_differ :
  ~ (forall id ops context,
       let w := snd (run ops (init id)) in
       _createVertexArray (coll w) = true ->
       exists w', update context w = Returned tt w'
                  /\ _vaf (coll w') = Some (rebuiltStore w))
  /\ ~ (forall id ops context w1,
          computeNewBuffersUsage (snd (run ops (init id))) = Returned true w1 ->
          exists w', update context w1 = Returned tt w'
                     /\ _vaf (coll w') = Some (rebuiltStore w1)).
Proof.
  split.
  - intros H.
    destruct (H 0 [OAdd (Some templateOne); OAdd (Some templateTwo);
                   OUpdate testContext; ORemove (VPolyline 0)] testContext)
      as (w' & E & _); [vm_compute; reflexivity|].
    vm_compute in E. discriminate E.
  - intros H.
    destruct (H 0 [OAdd (Some templateOne); OUpdate testContext;
                   ONotify 0 COLOR_INDEX] testContext
                (final (computeNewBuffersUsage
                   (snd (run [OAdd (Some templateOne); OUpdate testContext;
                              ONotify 0 COLOR_INDEX] (init 0))))))
      as (w' & E & Ev); [vm_compute; reflexivity|].
    vm_compute in E. injection E as <-. vm_compute in Ev. discriminate Ev.
Qed.

(** ** Wrap-around of the counters *)

Lemma iter_wf (p k : nat) (n : N) (w : World) :
  world_wf w ->
  world_wf (N.iter n (fun w => final (Polyline_makeDirty p k w)) w).
Proof.
  intros Hwf. induction n as [|n IH] using N.peano_ind; [done|].
  rewrite N.iter_succ.
  pose proof (step_wf (ONotify p k) _ IH) as H.
  rewrite step_final in H. cbn [perform] in H. by rewrite final_bind_ret in H.
Qed.

Lemma saturated_facts :
  world_wf saturated /\ member saturated 0
  /\ _propertiesChanged (coll saturated) !! SHOW_INDEX = Some 4294967295%Z.
Proof.
  assert (world_wf (final (add None (init 0)))) as Hwf.
  { pose proof (step_wf (OAdd None) _ (world_wf_init 0)) as H.
    rewrite step_final in H. cbn [perform] in H.
    by rewrite final_bind_ret in H. }
  split; [by apply iter_wf|].
  destruct (notify_iter 0 SHOW_INDEX 4294967295 (final (add None (init 0))) 0)
    as (Hm & _ & Hc).
  - eexists. split; reflexivity.
  - apply Hwf.
  - reflexivity.
  - split; [exact Hm|]. exact Hc.
Qed.

(** C9 as stated fails.  In the world [saturated], reached from a new
    collection by one [add] and 2^32 - 1 dirty notifications for the
    visibility of the polyline, a call of [computeNewBuffersUsage]
    classifies visibility as STREAM_DRAW; after one more notification the
    next call classifies it as STATIC_DRAW. *)
Lemma usage_not_monotone :
  ~ (forall w k ops,
       world_wf w -> k < NUMBER_OF_PROPERTIES ->
       classification k w = Some STREAM_DRAW ->
       classification k (snd (run ops w)) = Some STREAM_DRAW).
Proof.
  intros H.
  destruct saturated_facts as (Hwf & Hm & Hc).
  specialize (H saturated SHOW_INDEX
                [OComputeNewBuffersUsage; ONotify 0 SHOW_INDEX] Hwf).
  generalize dependent saturated. intros s H Hwf Hm Hc.
  pose proof Hwf as (_ & Hu & _).
  assert (SHOW_INDEX < NUMBER_OF_PROPERTIES) as Hk by (vm_compute; lia).
  rewrite (classification_counter SHOW_INDEX s Hu Hk), Hc in H.
  specialize (H Hk eq_refl).
  rewrite !run_cons_snd in H. cbn [run snd] in H.
  set (s1 := snd (step OComputeNewBuffersUsage s)) in *.
  assert (world_wf s1) as Hwf1 by (by apply step_wf).
  assert (member s1 0 /\ _propertiesChanged (coll s1) !! SHOW_INDEX
                         = Some 4294967295%Z) as [Hm1 Hc1].
  { subst s1. rewrite step_final. cbn [perform]. rewrite final_bind_ret.
    destruct (computeNewBuffersUsage_run s Hu)
      as (ch & w' & E & _ & Hpc & _).
    destruct (keeps_computeNewBuffersUsage s) as (Hsv & _).
    rewrite E in *. cbn [final] in *.
    split; [by apply (member_view s)|by rewrite Hpc]. }
  set (s2 := snd (step (ONotify 0 SHOW_INDEX) s1)) in *.
  assert (world_wf s2) as (_ & Hu2 & _) by (by apply step_wf).
  assert (_propertiesChanged (coll s2) !! SHOW_INDEX = Some 0%Z) as Hc2.
  { subst s2. rewrite step_final. cbn [perform]. rewrite final_bind_ret.
    rewrite makeDirty_counters_member by done.
    rewrite uint32_incr_lookup, decide_True by done. by rewrite Hc1. }
  rewrite (classification_counter SHOW_INDEX s2 Hu2 Hk), Hc2 in H.
  discriminate H.
Qed.

(** ** The theorems at work on the data of the test suite *)

Lemma computeNewBuffersUsage_classifies_witness :
  exists changed w',
    computeNewBuffersUsage colourChanged = Returned changed w'
    /\ _buffersUsage (coll w') !! COLOR_INDEX = Some STREAM_DRAW
    /\ _buffersUsage (coll w') !! SHOW_INDEX = Some STATIC_DRAW.
Proof.
  assert (usage_wf colourChanged) as Hu
    by (repeat split; repeat constructor; vm_compute; congruence).
  destruct (computeNewBuffersUsage_classifies colourChanged Hu)
    as (ch & w' & E & _ & _ & Hcl & _).
  exists ch, w'. split; [exact E|]. split.
  - apply (Hcl COLOR_INDEX); [vm_compute; lia|vm_compute; congruence].
  - apply (Hcl SHOW_INDEX); [vm_compute; lia|reflexivity].
Defined.

Lemma update_rebuilds_iff_witness :
  (exists w3, update testContext twoAdded = Returned tt w3
              /\ (vaf_size <$> _vaf (coll w3)) = Some 4
              /\ _createVertexArray (coll w3) = false)
  /\ (exists w2, update testContext oneRemoved = Thrown TypeError w2
                 /\ _vaf (coll w2) = None
                 /\ _createVertexArray (coll w2) = false)
  /\ (exists w1, update testContext twoPolylines = Returned tt w1
                 /\ _vaf (coll w1) = _vaf (coll twoPolylines)).
Proof.
  assert (world_wf twoAdded) as (Hs1 & _ & Hr1 & _)
    by apply run_wf, world_wf_init.
  assert (world_wf oneRemoved) as (Hs2 & _ & Hr2 & _)
    by apply run_wf, world_wf_init.
  assert (world_wf twoPolylines) as (Hs3 & _ & Hr3 & _)
    by apply run_wf, world_wf_init.
  split; [|split].
  - destruct (update_rebuilds_iff testContext twoAdded Hr1 Hs1)
      as (w1 & r1 & r2 & r3 & _ & _ & _ & _ & _ & _ & _ & _ & _ & _ & _ & _
          & _ & _ & _ & _ & _ & Hc & _).
    destruct Hc as (w3 & E & _ & Ev & _ & _ & Hf & _).
    { left. vm_compute. reflexivity. }
    { vm_compute. reflexivity. }
    exists w3. split; [exact E|]. split; [|exact Hf].
    rewrite Ev. vm_compute. reflexivity.
  - destruct (update_rebuilds_iff testContext oneRemoved Hr2 Hs2)
      as (w1 & r1 & r2 & r3 & _ & _ & _ & _ & _ & _ & _ & _ & _ & _ & _ & _
          & _ & _ & _ & _ & _ & _ & Ht & _).
    destruct Ht as (w2 & E & _ & Ev & _ & _ & Hf & _).
    { left. vm_compute. reflexivity. }
    { vm_compute. discriminate. }
    exists w2. split; [exact E|]. split; [|exact Hf].
    rewrite Ev. vm_compute. reflexivity.
  - destruct (update_rebuilds_iff testContext twoPolylines Hr3 Hs3)
      as (w1 & r1 & r2 & r3 & _ & _ & Hv & _ & _ & _ & _ & _ & _ & _ & _ & _
          & _ & _ & _ & _ & _ & _ & _ & Hs & _).
    exists w1. split; [|exact Hv]. apply Hs.
    vm_compute. intros [Hf|[Hu|Hm]].
    + discriminate Hf.
    + apply Hu. reflexivity.
    + apply Hm. reflexivity.
Defined.

Lemma render_three_passes_witness :
  length (drawn (render twoPolylines)) = 3
  /\ forall d, d ∈ drawn (render twoPolylines) ->
               primitiveType d = LINES /\ va_indexBuffer (vertexArray d) = None.
Proof.
  destruct (render_three_passes testContext twoAdded twoPolylines
              (default (VertexArrayFacade.new [] 0) (_vaf (coll twoPolylines)))
              [{| va_first := 0; va_count := 4; va_indexBuffer := None |}])
    as (r1 & r2 & r3 & H); [..|destruct H as (_ & Hlen & Hall & _)].
  - exact I.
  - intros v ib Hv. discriminate Hv.
  - vm_compute. reflexivity.
  - vm_compute. reflexivity.
  - vm_compute. reflexivity.
  - split; [exact Hlen|exact Hall].
Defined.

Lemma remove_spec_witness :
  exists w', remove (VPolyline 0) twoPolylines = Returned true w'
             /\ remove (VPolyline 0) w' = Returned false w'
             /\ remove VNull twoPolylines = Returned false twoPolylines.
Proof.
  assert (world_wf twoPolylines) as (Hs & _) by apply run_wf, world_wf_init.
  destruct (remove_spec twoPolylines 0 Hs) as (Hm & Hnull & _ & _).
  destruct Hm as (q & w' & _ & E & _ & _ & _ & _ & _ & _ & _ & E2).
  { eexists. split; reflexivity. }
  exists w'. split; [exact E|]. split; [exact E2|exact Hnull].
Defined.

Lemma compaction_dense_witness :
  _polylines (coll (final (getLength oneRemoved))) = [SPolyline 1]
  /\ exists w1 w2, remove (VPolyline 0) twoPolylines = Returned true w1
                   /\ get (INumber 0) w1 = Returned (VPolyline 1) w2.
Proof.
  assert (world_wf oneRemoved) as (Hs & _) by apply run_wf, world_wf_init.
  assert (world_wf twoPolylines) as (Hs2 & _) by apply run_wf, world_wf_init.
  split.
  - destruct (compaction_dense oneRemoved 0 Hs) as (H & _).
    destruct (H (final (getLength oneRemoved))) as (E & _); [by left|].
    exact E.
  - destruct (compaction_dense twoPolylines 0 Hs2) as (_ & H).
    destruct (H 0 1 eq_refl) as (H1 & _). exact H1.
Defined.

Lemma getLength_counts_witness :
  exists w', getLength (snd (run mixedProgram (init 0))) = Returned 2 w'.
Proof.
  destruct (getLength_counts 0 mixedProgram) as (w' & E); [reflexivity|].
  exists w'. exact E.
Defined.

Lemma usage_monotone_below_wrap_witness :
  classification COLOR_INDEX
    (snd (run [ONotify 0 COLOR_INDEX; ORemoveAll; OComputeNewBuffersUsage]
              colourChanged))
  = Some STREAM_DRAW.
Proof.
  apply (usage_monotone_below_wrap colourChanged COLOR_INDEX
           [ONotify 0 COLOR_INDEX; ORemoveAll; OComputeNewBuffersUsage] 1).
  - apply run_wf, world_wf_init.
  - vm_compute. lia.
  - reflexivity.
  - vm_compute. reflexivity.
  - vm_compute. reflexivity.
Defined.

Lemma get_out_of_range_witness :
  exists w', get (INumber 1) oneRemoved = Returned VUndefined w'
             /\ livePolylines (_polylines (coll w')) = [1].
Proof.
  assert (world_wf oneRemoved) as (Hs & _) by apply run_wf, world_wf_init.
  destruct (get_out_of_range oneRemoved 1 Hs) as (w' & E & _ & _ & Hl & _).
  { vm_compute. discriminate. }
  exists w'. split; [exact E|exact Hl].
Defined.

(** * Further properties of the code *)

(** ** [_clampWidth] *)

Lemma Qmax'_spec (a b : Q) :
  (a <= Qmax' a b)%Q /\ (b <= Qmax' a b)%Q
  /\ (Qmax' a b = a \/ Qmax' a b = b).
Proof.
  unfold Qmax'. destruct (Qle_bool a b) eqn:E.
  - apply Qle_bool_iff in E. repeat split; [done|apply Qle_refl|by right].
  - assert (~ (a <= b)%Q) as H by (by rewrite <- Qle_bool_iff, E).
    apply Qnot_le_lt in H.
    repeat split; [apply Qle_refl|by apply Qlt_le_weak|by left].
Qed.

Lemma Qmin'_spec (a b : Q) :
  (Qmin' a b <= a)%Q /\ (Qmin' a b <= b)%Q
  /\ (Qmin' a b = a \/ Qmin' a b = b).
Proof.
  unfold Qmin'. destruct (Qle_bool a b) eqn:E.
  - apply Qle_bool_iff in E. repeat split; [apply Qle_refl|done|by left].
  - assert (~ (a <= b)%Q) as H by (by rewrite <- Qle_bool_iff, E).
    apply Qnot_le_lt in H.
    repeat split; [by apply Qlt_le_weak|apply Qle_refl|by right].
Qed.

Lemma clamp_in_range (lo hi x : Q) :
  (lo <= x)%Q -> (x <= hi)%Q -> (Qmin' (Qmax' x lo) hi == x)%Q.
Proof.
  intros H1 H2.
  destruct (Qmax'_spec x lo) as (M1 & M2 & M3).
  destruct (Qmin'_spec (Qmax' x lo) hi) as (N1 & N2 & N3).
  apply Qle_antisym.
  - eapply Qle_trans; [exact N1|].
    destruct M3 as [-> | ->]; [apply Qle_refl|exact H1].
  - destruct N3 as [-> | ->]; done.
Qed.

Lemma clamp_inverted (lo hi x : Q) :
  (hi < lo)%Q -> Qmin' (Qmax' x lo) hi = hi.
Proof.
  intros Hlt. destruct (Qmax'_spec x lo) as (_ & M2 & _).
  unfold Qmin'. destruct (Qle_bool (Qmax' x lo) hi) eqn:B; [|done].
  apply Qle_bool_iff in B. exfalso.
  apply (Qlt_not_le _ _ Hlt). eapply Qle_trans; [exact M2|exact B].
Qed.

(** X1.  [_clampWidth] gives NaN for a width that was never assigned.  For
    an assigned width it gives a number that is the width itself or one of
    the two limits of the context; that number is never above the maximum,
    is not below the minimum when the limits are in order, equals the width
    when the width lies between the limits, and clamping it again changes
    nothing. *)
Theorem clampWidth_bounds (context : Context) (q : Q) :
  _clampWidth context None = NaN
  /\ exists r,
       _clampWidth context (Some q) = Num r
       /\ (r = q \/ r = minimumAliasedLineWidth context
           \/ r = maximumAliasedLineWidth context)
       /\ (r <= maximumAliasedLineWidth context)%Q
       /\ ((minimumAliasedLineWidth context <= maximumAliasedLineWidth context)%Q ->
           (minimumAliasedLineWidth context <= r)%Q)
       /\ ((minimumAliasedLineWidth context <= q)%Q ->
           (q <= maximumAliasedLineWidth context)%Q -> (r == q)%Q)
       /\ exists r', _clampWidth context (Some r) = Num r' /\ (r' == r)%Q.
Proof.
  split; [reflexivity|].
  unfold _clampWidth, ToNumber, Math_max, Math_min.
  set (lo := minimumAliasedLineWidth context).
  set (hi := maximumAliasedLineWidth context).
  destruct (Qmax'_spec q lo) as (M1 & M2 & M3).
  destruct (Qmin'_spec (Qmax' q lo) hi) as (N1 & N2 & N3).
  eexists. split; [reflexivity|].
  split; [destruct N3 as [-> | ->]; [destruct M3 as [-> | ->]|]; auto|].
  split; [done|].
  assert (lo <= hi -> lo <= Qmin' (Qmax' q lo) hi)%Q as Hlo.
  { intros Hlh. destruct N3 as [-> | ->]; done. }
  split; [done|]. split; [apply clamp_in_range|].
  eexists. split; [reflexivity|].
  destruct (Qlt_le_dec hi lo) as [Hlt|Hle].
  - rewrite !clamp_inverted by done. apply Qeq_refl.
  - apply clamp_in_range; [by apply Hlo|done].
Qed.

Lemma clampWidth_bounds_witness :
  exists r, _clampWidth testContext (Some 20%Q) = Num r /\ (r <= 10)%Q.
Proof.
  destruct (clampWidth_bounds testContext 20) as (_ & r & E & _ & H & _).
  exists r. split; [exact E|exact H].
Defined.

(** ** [_getIndexBuffer] *)

Lemma quadIndices_length (n : nat) (j : Z) : length (quadIndices n j) = 6 * n.
Proof.
  revert j. induction n as [|n IH]; intros j; [done|].
  cbn [quadIndices]. rewrite length_app, IH. cbn [map length]. lia.
Qed.

Lemma quadIndices_lookup (n : nat) (j : Z) (q r : nat) :
  q < n -> r < 6 ->
  quadIndices n j !! (6 * q + r)
  = Some ((j + 4 * Z.of_nat q + quadCorner r) mod 2 ^ 16)%Z.
Proof.
  revert j q. induction n as [|n IH]; intros j q Hq Hr; [lia|].
  cbn [quadIndices]. destruct q as [|q].
  - rewrite lookup_app_l by (cbn [map length]; lia).
    replace (6 * 0 + r) with r by lia.
    do 6 (destruct r as [|r]; [cbn; f_equal; f_equal; lia|]). lia.
  - rewrite lookup_app_r by (cbn [map length]; lia).
    replace (6 * S q + r - length (map (fun v => (v mod 2 ^ 16)%Z)
               [j + 0; j + 1; j + 2; j + 0; j + 2; j + 3]%Z))
      with (6 * q + r) by (cbn [map length]; lia).
    rewrite IH by lia. f_equal. f_equal. lia.
Qed.

(** X2.  The shared index buffer holds 6 * 16384 indices.  The [r]-th index
    of quad [q] names vertex [4 q] plus 0, 1, 2, 0, 2, 3: the 16-bit
    entries never wrap around, the largest index is 65535, and the buffer
    is created for static use. *)
Theorem indexBuffer_quads (q r : nat) :
  q < 16 * 1024 -> r < 6 ->
  length (ib_indices _getIndexBuffer) = 6 * (16 * 1024)
  /\ ib_usage _getIndexBuffer = STATIC_DRAW
  /\ ib_indices _getIndexBuffer !! (6 * q + r)
     = Some (4 * Z.of_nat q + quadCorner r)%Z
  /\ (0 <= 4 * Z.of_nat q + quadCorner r <= 65535)%Z.
Proof.
  intros Hq Hr. unfold _getIndexBuffer. cbn [ib_indices ib_usage].
  split; [apply quadIndices_length|]. split; [reflexivity|].
  assert (0 <= quadCorner r <= 3)%Z as Hc.
  { do 6 (destruct r as [|r]; [cbn; lia|]). cbn. lia. }
  assert (0 <= 4 * Z.of_nat q + quadCorner r <= 65535)%Z as Hb by lia.
  split; [|exact Hb].
  rewrite quadIndices_lookup by done. f_equal.
  rewrite Z.add_0_l. apply Z.mod_small. lia.
Qed.

Lemma indexBuffer_quads_witness :
  ib_indices _getIndexBuffer !! (6 * (16 * 1024 - 1) + 5) = Some 65535%Z.
Proof.
  destruct (indexBuffer_quads (16 * 1024 - 1) 5) as (_ & _ & H & _); [lia|lia|].
  exact H.
Defined.

(** ** Membership and reads *)

(** X3.  In a well-formed world [contains] of an existing polyline returns
    a boolean, true exactly when the polyline sits in a slot of the
    collection, and then in the slot its [_index] names.  Of [null] it
    returns [null] and of [undefined] it returns [undefined], the argument
    itself, which is falsy but is not the boolean false.  It never changes
    the world. *)
Theorem contains_iff_slot (w : World) (p : nat) (q : Polyline) :
  slots_wf w -> heap w !! p = Some q ->
  exists b,
    contains (VPolyline p) w = Returned (GBool b) w
    /\ (b = true <-> p ∈ livePolylines (_polylines (coll w)))
    /\ (b = true <-> _polylines (coll w) !! _index q = Some (SPolyline p))
    /\ contains VNull w = Returned GNull w
    /\ contains VUndefined w = Returned GUndefined w
    /\ ToBoolean GNull = false /\ ToBoolean GUndefined = false
    /\ (forall arg, final (contains arg w) = w).
Proof.
  intros Hwf Hq. eexists. split; [by apply contains_eq|].
  rewrite bool_decide_eq_true.
  split; [|split; [|repeat (split; [done|]); intros arg; apply contains_final]].
  - rewrite (member_lookup w p Hwf). split.
    + intros Hc. by exists q.
    + intros (q' & Hq' & Hc). by simplify_eq.
  - split.
    + intros Hc. by apply (wf_member w Hwf).
    + intros Hs. destruct (wf_slot w Hwf _ _ Hs) as (q' & Hq' & _ & Hc).
      by simplify_eq.
Qed.

Lemma contains_iff_slot_witness :
  contains (VPolyline 0) oneRemoved = Returned (GBool false) oneRemoved
  /\ contains (VPolyline 1) oneRemoved = Returned (GBool true) oneRemoved.
Proof.
  assert (world_wf oneRemoved) as (Hs & _) by apply run_wf, world_wf_init.
  split.
  - destruct (contains_iff_slot oneRemoved 0 _ Hs eq_refl) as (b & E & Hb & _).
    rewrite E. destruct b; [|reflexivity].
    destruct Hb as [Hb _]. specialize (Hb eq_refl).
    vm_compute in Hb. apply list_elem_of_In in Hb. vm_compute in Hb.
    destruct Hb as [Hb|[]]. discriminate Hb.
  - destruct (contains_iff_slot oneRemoved 1 _ Hs eq_refl) as (b & E & Hb & _).
    rewrite E. destruct b; [reflexivity|].
    destruct Hb as [_ Hb]. discriminate Hb.
    vm_compute. apply list_elem_of_here.
Defined.

Lemma get_in_range_aux (w : World) (i : nat) (p : nat) :
  slots_wf w ->
  livePolylines (_polylines (coll w)) !! i = Some p ->
  exists w', get (INumber (Z.of_nat i)) w = Returned (VPolyline p) w'.
Proof.
  intros Hwf Hi. eexists.
  rewrite get_eq, (live_compact w Hwf). by rewrite (array_get_in_range _ i p).
Qed.

(** X4.  In a well-formed world [get] with the position [i] of a live
    polyline, counted over the live polylines in slot order, returns that
    polyline; after the call the polyline records [i] as its [_index] and
    the live polylines are the same.  With a negative number [get] returns
    [undefined]. *)
Theorem get_in_range (w : World) (i : nat) (p : nat) :
  slots_wf w ->
  livePolylines (_polylines (coll w)) !! i = Some p ->
  exists w',
    get (INumber (Z.of_nat i)) w = Returned (VPolyline p) w'
    /\ (exists q, heap w' !! p = Some q /\ _index q = i)
    /\ livePolylines (_polylines (coll w')) = livePolylines (_polylines (coll w))
    /\ slots_wf w'
    /\ (forall n, (n < 0)%Z -> exists w'', get (INumber n) w = Returned VUndefined w'').
Proof.
  intros Hwf Hi. eexists. split; [|split; [|split; [|split]]].
  - rewrite get_eq, (live_compact w Hwf). by rewrite (array_get_in_range _ i p).
  - by apply compact_index.
  - by apply compact_live.
  - by apply slots_wf_compact.
  - intros n Hn. eexists. rewrite get_eq. f_equal. unfold array_get.
    by destruct (Z.ltb_spec n 0); [|lia].
Qed.

Lemma get_in_range_witness :
  exists w', get (INumber 0) oneRemoved = Returned (VPolyline 1) w'
             /\ exists q, heap w' !! 1 = Some q /\ _index q = 0.
Proof.
  assert (world_wf oneRemoved) as (Hs & _) by apply run_wf, world_wf_init.
  destruct (get_in_range oneRemoved 0 1 Hs eq_refl) as (w' & E & Hq & _).
  exists w'. split; [exact E|exact Hq].
Defined.

Lemma add_getLength_aux (w : World) (t : option Template) :
  slots_wf w ->
  exists p w1 w2,
    add t w = Returned p w1
    /\ getLength w1
       = Returned (S (length (livePolylines (_polylines (coll w))))) w2.
Proof.
  intros Hwf.
  pose proof (slots_wf_add t w Hwf) as Hwf'.
  pose proof (live_add t w) as Hl.
  rewrite add_eq in *. cbn [final] in *.
  eexists _, _, _. split; [reflexivity|].
  rewrite getLength_eq. f_equal.
  rewrite (live_compact _ Hwf'), length_map, Hl, length_app. cbn. lia.
Qed.

(** X5.  In a well-formed world [add] returns a polyline that did not exist
    before, puts it in a new last slot recorded as its [_index], makes it a
    member and sets the rebuild-pending flag; the polylines that existed are
    untouched.  After it the live polylines are the previous ones followed
    by the new one, [getLength] returns one more than before, and [get] at
    the previous length returns the new polyline. *)
Theorem add_then_read (w : World) (t : option Template) :
  slots_wf w ->
  let n := length (livePolylines (_polylines (coll w))) in
  exists p w',
    add t w = Returned p w'
    /\ heap w !! p = None
    /\ (forall p' q, heap w !! p' = Some q -> heap w' !! p' = Some q)
    /\ (exists q, heap w' !! p = Some q
                  /\ _index q = length (_polylines (coll w))
                  /\ _polylines (coll w') !! _index q = Some (SPolyline p))
    /\ member w' p
    /\ _createVertexArray (coll w') = true
    /\ livePolylines (_polylines (coll w'))
       = livePolylines (_polylines (coll w)) ++ [p]
    /\ (exists w'', getLength w' = Returned (S n) w'')
    /\ (exists w'', get (INumber (Z.of_nat n)) w' = Returned (VPolyline p) w'')
    /\ slots_wf w'.
Proof.
  intros Hwf n.
  pose proof (slots_wf_add t w Hwf) as Hwf'.
  pose proof (live_add t w) as Hl.
  rewrite add_eq in *. cbn [final] in *.
  eexists _, _. split; [reflexivity|].
  set (w' := {| heap := _; coll := _ |}) in *.
  assert (heap w' !! length (heap w)
          = Some (Polyline.set_index (length (_polylines (coll w)))
                    (Polyline.new t (ident (coll w))))) as Hnew
    by (by apply list_lookup_middle).
  split; [by apply lookup_ge_None_2|].
  split; [intros p' q Hq; by apply lookup_app_l_Some|].
  split.
  { eexists. split; [exact Hnew|]. split; [reflexivity|].
    cbn. by apply list_lookup_middle. }
  split; [eexists; split; [exact Hnew|reflexivity]|].
  split; [reflexivity|]. split; [exact Hl|].
  split; [|split; [|exact Hwf']].
  - eexists. rewrite getLength_eq. f_equal.
    rewrite (live_compact w' Hwf'), length_map, Hl, length_app. cbn. lia.
  - destruct (get_in_range_aux w' n (length (heap w)) Hwf') as (w'' & E).
    { rewrite Hl. by apply list_lookup_middle. }
    eauto.
Qed.

Lemma add_then_read_witness :
  exists p w', add None oneRemoved = Returned p w'
               /\ livePolylines (_polylines (coll w')) = [1; p]
               /\ exists w'', getLength w' = Returned 2 w''.
Proof.
  assert (world_wf oneRemoved) as (Hs & _) by apply run_wf, world_wf_init.
  destruct (add_then_read oneRemoved None Hs)
    as (p & w' & E & _ & _ & _ & _ & _ & Hl & Hn & _).
  exists p, w'. split; [exact E|]. split; [exact Hl|exact Hn].
Defined.

(** ** [removeAll] *)

Lemma detach_length (ps : list nat) (h : list Polyline) :
  length (detach ps h) = length h.
Proof.
  revert h. induction ps as [|p ps IH]; intros h; [done|].
  cbn. by rewrite IH, length_alter.
Qed.

(** X6.  In a well-formed world [removeAll] returns, leaves no slot and no
    queued polyline, clears the removal-pending flag and sets the
    rebuild-pending flag.  No polyline is a member afterwards, so [contains]
    and [remove] return false for each of them and [getLength] returns 0; a
    polyline that was no member is as it was; the counters, the usage
    classification, the render states and the vertex store are as they
    were.  An [add] after it gives a collection of length 1. *)
Theorem removeAll_empties (w : World) :
  slots_wf w ->
  exists w',
    removeAll w = Returned tt w'
    /\ _polylines (coll w') = []
    /\ _polylinesToUpdate (coll w') = []
    /\ _polylinesRemoved (coll w') = false
    /\ _createVertexArray (coll w') = true
    /\ length (heap w') = length (heap w)
    /\ (forall p, ~ member w' p)
    /\ (forall p q, heap w' !! p = Some q ->
          contains (VPolyline p) w' = Returned (GBool false) w'
          /\ remove (VPolyline p) w' = Returned false w')
    /\ (forall p q, heap w !! p = Some q -> ~ member w p -> heap w' !! p = Some q)
    /\ getLength w' = Returned 0 w'
    /\ static_view w' = static_view w
    /\ (forall t, exists p w1 w2,
          add t w' = Returned p w1 /\ getLength w1 = Returned 1 w2)
    /\ slots_wf w'.
Proof.
  intros Hwf.
  pose proof (slots_wf_removeAll w Hwf) as Hwf'.
  pose proof (keeps_removeAll_static w) as Hst.
  rewrite removeAll_eq in *. cbn [final] in *.
  eexists. split; [reflexivity|].
  set (w' := {| heap := _; coll := _ |}) in *.
  assert (forall p, ~ member w' p) as Hno.
  { intros p (q & Hq & Hc). by pose proof (wf_member w' Hwf' p q Hq Hc). }
  do 4 (split; [reflexivity|]).
  split; [apply detach_length|]. split; [exact Hno|].
  split.
  { intros p q Hq.
    assert (_collection q <> Some (ident (coll w'))) as Hc.
    { intros Hc. apply (Hno p). by exists q. }
    split; [|by apply (remove_foreign p q)].
    rewrite (contains_eq p q) by done. by rewrite bool_decide_eq_false_2. }
  split.
  { intros p q Hq Hnm. cbn [w' heap].
    rewrite detach_notin; [done|].
    intros Hin. apply Hnm. by apply (member_lookup w p Hwf). }
  split; [reflexivity|]. split; [exact Hst|]. split; [|exact Hwf'].
  intros t.
  destruct (add_getLength_aux w' t Hwf') as (p & w1 & w2 & E & Hn).
  exists p, w1, w2. split; [exact E|exact Hn].
Qed.

Lemma removeAll_empties_witness :
  exists w', removeAll twoPolylines = Returned tt w'
             /\ getLength w' = Returned 0 w'
             /\ contains (VPolyline 0) w' = Returned (GBool false) w'.
Proof.
  assert (world_wf twoPolylines) as (Hs & _) by apply run_wf, world_wf_init.
  destruct (removeAll_empties twoPolylines Hs)
    as (w' & E & _ & _ & _ & _ & Hlen & _ & Hc & _ & Hn & _).
  exists w'. split; [exact E|]. split; [exact Hn|].
  assert (is_Some (heap w' !! 0)) as [q Hq].
  { apply lookup_lt_is_Some. rewrite Hlen. vm_compute. lia. }
  by destruct (Hc 0 q Hq).
Defined.

(** ** What [update] leaves alone *)

(** X7.  In a world whose render states are in order [update], whether it
    returns or throws, changes of the polylines nothing but dirty bits, and
    leaves the slots, the removal-pending flag, the update queue, the
    mutation counters, the usage classification and the public fields
    [modelMatrix], [bufferUsage], [width] and [outlineWidth] as they were:
    it neither compacts the slots nor consumes the queue nor resets a
    counter.  It always leaves [morphTime] at 1, whatever it was. *)
Theorem update_leaves_alone (context : Context) (w : World) :
  rs_wf w ->
  let w' := final (update context w) in
  map Polyline._clean (heap w') = map Polyline._clean (heap w)
  /\ _polylines (coll w') = _polylines (coll w)
  /\ _polylinesRemoved (coll w') = _polylinesRemoved (coll w)
  /\ _polylinesToUpdate (coll w') = _polylinesToUpdate (coll w)
  /\ _propertiesChanged (coll w') = _propertiesChanged (coll w)
  /\ _buffersUsage (coll w') = _buffersUsage (coll w)
  /\ modelMatrix (coll w') = modelMatrix (coll w)
  /\ bufferUsage (coll w') = bufferUsage (coll w)
  /\ width (coll w') = width (coll w)
  /\ outlineWidth (coll w') = outlineWidth (coll w)
  /\ morphTime (coll w') = 1%Q.
Proof.
  intros Hrs w'. destruct (update_but_vaf context w Hrs) as [Hh Hc].
  fold w' in Hh, Hc. split; [exact Hh|].
  assert (exists c2, set_vaf None (coll w') = set_vaf None c2
            /\ _polylines c2 = _polylines (coll w)
            /\ _polylinesRemoved c2 = _polylinesRemoved (coll w)
            /\ _polylinesToUpdate c2 = _polylinesToUpdate (coll w)
            /\ _propertiesChanged c2 = _propertiesChanged (coll w)
            /\ _buffersUsage c2 = _buffersUsage (coll w)
            /\ modelMatrix c2 = modelMatrix (coll w)
            /\ bufferUsage c2 = bufferUsage (coll w)
            /\ width c2 = width (coll w)
            /\ outlineWidth c2 = outlineWidth (coll w)
            /\ morphTime c2 = 1%Q) as (c2 & E & H).
  { destruct Hc as [E|E]; eexists; (split; [exact E|]);
      destruct w as [h []]; vm_compute; repeat split. }
  apply but_vaf_fields in E
    as (_ & E1 & E2 & E3 & _ & E4 & E5 & E6 & E7 & E8 & E9 & E10).
  rewrite E1, E2, E3, E4, E5, E6, E7, E8, E9, E10. tauto.
Qed.

Lemma update_leaves_alone_witness :
  morphTime (coll (final (update testContext oneRemoved))) = 1%Q
  /\ _polylines (coll (final (update testContext oneRemoved)))
     = _polylines (coll oneRemoved).
Proof.
  destruct (update_leaves_alone testContext oneRemoved)
    as (_ & Hp & _ & _ & _ & _ & _ & _ & _ & _ & Hm).
  { assert (world_wf oneRemoved) as (_ & _ & Hr & _)
      by apply run_wf, world_wf_init.
    exact Hr. }
  split; [exact Hm|exact Hp].
Defined.

(** ** [update] with a removal pending *)

(** X8.  In a well-formed world, an [update] that directly follows the
    removal of a member throws a TypeError: the rebuild meets the tombstone.
    The failed call leaves the vertex store and the slots as they were but
    has already cleared the rebuild-pending flag and taken its snapshots;
    so after the compaction of a [getLength] the next [update] returns
    without rebuilding, and the store is still the one from before the
    removal. *)
Theorem update_after_remove_throws (context : Context) (w : World) (p : nat) :
  slots_wf w -> rs_wf w -> member w p ->
  exists w1 w2 w3 w4 n,
    remove (VPolyline p) w = Returned true w1
    /\ update context w1 = Thrown TypeError w2
    /\ _vaf (coll w2) = _vaf (coll w)
    /\ heap w2 = heap w1
    /\ _polylines (coll w2) = _polylines (coll w1)
    /\ _createVertexArray (coll w2) = false
    /\ getLength w2 = Returned n w3
    /\ S n = length (livePolylines (_polylines (coll w)))
    /\ update context w3 = Returned tt w4
    /\ _vaf (coll w4) = _vaf (coll w).
Proof.
  intros Hwf Hrs (q & Hq & Hc).
  pose proof (slots_wf_remove (VPolyline p) w Hwf) as Hwf1.
  pose proof (keeps_remove_static (VPolyline p) w) as Hst1.
  pose proof (live_remove_member p q w Hwf Hq Hc) as Hl1.
  pose proof (wf_member w Hwf p q Hq Hc) as Hslot.
  rewrite (remove_member p q) in Hwf1, Hst1, Hl1 by done.
  cbn [final] in Hwf1, Hst1, Hl1.
  set (w1 := {| heap := alter Polyline._destroy p (heap w); coll := _ |}) in *.
  assert (_createVertexArray (coll w1) = true) as Hflag by reflexivity.
  assert (SNull ∈ _polylines (coll w1)) as Hnull.
  { cbn [w1 coll]. replace (_polylines _)
      with (array_set (_index q) SNull (_polylines (coll w)))
      by (by destruct (coll w)).
    rewrite (array_set_in_range _ _ _ _ Hslot).
    apply list_elem_of_lookup. exists (_index q).
    apply list_lookup_insert_eq. by eapply lookup_lt_Some. }
  apply triple_inv in Hst1 as (_ & Hpv1 & Hvaf1).
  pose proof (rs_wf_view w w1 Hpv1 Hrs) as Hrs1.
  (* the first update *)
  pose proof (update_eq context w1 Hrs1) as Hupd.
  assert (update_condition update_mode (modelMatrix (coll w1)) (coll w1) = true)
    as Hcond by (apply update_condition_iff; by left).
  rewrite Hcond in Hupd.
  destruct (prepared_fields context w1)
    as (F1 & F2 & F3 & _ & _ & _ & _ & F8 & _).
  destruct (snapshot_fields (update_prepared context w1))
    as (G1 & G2 & G3 & G4 & G5 & G6 & G7 & _).
  set (w2 := update_snapshot (update_prepared context w1)) in *.
  assert (_update w2 = Thrown TypeError w2) as Hthrow.
  { unfold _update, bind, this. rewrite _update_size_tombstone; [done| |].
    - intros p' Hp'. rewrite G1, F1.
      rewrite G2, F2 in Hp'. apply list_elem_of_lookup in Hp' as [i Hi].
      destruct (wf_slot w1 Hwf1 i p' Hi) as (q' & Hq' & _). by eexists.
    - exists SNull. split; [|done]. by rewrite G2, F2. }
  rewrite Hthrow in Hupd.
  assert (rs_wf w2) as Hrs2.
  { apply (rs_wf_view (update_prepared context w1)); [exact G4|].
    by apply rs_wf_prepared. }
  assert (slots_wf w2) as Hwf2.
  { apply (slots_wf_view w1); [|done].
    pose proof (snapshot_views context w1) as Hv. fold w2 in Hv.
    by apply triple_inv in Hv as (? & _). }
  (* the read and the second update *)
  pose proof (slots_wf_compact w2 Hwf2) as Hwf3.
  pose proof (keeps_removePolylines_static w2) as Hst3.
  pose proof (removePolylines_trigger w2) as Htr3.
  pose proof (getLength_eq w2) as Hget.
  pose proof (live_compact w2 Hwf2) as Hlive3.
  set (w3 := final (_removePolylines w2)) in *. clearbody w3.
  apply triple_inv in Hst3 as (_ & Hpv3 & Hvaf3).
  pose proof (rs_wf_view w2 w3 Hpv3 Hrs2) as Hrs3.
  apply quad_inv in Htr3 as (T1 & T2 & T3 & T4).
  pose proof (update_eq context w3 Hrs3) as Hupd3.
  assert (update_condition update_mode (modelMatrix (coll w3)) (coll w3) = false)
    as Hcond3.
  { destruct (update_condition update_mode (modelMatrix (coll w3)) (coll w3))
      eqn:E; [|done].
    apply update_condition_iff in E as [E|[E|[E|[E _]]]].
    - rewrite T1, G5 in E. discriminate E.
    - exfalso. apply E. rewrite T2, T3, G6.
      unfold w2. by rewrite snapshot_bufferUsage.
    - exfalso. apply E. by rewrite T4, G7.
    - by destruct E. }
  rewrite Hcond3 in Hupd3.
  exists w1, w2, w3, (update_prepared context w3),
    (length (_polylines (coll w3))).
  split; [by apply (remove_member p q)|]. split; [exact Hupd|].
  split; [by rewrite G3, F3|].
  split; [by rewrite G1, F1|]. split; [by rewrite G2, F2|].
  split; [exact G5|]. split; [exact Hget|].
  split.
  { rewrite Hlive3, length_map, G2, F2, Hl1.
    assert (p ∈ livePolylines (_polylines (coll w))) as Hin
      by (apply (member_lookup w p Hwf); by exists q).
    pose proof (slots_wf_NoDup w Hwf) as Hnd.
    clear -Hin Hnd. induction (livePolylines _) as [|x l IH]; [by apply elem_of_nil in Hin|].
    apply NoDup_cons in Hnd as [Hx Hnd].
    destruct (decide (x = p)) as [->|Hne].
    - rewrite filter_cons_False by (intros ?; done).
      by rewrite filter_ne_notin.
    - rewrite filter_cons_True by done. cbn. f_equal. apply IH; [|done].
      by apply elem_of_cons in Hin as [->|Hin]. }
  split; [exact Hupd3|].
  destruct (prepared_fields context w3) as (_ & _ & F3' & _).
  by rewrite F3', Hvaf3, G3, F3.
Qed.

Lemma update_after_remove_throws_witness :
  exists w1 w2, remove (VPolyline 0) twoPolylines = Returned true w1
                /\ update testContext w1 = Thrown TypeError w2
                /\ _createVertexArray (coll w2) = false.
Proof.
  assert (world_wf twoPolylines) as (Hs & _ & Hr & _)
    by apply run_wf, world_wf_init.
  destruct (update_after_remove_throws testContext twoPolylines 0 Hs Hr)
    as (w1 & w2 & _ & _ & _ & E1 & E2 & _ & _ & _ & Hf & _).
  { eexists. split; reflexivity. }
  exists w1, w2. split; [exact E1|]. split; [exact E2|exact Hf].
Defined.

(** ** What [render] draws between updates *)

Lemma keeps_destroyPolylines_loop_draw (l : list slot) :
  keeps draw_view (_destroyPolylines_loop l).
Proof. induction l as [|s l IH]; cbn; keeps_auto; apply IH. Qed.

Lemma keeps_removePolylines_draw : keeps draw_view _removePolylines.
Proof.
  intros w. rewrite _removePolylines_eq. cbn [final].
  by destruct (_polylinesRemoved (coll w)), w as [h []].
Qed.

Lemma keeps_perform_draw (o : Op) :
  keeps_drawing o = true -> keeps draw_view (perform o).
Proof.
  intros Ho. destruct o; try discriminate Ho; cbn [perform].
  - unfold add. keeps_auto.
  - unfold remove. apply keeps_bind; [|intros ?]; [|keeps_auto].
    apply keeps_bind; [apply keeps_contains|intros b]. keeps_auto.
  - unfold removeAll, _destroyPolylines. keeps_auto.
    apply keeps_destroyPolylines_loop_draw.
  - keeps_auto. apply keeps_contains.
  - unfold get. destruct i; keeps_auto. apply keeps_removePolylines_draw.
  - unfold getLength. keeps_auto. apply keeps_removePolylines_draw.
  - unfold Polyline_makeDirty, _updatePolyline. keeps_auto.
  - unfold computeNewBuffersUsage. keeps_auto.
  - keeps_auto. apply keeps_render.
  - destruct f; try discriminate Ho; cbn; keeps_auto.
Qed.

Lemma render_of_view (w w' : World) :
  draw_view w' = draw_view w -> drawn (render w') = drawn (render w).
Proof.
  intros H. rewrite (render_view w w' H). by destruct (render w).
Qed.

Lemma run_draw_view (ops : list Op) (w : World) :
  forallb keeps_drawing ops = true ->
  draw_view (snd (run ops w)) = draw_view w.
Proof.
  revert w. induction ops as [|o ops IH]; intros w Hops; [done|].
  cbn [forallb] in Hops. apply andb_true_iff in Hops as [Ho Hops].
  rewrite run_cons_snd, IH by done.
  rewrite step_final. by apply keeps_perform_draw.
Qed.

Lemma render_3D (w : World) :
  _mode (coll w) = SCENE3D ->
  let c := coll w in
  let us := {| u_morphTime := morphTime c; u_model := modelMatrix c |} in
  let call um rs seg :=
    {| primitiveType := LINES; shaderProgram := _sp c; uniformMap := um;
       uniforms := match um with Some _ => Some us | None => None end;
       vertexArray := seg; renderState := rs |} in
  drawn (render w) =
  flat_map (fun seg =>
              [call (_drawUniformsOne c) (_rsOne c) seg;
               call (_drawUniformsTwo c) (_rsTwo c) seg;
               call (_drawUniformsThree c) (_rsThree c) seg])
           (default [] (_vaf c ≫= VertexArrayFacade.va)).
Proof.
  intros Hm c us call. unfold render, bind, this. fold c.
  destruct (_vaf c) as [vaf|]; [|done]. cbn [mbind option_bind].
  destruct (VertexArrayFacade.va vaf) as [segs|]; [|done].
  by rewrite render_loop_3D.
Qed.

Lemma assigned_fields (t : Q) (m : Matrix4) (w : World) :
  let w' := final (assignField (FMorphTime t)
                     (final (assignField (FModelMatrix m) w))) in
  passes_view w' = passes_view w
  /\ _vaf (coll w') = _vaf (coll w)
  /\ _drawUniformsOne (coll w') = _drawUniformsOne (coll w)
  /\ _drawUniformsTwo (coll w') = _drawUniformsTwo (coll w)
  /\ _drawUniformsThree (coll w') = _drawUniformsThree (coll w)
  /\ _mode (coll w') = _mode (coll w)
  /\ morphTime (coll w') = t
  /\ modelMatrix (coll w') = m.
Proof. destruct w as [h []]. cbn. repeat split. Qed.

(** X9.  What [render] draws is settled by [update] and by the two public
    fields the functions of the uniform maps read.  Whatever calls other
    than [update] and other than assignments to [modelMatrix] and
    [morphTime] a client makes in between ([add], [remove], [removeAll],
    [contains], [get], [getLength], setters of polylines,
    [computeNewBuffersUsage], [render], assignments to the other public
    fields), [render] afterwards submits the draw calls it would have
    submitted before them.  Assigning [modelMatrix] and [morphTime] without
    an [update] does change them: the next draw calls are the same but for
    the values of their uniforms, which are the assigned ones.  On a
    collection that was never updated [render] submits no call, and
    [render] itself never changes the world. *)
Theorem render_settled_by_update (ops : list Op) (w : World) (id : nat) :
  forallb keeps_drawing ops = true ->
  drawn (render (snd (run ops w))) = drawn (render w)
  /\ drawn (render (snd (run ops (init id)))) = []
  /\ final (render w) = w
  /\ (forall t m,
        _mode (coll w) = SCENE3D ->
        drawn (render (final (assignField (FMorphTime t)
                                (final (assignField (FModelMatrix m) w)))))
        = map (with_uniforms {| u_morphTime := t; u_model := m |})
              (drawn (render w))).
Proof.
  intros Hops. split; [|split; [|split]].
  - apply render_of_view. by apply run_draw_view.
  - rewrite (render_of_view (init id)); [done|]. by apply run_draw_view.
  - apply render_final.
  - intros t m Hm.
    destruct (assigned_fields t m w)
      as (Hp & Hv & U1 & U2 & U3 & Hmode & Ht & Hmm).
    set (w' := final (assignField (FMorphTime t) _)) in *.
    rewrite (render_3D w') by congruence. rewrite (render_3D w Hm).
    apply quad_inv in Hp as (Hsp & H1 & H2 & H3).
    rewrite Hv, U1, U2, U3, Hsp, H1, H2, H3, Ht, Hmm.
    induction (default [] _) as [|seg segs IH]; [done|].
    cbn [flat_map map app]. rewrite <- IH. unfold with_uniforms. cbn.
    by destruct (_drawUniformsOne (coll w)), (_drawUniformsTwo (coll w)),
      (_drawUniformsThree (coll w)).
Qed.

Lemma render_settled_by_update_witness :
  length (drawn (render (snd (run [ORemoveAll; OGetLength; OAdd None;
                                   ONotify 2 COLOR_INDEX] twoPolylines)))) = 3
  /\ map uniforms
       (drawn (render (final (assignField (FMorphTime 0)
                                (final (assignField (FModelMatrix [])
                                          twoPolylines))))))
     = replicate 3 (Some {| u_morphTime := 0; u_model := [] |}).
Proof.
  destruct (render_settled_by_update
              [ORemoveAll; OGetLength; OAdd None; ONotify 2 COLOR_INDEX]
              twoPolylines 0) as (E & _ & _ & Hu); [reflexivity|].
  split.
  - rewrite E. vm_compute. reflexivity.
  - rewrite Hu by reflexivity. vm_compute. reflexivity.
Defined.

(** ** The invariant over all programs *)

(** X10.  Whatever calls a client makes on a new collection, also calls
    that throw, the world it reaches is well formed: every slot holds a
    polyline whose back-reference is the collection and whose [_index] is
    the position of the slot, every polyline with that back-reference is in
    the slot its [_index] names, there is no tombstone unless a removal is
    pending, the two arrays of the usage heuristic have six entries and the
    counters lie in [0, 2^32), the render states keep the colour mask,
    blending and stencil configuration they were created with, and a
    committed vertex store was committed without index buffer. *)
Theorem reachable_world_wf (id : nat) (ops : list Op) :
  let w := snd (run ops (init id)) in
  slots_wf w /\ usage_wf w /\ rs_wf w /\ vaf_wf w
  /\ NoDup (livePolylines (_polylines (coll w)))
  /\ (forall p, member w p <-> p ∈ livePolylines (_polylines (coll w))).
Proof.
  intros w. pose proof (run_wf ops (init id) (world_wf_init id)) as H.
  fold w in H. destruct H as (Hs & Hu & Hr & Hv).
  repeat (split; [assumption|]).
  split; [by apply slots_wf_NoDup|].
  intros p. symmetry. by apply member_lookup.
Qed.

Lemma reachable_world_wf_witness :
  slots_wf (snd (run mixedProgram (init 0)))
  /\ NoDup (livePolylines (_polylines (coll (snd (run mixedProgram (init 0)))))).
Proof.
  destruct (reachable_world_wf 0 mixedProgram) as (Hs & _ & _ & _ & Hn & _).
  split; [exact Hs|exact Hn].
Defined.

(** ** The update queue *)

Lemma update_queue (context : Context) (w : World) :
  rs_wf w -> queue_view (final (update context w)) = queue_view w.
Proof.
  intros Hrs. destruct (update_but_vaf context w Hrs) as [_ Hc].
  unfold queue_view.
  assert (exists c2, set_vaf None (coll (final (update context w)))
                     = set_vaf None c2
            /\ _polylinesToUpdate c2 = _polylinesToUpdate (coll w))
    as (c2 & E & H).
  { destruct Hc as [E|E]; eexists; (split; [exact E|]);
      destruct w as [h []]; vm_compute; reflexivity. }
  apply but_vaf_fields in E as (_ & _ & E & _). by rewrite E.
Qed.

Lemma notify_queue (p k : nat) (w : World) :
  exists l, queue_view (final (Polyline_makeDirty p k w)) = queue_view w ++ l
            /\ length l <= 1.
Proof.
  unfold Polyline_makeDirty, _updatePolyline, bind, deref, this, assign,
    mutate, ret, queue_view.
  destruct (heap w !! p) as [q|] eqn:E; cbn.
  2: { exists []. split; [by rewrite app_nil_r|cbn; lia]. }
  destruct (bool_decide _); cbn; rewrite ?E; cbn.
  2: { exists []. split; [by rewrite app_nil_r|cbn; lia]. }
  destruct (Polyline._isDirty q); cbn.
  - exists []. split; [by rewrite app_nil_r|cbn; lia].
  - exists [p]. split; [done|cbn; lia].
Qed.

Lemma keeps_removePolylines_queue : keeps queue_view _removePolylines.
Proof.
  intros w. rewrite _removePolylines_eq. cbn [final].
  by destruct (_polylinesRemoved (coll w)), w as [h []].
Qed.

Lemma perform_queue (o : Op) (w : World) :
  rs_wf w -> not_removeAll o = true ->
  exists l, queue_view (final (perform o w)) = queue_view w ++ l
            /\ length l <= (if is_notify o then 1 else 0).
Proof.
  intros Hrs Ho.
  destruct (decide (is_notify o = true)) as [Hn|Hn].
  { destruct o; try discriminate Hn. cbn [perform is_notify].
    rewrite final_bind_ret. apply notify_queue. }
  apply not_true_is_false in Hn. rewrite Hn.
  exists []. rewrite app_nil_r. split; [|done].
  destruct o; try discriminate Ho; try discriminate Hn; cbn [perform];
    rewrite final_bind_ret.
  - clear Hrs. revert w. change (keeps queue_view (add t)). unfold add. keeps_auto.
  - clear Hrs. revert w. change (keeps queue_view (remove p)).
    unfold remove. apply keeps_bind; [apply keeps_contains|intros b].
    keeps_auto.
  - apply keeps_contains.
  - clear Hrs. revert w. change (keeps queue_view (get i)).
    unfold get. destruct i; keeps_auto. apply keeps_removePolylines_queue.
  - clear Hrs. revert w. change (keeps queue_view getLength).
    unfold getLength. keeps_auto. apply keeps_removePolylines_queue.
  - clear Hrs. revert w. change (keeps queue_view computeNewBuffersUsage).
    unfold computeNewBuffersUsage. keeps_auto.
  - by apply update_queue.
  - apply keeps_render.
  - clear Hrs. revert w. change (keeps queue_view (assignField f)).
    destruct f; cbn; keeps_auto.
Qed.

(** X11.  The update queue is never consumed.  Along any sequence of calls
    without [removeAll], on a well-formed world, the queue before the calls
    is a prefix of the queue after them, and it has grown by at most one
    entry per dirty notification: [update] cleans the polylines it writes
    but leaves them queued, and neither [remove] nor the compaction takes a
    removed polyline from the queue.  Without a notification among the
    calls the queue is the same. *)
Theorem queue_only_grows (ops : list Op) (w : World) :
  world_wf w ->
  forallb not_removeAll ops = true ->
  exists l,
    _polylinesToUpdate (coll (snd (run ops w)))
    = _polylinesToUpdate (coll w) ++ l
    /\ length l <= length (filter is_notify ops)
    /\ (forallb (fun o => negb (is_notify o)) ops = true -> l = []).
Proof.
  revert w. induction ops as [|o ops IH]; intros w Hwf Hops.
  { exists []. split; [by rewrite app_nil_r|]. split; [cbn; lia|done]. }
  cbn [forallb] in Hops. apply andb_true_iff in Hops as [Ho Hops].
  pose proof (step_wf o w Hwf) as Hwf1.
  destruct (IH _ Hwf1 Hops) as (l2 & E2 & L2 & N2).
  destruct (perform_queue o w) as (l1 & E1 & L1); [apply Hwf|done|].
  rewrite <- step_final in E1. unfold queue_view in E1.
  exists (l1 ++ l2). rewrite run_cons_snd, E2, E1, <- app_assoc.
  split; [done|]. split.
  - rewrite length_app, filter_cons.
    destruct (is_notify o); cbn in *; case_decide; try tauto; cbn; lia.
  - cbn [forallb]. intros H. apply andb_true_iff in H as [H1 H2].
    rewrite (N2 H2), app_nil_r.
    destruct (is_notify o); [discriminate H1|].
    by destruct l1; [|cbn in L1; lia].
Qed.

Lemma queue_only_grows_witness :
  exists l,
    _polylinesToUpdate
      (coll (snd (run [ORemove (VPolyline 0); OGetLength; OUpdate testContext]
                      colourChanged)))
    = _polylinesToUpdate (coll colourChanged) ++ l.
Proof.
  destruct (queue_only_grows
              [ORemove (VPolyline 0); OGetLength; OUpdate testContext]
              colourChanged) as (l & E & _).
  - apply run_wf, world_wf_init.
  - reflexivity.
  - exists l. exact E.
Defined.

(** ** Where the rebuild writes *)

Lemma polylineWrites_length (q : Polyline) :
  length (polylineWrites q) = 2 * length (Polyline.getPositions q).
Proof.
  unfold polylineWrites, positionWrites, colorWrites.
  rewrite length_app, !length_imap. lia.
Qed.

Lemma polylineWrites_attribute (q : Polyline) :
  Forall (fun c => w_attribute c = position3D \/ w_attribute c = color)
         (polylineWrites q).
Proof.
  unfold polylineWrites, positionWrites, colorWrites.
  apply Forall_app. split; apply Forall_forall; intros c Hc;
    apply elem_of_lookup_imap in Hc as (j & x & -> & _); cbn; tauto.
Qed.

Lemma polylineWrites_vertex (q : Polyline) :
  Forall (fun c => _index q <= w_vertex c
                   < _index q + length (Polyline.getPositions q))
         (polylineWrites q).
Proof.
  unfold polylineWrites, positionWrites, colorWrites.
  apply Forall_app. split; apply Forall_forall; intros c Hc;
    apply elem_of_lookup_imap in Hc as (j & x & -> & Hj);
    apply lookup_lt_Some in Hj; cbn; lia.
Qed.

Lemma writesOf_Some (h : list Polyline) (p : nat) (q : Polyline) :
  h !! p = Some q ->
  writesOf h p = polylineWrites q
  /\ positionCount h p = length (Polyline.getPositions q).
Proof. intros H. unfold writesOf, positionCount. by rewrite H. Qed.

Lemma writesOf_None (h : list Polyline) (p : nat) :
  h !! p = None -> writesOf h p = [] /\ positionCount h p = 0.
Proof. intros H. unfold writesOf, positionCount. by rewrite H. Qed.

Lemma writesOf_length (h : list Polyline) (ps : list nat) :
  length (flat_map (writesOf h) ps)
  = 2 * sum_list (map (positionCount h) ps).
Proof.
  induction ps as [|p ps IH]; [done|].
  cbn [flat_map map sum_list sum_list_with id]. rewrite length_app, IH.
  destruct (h !! p) as [q|] eqn:E.
  - destruct (writesOf_Some h p q E) as [-> ->].
    rewrite polylineWrites_length. lia.
  - destruct (writesOf_None h p E) as [-> ->]. cbn [length]. lia.
Qed.

Lemma writesOf_attribute (h : list Polyline) (ps : list nat) :
  Forall (fun c => w_attribute c = position3D \/ w_attribute c = color)
         (flat_map (writesOf h) ps).
Proof.
  induction ps as [|p ps IH]; [constructor|].
  cbn [flat_map]. apply Forall_app. split; [|exact IH].
  destruct (h !! p) as [q|] eqn:E.
  - destruct (writesOf_Some h p q E) as [-> _].
    apply polylineWrites_attribute.
  - destruct (writesOf_None h p E) as [-> _]. constructor.
Qed.

Lemma writesOf_in_range (h : list Polyline) (ps : list nat) (i0 : nat) :
  (forall k p, ps !! k = Some p ->
     exists q, h !! p = Some q /\ _index q = i0 + k
               /\ 1 <= length (Polyline.getPositions q)) ->
  Forall (fun c => w_vertex c < i0 + sum_list (map (positionCount h) ps))
         (flat_map (writesOf h) ps).
Proof.
  revert i0. induction ps as [|p ps IH]; intros i0 H; [constructor|].
  cbn [flat_map map sum_list sum_list_with id]. apply Forall_app.
  destruct (H 0 p eq_refl) as (q & Hq & Hi & Hn).
  destruct (writesOf_Some h p q Hq) as [-> Ec].
  split.
  - eapply Forall_impl; [apply polylineWrites_vertex|].
    intros c Hc. cbn beta in Hc. lia.
  - eapply Forall_impl; [apply (IH (S i0))|].
    + intros k p' Hk. destruct (H (S k) p' Hk) as (q' & Hq' & Hi' & Hn').
      exists q'. split; [done|]. split; [lia|done].
    + intros c Hc. cbn beta in Hc. lia.
Qed.

(** X12.  On a collection without tombstone the rebuild of the vertex
    store returns with a store committed without index buffer and sized to
    the number of positions of the polylines in the slots; it makes two
    writer calls per position, every one on the position or on the fill
    colour attribute: no call writes the outline colour attribute the store
    declares.  When no polyline in a slot is without positions, every call
    addresses a vertex of the store. *)
Theorem rebuild_writes_in_range (w : World) :
  slots_wf w -> _polylinesRemoved (coll w) = false ->
  let ps := livePolylines (_polylines (coll w)) in
  exists w' vaf,
    _update w = Returned tt w'
    /\ _vaf (coll w') = Some vaf
    /\ vaf_commit vaf = Some None
    /\ vaf_size vaf = sum_list (map (positionCount (heap w)) ps)
    /\ length (vaf_writes vaf) = 2 * vaf_size vaf
    /\ Forall (fun c => w_attribute c = position3D \/ w_attribute c = color)
              (vaf_writes vaf)
    /\ ((forall p, p ∈ ps -> 1 <= positionCount (heap w) p) ->
        Forall (fun c => w_vertex c < vaf_size vaf) (vaf_writes vaf)).
Proof.
  intros Hwf Hf ps. eexists _, _.
  split; [by apply _update_compacted|].
  split; [by destruct w as [h []]|]. fold ps.
  cbn [VertexArrayFacade.commit VertexArrayFacade.new logged vaf_commit
       vaf_size vaf_writes app].
  split; [done|]. split; [done|].
  split; [apply writesOf_length|]. split; [apply writesOf_attribute|].
  intros Hn. apply (writesOf_in_range (heap w) ps 0).
  intros k p Hk.
  assert (_polylines (coll w) !! k = Some (SPolyline p)) as Hs.
  { rewrite (wf_dense w Hwf Hf). fold ps. by rewrite list_lookup_fmap, Hk. }
  destruct (wf_slot w Hwf k p Hs) as (q & Hq & Hi & _).
  exists q. split; [done|]. split; [done|].
  assert (p ∈ ps) as Hp by (by eapply list_elem_of_lookup_2).
  apply Hn in Hp. destruct (writesOf_Some (heap w) p q Hq) as [_ Ec].
  by rewrite Ec in Hp.
Qed.

Lemma rebuild_writes_in_range_witness :
  exists w' vaf,
    _update twoPolylines = Returned tt w'
    /\ _vaf (coll w') = Some vaf
    /\ vaf_size vaf = 4
    /\ Forall (fun c => w_vertex c < 4) (vaf_writes vaf).
Proof.
  destruct (rebuild_writes_in_range twoPolylines)
    as (w' & vaf & E & Ev & _ & Es & _ & _ & Hr).
  - assert (world_wf twoPolylines) as (Hs & _) by apply run_wf, world_wf_init.
    exact Hs.
  - vm_compute. reflexivity.
  - exists w', vaf. split; [exact E|]. split; [exact Ev|].
    assert (sum_list (map (positionCount (heap twoPolylines))
                          (livePolylines (_polylines (coll twoPolylines)))) = 4)
      as E4 by (vm_compute; reflexivity).
    rewrite E4 in Es. split; [exact Es|]. rewrite <- Es. apply Hr.
    apply Forall_forall. vm_compute. repeat constructor.
Defined.
